(** * India Pulse: the slide-to-video assembly pipeline

    A shallow embedding of the news-reel generator: the feed route
    ([GET] in [route.ts]) and the client pipeline (the planner, the
    orchestrator [handleGenerateVideo], [drawWrappedText],
    [buildConcatScript] and [generateSilenceWav]).

    Conventions of the embedding.
    - A JavaScript string is the list of its UTF-16 code units, each a [Z];
      [length], [slice] and [charCodeAt] are then the list operations.
    - A JavaScript number that the code uses as an integer (a length, a
      duration in seconds, a byte offset) is a [Z]; the doubles involved
      are exact on the integers below 2^53.
    - An exception is an [option] or a [result]: [None] and [Throw] stand
      for a thrown value. *)

From Stdlib Require Import ZArith QArith Lia String Ascii DecimalString DecimalZ.
From stdpp Require Import base option list.

Local Open Scope Z_scope.

(** ** JavaScript strings *)

Module JS.

Abbreviation jsstring := (list Z).

(** An ASCII literal as a JavaScript string. *)
Fixpoint js (s : string) : jsstring :=
  match s with
  | EmptyString => []
  | String a s' => Z.of_N (N_of_ascii a) :: js s'
  end.

Definition LF : Z := 10.            (* U+000A, the line break of a template literal *)
Definition FULL_STOP : Z := 46.     (* U+002E *)
Definition MIDDLE_DOT : Z := 183.   (* U+00B7 *)
Definition ELLIPSIS : Z := 8230.    (* U+2026 *)
Definition SPACE : Z := 32.         (* U+0020 *)

(** The code units matched by the regular expression class [\s]:
    the WhiteSpace and LineTerminator productions of ECMAScript. *)
Definition is_space (c : Z) : bool :=
  ((9 <=? c) && (c <=? 13))
  || (c =? 32) || (c =? 160) || (c =? 5760)
  || ((8192 <=? c) && (c <=? 8202))
  || (c =? 8232) || (c =? 8233) || (c =? 8239) || (c =? 8287)
  || (c =? 12288) || (c =? 65279).

(** [Number.prototype.toString] on an integer (of magnitude below 10^21,
    where JavaScript still prints plain decimal digits). *)
Definition number_to_string (n : Z) : jsstring :=
  js (NilZero.string_of_int (Z.to_int n)).

(** [`${v}`] for a value that may be [undefined]. *)
Definition template (v : option jsstring) : jsstring :=
  match v with
  | Some s => s
  | None => js "undefined"
  end.

(** [arr[i]] for a numeric index: [undefined] outside the array. *)
Definition array_get {A} (arr : list A) (i : Z) : option A :=
  if i <? 0 then None else arr !! Z.to_nat i.

(** [Array.prototype.join] on an array of strings. *)
Fixpoint join (sep : jsstring) (parts : list jsstring) : jsstring :=
  match parts with
  | [] => []
  | [p] => p
  | p :: rest => p ++ sep ++ join sep rest
  end.

(** [arr.slice(0, e)] for an integer [e]: a negative [e] counts from the
    end of the array. *)
Definition slice0 {A} (e : Z) (arr : list A) : list A :=
  let len := Z.of_nat (length arr) in
  take (Z.to_nat (if e <? 0 then Z.max (len + e) 0 else Z.min e len)) arr.

(** The longest suffix of [s] that does not start with a code unit
    satisfying [p]. *)
Fixpoint drop_while (p : Z -> bool) (s : jsstring) : jsstring :=
  match s with
  | c :: s' => if p c then drop_while p s' else s
  | [] => []
  end.

(** Strip the trailing run of code units satisfying [p]: what replacing
    the match of [/[...]+$/] by the empty string does for a character class. *)
Definition strip_trailing (p : Z -> bool) (s : jsstring) : jsstring :=
  reverse (drop_while p (reverse s)).

(** [s.trim()]: strip the white space and line terminators of both ends. *)
Definition trim (s : jsstring) : jsstring :=
  strip_trailing is_space (drop_while is_space s).

(** A JavaScript string in a boolean position: the empty string is falsy. *)
Definition truthy (s : jsstring) : bool :=
  match s with
  | [] => false
  | _ :: _ => true
  end.

End JS.

Import JS.

(** ** The feed route: [GET] of [route.ts] *)

Module Feed.

(** A post of the listing as the route reads it. The type of the source
    declares every field present; the route still guards against a missing
    post, a missing [id], and missing counters, so those are optional. The
    other fields have their declared types, [created_utc] being a whole
    number of seconds, as the feed has it, of any size. *)
Record RedditPost := {
  id : option jsstring;
  title : jsstring;
  selftext : jsstring;
  author : jsstring;
  created_utc : Z;
  permalink : jsstring;
  stickied : bool;
  over_18 : bool;
  num_comments : option Z;
  upvote_ratio : option Q
}.

Record child := { data : option RedditPost }.

Record stats := { comments : Z; upvoteRatio : Q }.

(** [postedAt] holds the instant in epoch milliseconds that the ISO text
    of the source spells. *)
Record IndiaUpdate := {
  update_id : jsstring;
  update_title : jsstring;
  summary : jsstring;
  url : jsstring;
  update_author : jsstring;
  postedAt : Z;
  update_stats : stats
}.

Definition ITEMS_LIMIT : Z := 10.
Definition SUMMARY_CAP : Z := 600.

(** [Boolean(post?.id)] *)
Definition has_id (post : option RedditPost) : bool :=
  match post with
  | Some p => match id p with Some i => truthy i | None => false end
  | None => false
  end.

(** [!post.stickied && !post.over_18]; reading a flag of a missing post
    cannot happen after the first filter. *)
Definition unflagged (post : option RedditPost) : bool :=
  match post with
  | Some p => negb (stickied p) && negb (over_18 p)
  | None => false
  end.

(** [title.replace(/\.$/, ...)] with an empty replacement: one full stop
    at the very end of the title is removed. *)
Definition strip_final_full_stop (s : jsstring) : jsstring :=
  match reverse s with
  | c :: r => if c =? FULL_STOP then reverse r else s
  | [] => s
  end.

Definition summarySource (p : RedditPost) : jsstring := trim (selftext p).

Definition fallback_summary (p : RedditPost) : jsstring :=
  js "Stay informed: " ++ strip_final_full_stop (title p)
  ++ js ". For the full context, visit the linked article.".

(** [summarySource || `Stay informed: ...`] *)
Definition derived_summary (p : RedditPost) : jsstring :=
  if truthy (summarySource p) then summarySource p else fallback_summary p.

(** [summary.length > 600 ? `${summary.slice(0, 597)}...` : summary] *)
Definition cap_summary (s : jsstring) : jsstring :=
  if SUMMARY_CAP <? Z.of_nat (length s)
  then slice0 597 s ++ js "..."
  else s.

(** [new Date(ms).toISOString()]. A [Date] holds an instant at most
    8.64e15 ms from the epoch; made of any other number it holds none, and
    [toISOString] then throws a RangeError, which is [None] here. The
    product [created_utc * 1000] of the doubles is exact up to that bound
    and stays beyond it when it is rounded. *)
Definition MAX_TIME : Z := 8640000000000000.

Definition toISOString (ms : Z) : option Z :=
  if Z.abs ms <=? MAX_TIME then Some ms else None.

(** The callback of the last [map]: the item of a post, or [None] when
    the callback throws, which on a post of the declared type only the
    date can make it do. *)
Definition to_update (p : RedditPost) : option IndiaUpdate :=
  match toISOString (created_utc p * 1000) with
  | Some instant =>
      Some {| update_id := default [] (id p);    (* present on every survivor *)
              update_title := title p;
              summary := cap_summary (derived_summary p);
              url := js "https://www.reddit.com" ++ permalink p;
              update_author := author p;
              postedAt := instant;
              update_stats :=
                {| comments := default 0 (num_comments p);
                   upvoteRatio := default 0%Q (upvote_ratio p) |} |}
  | None => None
  end.

(** The chain [.map(item => item.data).filter(..).filter(..).slice(0, ITEMS_LIMIT).map(..)].
    What passes the first filter is a post, so [omap] only drops the
    option around it. *)
Definition survivors (posts : list child) : list RedditPost :=
  omap (fun p => p)
    (slice0 ITEMS_LIMIT
       (List.filter unflagged (List.filter has_id (List.map data posts)))).

(** The items of the route: the callback applied to the survivors in
    order, and no items at all once it has thrown. *)
Definition normalize (posts : list child) : option (list IndiaUpdate) :=
  mapM to_update (survivors posts).

(** The contract in the specification's words, read off the fields of a
    record: it is eligible when it has an identifier, which an empty text
    is not, and is neither pinned nor adult. *)
Definition identified (p : RedditPost) : bool :=
  match id p with
  | Some (_ :: _) => true
  | Some [] | None => false
  end.

Definition eligible (p : RedditPost) : bool :=
  identified p && negb (stickied p) && negb (over_18 p).

Definition records (posts : list child) : list RedditPost := omap data posts.

Definition pinned (c : child) : bool :=
  match data c with Some p => stickied p | None => false end.

Definition adult_not_pinned (c : child) : bool :=
  match data c with Some p => over_18 p && negb (stickied p) | None => false end.

(** A feed to try the normalizer on: twelve identified records, the
    second and the fifth pinned, the ninth adult. *)
Definition sample_post (n : Z) (is_pinned is_adult : bool) : child :=
  {| data := Some
       {| id := Some (js "t3_" ++ number_to_string n);
          title := js "Headline " ++ number_to_string n;
          selftext := [];
          author := js "reporter";
          created_utc := 1700000000 + n;
          permalink := js "/r/india/comments/" ++ number_to_string n;
          stickied := is_pinned;
          over_18 := is_adult;
          num_comments := Some n;
          upvote_ratio := None |} |}.

Definition sample_feed : list child :=
  [sample_post 1 false false; sample_post 2 true false; sample_post 3 false false;
   sample_post 4 false false; sample_post 5 true false; sample_post 6 false false;
   sample_post 7 false false; sample_post 8 false false; sample_post 9 false true;
   sample_post 10 false false; sample_post 11 false false; sample_post 12 false false].

(** The same feed with three records that carry no identifier in it: a
    child without a post, a post without an [id], and one whose [id] is
    the empty text. *)
Definition anonymous_post (identifier : option jsstring) : child :=
  {| data := Some
       {| id := identifier;
          title := js "Untitled";
          selftext := [];
          author := js "reporter";
          created_utc := 1700000000;
          permalink := js "/r/india/comments/0";
          stickied := false;
          over_18 := false;
          num_comments := None;
          upvote_ratio := None |} |}.

Definition gapped_feed : list child :=
  {| data := None |} :: take 4 sample_feed
  ++ anonymous_post None :: drop 4 sample_feed ++ [anonymous_post (Some [])].

(** A feed whose third record carries a date that no [Date] holds. *)
Definition undated_post : child :=
  {| data := Some
       {| id := Some (js "t3_far");
          title := js "Far future";
          selftext := [];
          author := js "reporter";
          created_utc := 10000000000000;
          permalink := js "/r/india/comments/far";
          stickied := false;
          over_18 := false;
          num_comments := None;
          upvote_ratio := None |} |}.

Definition undated_feed : list child :=
  take 2 sample_feed ++ undated_post :: drop 2 sample_feed.

(** The listing and the upstream answer. The payload is what
    [response.json()] yields, read only when the response is [ok]: [None]
    when the body is no JSON, or is [null], so that reading it throws. *)
Record listing := { listing_data : option (list child) }.

Inductive upstream :=
  | Unreachable
  | Answer (ok : bool) (status : Z) (payload : option listing).

Inductive reply :=
  | Items (items : list IndiaUpdate)
  | Error (message : jsstring) (status : Z).

(** [NextResponse.json(body, { status })] makes a [Response] with a body:
    a status outside 200 to 599 is a RangeError, and a status that allows
    no body (204, 205 or 304 among those) a TypeError. *)
Definition takes_body (status : Z) : bool :=
  (200 <=? status) && (status <=? 599)
  && negb ((status =? 204) || (status =? 205) || (status =? 304)).

(** The answer of the [catch] block. *)
Definition unexpected : reply :=
  Error (js "Unexpected error while fetching updates.") 500.

Definition GET (r : upstream) : reply :=
  match r with
  | Unreachable => unexpected
  | Answer false status _ =>
      if takes_body status
      then Error (js "Failed to fetch India updates.") status
      else unexpected
  | Answer true _ None => unexpected
  | Answer true _ (Some payload) =>
      match normalize (default [] (listing_data payload)) with
      | Some items => Items items
      | None => unexpected
      end
  end.

End Feed.

(** ** The duration planner: [totalDuration] and the head of [handleGenerateVideo] *)

Module Planner.

Definition MIN_VIDEO_DURATION_SECONDS : Z := 240.
Definition FALLBACK_SLIDE_DURATION : Z := 40.

(** [Math.ceil(a / b)] for integers [a >= 0] and [b > 0]. The quotient of
    the doubles is exact when [b] divides [a] and lies strictly between
    two integers otherwise, so the ceiling is the integer one. *)
Definition ceil_div (a b : Z) : Z := - ((- a) / b).

(** [perSlideDuration] and [finalDuration] of [handleGenerateVideo], for
    [itemCount = updates.length >= 1] (the handler returns early at 0). *)
Definition perSlideDuration (itemCount : Z) : Z :=
  Z.max (ceil_div MIN_VIDEO_DURATION_SECONDS itemCount) FALLBACK_SLIDE_DURATION.

Definition finalDuration (itemCount : Z) : Z :=
  perSlideDuration itemCount * itemCount.

(** The memoised [totalDuration] of the page. *)
Definition totalDuration (itemCount : Z) : Z :=
  if itemCount =? 0 then 0
  else
    let perSlide :=
      Z.max (ceil_div MIN_VIDEO_DURATION_SECONDS itemCount) FALLBACK_SLIDE_DURATION in
    perSlide * itemCount.

End Planner.

(** ** The concatenation manifest: [buildConcatScript] *)

Module Manifest.

Definition buildConcatScript (slideNames : list jsstring) (durationSeconds : Z) : jsstring :=
  let body :=
    join [LF]
      (List.map
         (fun name =>
            js "file '" ++ name ++ js "'" ++ [LF]
            ++ js "duration " ++ number_to_string durationSeconds)
         slideNames) in
  let last := array_get slideNames (Z.of_nat (length slideNames) - 1) in
  body ++ [LF] ++ js "file '" ++ template last ++ js "'".

(** The manifest as the specification describes it: a sequence of
    directives, one per line. *)
Inductive directive :=
  | File (name : jsstring)
  | Duration (seconds : Z).

Definition render (d : directive) : jsstring :=
  match d with
  | File name => js "file '" ++ name ++ js "'"
  | Duration seconds => js "duration " ++ number_to_string seconds
  end.

Definition is_file (d : directive) : bool :=
  match d with File _ => true | Duration _ => false end.

Definition is_duration (d : directive) : bool :=
  match d with File _ => false | Duration _ => true end.

(** For each slide a [file] then a [duration]; then the final slide's
    [file] once more. *)
Definition directives (slideNames : list jsstring) (durationSeconds : Z) : list directive :=
  flat_map (fun name => [File name; Duration durationSeconds]) slideNames
  ++ [File (List.last slideNames [])].

(** Reading a manifest back: its lines, and the lines that open with a
    given keyword. *)
Fixpoint split_lines (text : jsstring) : list jsstring :=
  match text with
  | [] => [[]]
  | c :: text' =>
      if c =? LF then [] :: split_lines text'
      else
        match split_lines text' with
        | l :: ls => (c :: l) :: ls
        | [] => [[c]]
        end
  end.

Fixpoint has_prefix (prefix text : jsstring) : bool :=
  match prefix, text with
  | [], _ => true
  | p :: prefix', c :: text' => (p =? c) && has_prefix prefix' text'
  | _ :: _, [] => false
  end.

Definition lines_with (keyword : jsstring) (text : jsstring) : list jsstring :=
  List.filter (has_prefix keyword) (split_lines text).

End Manifest.

(** ** The silent track: [generateSilenceWav] and [writeString] *)

Module Wav.

(** An [ArrayBuffer] is the list of its bytes. [new ArrayBuffer(n)] is
    zero-filled and throws a [RangeError] outside [0 .. 2^53 - 1]. The host
    is taken to have the memory: one that has not throws the same error
    for a length within the range, so what is said of a buffer that is
    returned holds of every host, and what is said of one being returned
    of a host that can hold it. *)
Definition new_ArrayBuffer (byteLength : Z) : option (list Z) :=
  if (0 <=? byteLength) && (byteLength <=? 2 ^ 53 - 1)
  then Some (replicate (Z.to_nat byteLength) 0)
  else None.

(** The [n] low bytes of [v], least significant first. *)
Fixpoint le_bytes (n : nat) (v : Z) : list Z :=
  match n with
  | O => []
  | S n' => v mod 256 :: le_bytes n' (v / 256)
  end.

(** Write [bs] into the buffer from [offset] on. *)
Fixpoint store (view : list Z) (offset : nat) (bs : list Z) : list Z :=
  match bs with
  | [] => view
  | b :: bs' => store (<[offset := b]> view) (S offset) bs'
  end.

(** [DataView.prototype.setUint8/16/32]: the value is reduced modulo
    [2^(8*width)]; a write that does not fit the view throws a [RangeError]. *)
Definition setUint (width : nat) (view : list Z) (offset : nat) (value : Z)
    (littleEndian : bool) : option (list Z) :=
  if (offset + width <=? length view)%nat
  then
    let bs := le_bytes width (value mod 2 ^ (8 * Z.of_nat width)) in
    Some (store view offset (if littleEndian then bs else reverse bs))
  else None.

Definition setUint8 (view : list Z) (offset : nat) (value : Z) : option (list Z) :=
  setUint 1 view offset value false.
Definition setUint16 := setUint 2.
Definition setUint32 := setUint 4.

(** [writeString]: one [setUint8] per code unit, at [offset + i]. *)
Fixpoint writeString (view : list Z) (offset : nat) (value : jsstring) : option (list Z) :=
  match value with
  | [] => Some view
  | c :: value' =>
      view' ← setUint8 view offset c;
      writeString view' (S offset) value'
  end.

Definition sampleRate : Z := 44100.
Definition channels : Z := 1.
Definition bytesPerSample : Z := 2.

Definition dataLength (durationSeconds : Z) : Z :=
  let totalSamples := durationSeconds * sampleRate in
  totalSamples * bytesPerSample * channels.

Definition generateSilenceWav (durationSeconds : Z) : option (list Z) :=
  let dataLength := dataLength durationSeconds in
  buffer ← new_ArrayBuffer (44 + dataLength);
  view ← writeString buffer 0 (js "RIFF");
  view ← setUint32 view 4 (36 + dataLength) true;
  view ← writeString view 8 (js "WAVE");
  view ← writeString view 12 (js "fmt ");
  view ← setUint32 view 16 16 true;
  view ← setUint16 view 20 1 true;
  view ← setUint16 view 22 channels true;
  view ← setUint32 view 24 sampleRate true;
  view ← setUint32 view 28 (sampleRate * channels * bytesPerSample) true;
  view ← setUint16 view 32 (channels * bytesPerSample) true;
  view ← setUint16 view 34 (bytesPerSample * 8) true;
  view ← writeString view 36 (js "data");
  view ← setUint32 view 40 dataLength true;
  Some view.

(** Reading the header back: the unsigned little-endian value of the
    [width] bytes at [offset]. *)
Definition le_value (bs : list Z) : Z :=
  foldr (fun b acc => b + 256 * acc) 0 bs.

Definition field (width offset : nat) (buffer : list Z) : Z :=
  le_value (take width (drop offset buffer)).

(** The 44 header bytes of a track whose length fields hold [riff] and [data]. *)
Definition header (riff data : Z) : list Z :=
  js "RIFF" ++ le_bytes 4 riff ++ js "WAVE" ++ js "fmt "
  ++ le_bytes 4 16 ++ le_bytes 2 1 ++ le_bytes 2 1
  ++ le_bytes 4 44100 ++ le_bytes 4 88200 ++ le_bytes 2 2 ++ le_bytes 2 16
  ++ js "data" ++ le_bytes 4 data.

End Wav.

(** ** The word wrap: [drawWrappedText] *)

Module Wrap.

(** [text.split(/\s+/)]: the pieces between maximal runs of white space;
    a run at either end leaves an empty piece there. [in_run] tells that
    the previous code unit was white space. *)
Fixpoint split_from (in_run : bool) (text : jsstring) : list jsstring :=
  match text with
  | [] => [[]]
  | c :: text' =>
      if is_space c
      then (if in_run then split_from true text' else [] :: split_from true text')
      else
        match split_from false text' with
        | w :: ws => (c :: w) :: ws
        | [] => [[c]]
        end
  end.

Definition split_ws (text : jsstring) : list jsstring := split_from false text.

(** The class [[.·]] of the truncation's regular expression. *)
Definition is_dot (c : Z) : bool := (c =? FULL_STOP) || (c =? MIDDLE_DOT).

Section WithSurface.

(** The text measurement of the rendering surface: the [width] of
    [context.measureText(s)], a finite double and hence a rational. *)
Variable measureText : jsstring -> Q.

(** [width > maxWidth] *)
Definition wider (width maxWidth : Q) : bool := negb (Qle_bool width maxWidth).

(** The [for (const word of words)] loop, on the pair of [lines] and
    [currentLine]. *)
Fixpoint wrap_loop (maxWidth : Q) (words : list jsstring)
    (lines : list jsstring) (currentLine : jsstring) : list jsstring * jsstring :=
  match words with
  | [] => (lines, currentLine)
  | word :: rest =>
      let testLine :=
        if truthy currentLine then currentLine ++ [SPACE] ++ word else word in
      let width := measureText testLine in
      if wider width maxWidth && truthy currentLine
      then wrap_loop maxWidth rest (lines ++ [currentLine]) word
      else wrap_loop maxWidth rest lines testLine
  end.

(** The loop and the final push of a non-empty [currentLine]. *)
Definition wrap_words (maxWidth : Q) (words : list jsstring) : list jsstring :=
  let '(lines, currentLine) := wrap_loop maxWidth words [] [] in
  if truthy currentLine then lines ++ [currentLine] else lines.

Definition wrap (maxWidth : Q) (text : jsstring) : list jsstring :=
  wrap_words maxWidth (split_ws text).

(** The truncation. Reading the last element of an empty [truncated]
    yields [undefined], on which [.replace] throws a [TypeError]. *)
Definition truncate (maxLines : Z) (lines : list jsstring) : option (list jsstring) :=
  if maxLines <? Z.of_nat (length lines)
  then
    let truncated := slice0 maxLines lines in
    let k := Z.of_nat (length truncated) - 1 in
    last ← array_get truncated k;
    Some (<[Z.to_nat k := strip_trailing is_dot last ++ [ELLIPSIS]]> truncated)
  else Some lines.

(** One [context.fillText(line, x, y)]. *)
Record fillText := { line : jsstring; at_x : Z; at_y : Z }.

(** [truncated.forEach((line, index) => fillText(line, x, y + index * lineHeight))] *)
Definition draw_lines (x y lineHeight : Z) (lines : list jsstring) : list fillText :=
  imap (fun index line =>
          {| line := line; at_x := x; at_y := y + Z.of_nat index * lineHeight |})
       lines.

(** [drawWrappedText]: the calls of [fillText] it makes, in order, and
    the value it returns. *)
Definition drawWrappedText (text : jsstring) (x y : Z) (maxWidth : Q)
    (lineHeight maxLines : Z) : option (list fillText * Z) :=
  truncated ← truncate maxLines (wrap maxWidth text);
  Some (draw_lines x y lineHeight truncated,
        y + Z.of_nat (length truncated) * lineHeight).

End WithSurface.

(** Vocabulary for the properties of the wrap. A line is a group of
    words joined by single spaces. *)
Definition line_of (group : list jsstring) : jsstring := join [SPACE] group.

(** The measurement never shrinks when a line grows by a word at either end. *)
Definition monotone (measureText : jsstring -> Q) : Prop :=
  forall a b : jsstring,
    (measureText a <= measureText (a ++ [SPACE] ++ b))%Q
    /\ (measureText b <= measureText (a ++ [SPACE] ++ b))%Q.

(** A word wider than the line is the only word of its group. *)
Definition alone_if_wide (measureText : jsstring -> Q) (maxWidth : Q)
    (group : list jsstring) : Prop :=
  forall word : jsstring,
    In word group -> wider (measureText word) maxWidth = true -> group = [word].

Definition ends_with (c : Z) (s : jsstring) : bool :=
  match reverse s with
  | a :: _ => a =? c
  | [] => false
  end.

(** [s] ends with [c], and with one [c] only. *)
Definition ends_with_single (c : Z) (s : jsstring) : bool :=
  match reverse s with
  | a :: b :: _ => (a =? c) && negb (b =? c)
  | [a] => a =? c
  | [] => false
  end.

(** A surface on which every code unit is one pixel wide, and two
    texts to wrap on it. *)
Definition code_units (s : jsstring) : Q := inject_Z (Z.of_nat (length s)).

Definition toss_report : jsstring :=
  js "India wins the toss. And elects to bat first".

Definition breaking_news : jsstring :=
  js "Breaking" ++ [ELLIPSIS] ++ js " more news follows".

(** A measurement that is not monotone: it finds one long word wide and
    every other text narrow. *)
Definition only_word_is_wide (word : jsstring) (s : jsstring) : Q :=
  if decide (s = word) then 100%Q else 0%Q.

End Wrap.

(** ** The orchestrator: [ensureFFmpeg], [handleGenerateVideo] and the
    effect that releases the video handle *)

Module Orchestrator.

Import Feed.

(** The component's state: the [useState] cells and the two refs. *)
Record state := {
  updates : list IndiaUpdate;
  loadingUpdates : bool;
  error : option jsstring;
  narration : jsstring;
  isGenerating : bool;
  videoUrl : option jsstring;
  videoDuration : option Z;
  logs : list jsstring;
  ffmpegRef : bool;        (* [ffmpegRef.current] holds a loaded instance *)
  isMountedRef : bool
}.

Definition setError (v : option jsstring) (s : state) : state :=
  {| updates := updates s; loadingUpdates := loadingUpdates s; error := v;
     narration := narration s; isGenerating := isGenerating s;
     videoUrl := videoUrl s; videoDuration := videoDuration s; logs := logs s;
     ffmpegRef := ffmpegRef s; isMountedRef := isMountedRef s |}.

Definition setIsGenerating (v : bool) (s : state) : state :=
  {| updates := updates s; loadingUpdates := loadingUpdates s; error := error s;
     narration := narration s; isGenerating := v;
     videoUrl := videoUrl s; videoDuration := videoDuration s; logs := logs s;
     ffmpegRef := ffmpegRef s; isMountedRef := isMountedRef s |}.

Definition setVideoUrl (v : option jsstring) (s : state) : state :=
  {| updates := updates s; loadingUpdates := loadingUpdates s; error := error s;
     narration := narration s; isGenerating := isGenerating s;
     videoUrl := v; videoDuration := videoDuration s; logs := logs s;
     ffmpegRef := ffmpegRef s; isMountedRef := isMountedRef s |}.

Definition setVideoDuration (v : option Z) (s : state) : state :=
  {| updates := updates s; loadingUpdates := loadingUpdates s; error := error s;
     narration := narration s; isGenerating := isGenerating s;
     videoUrl := videoUrl s; videoDuration := v; logs := logs s;
     ffmpegRef := ffmpegRef s; isMountedRef := isMountedRef s |}.

Definition setLogs (f : list jsstring -> list jsstring) (s : state) : state :=
  {| updates := updates s; loadingUpdates := loadingUpdates s; error := error s;
     narration := narration s; isGenerating := isGenerating s;
     videoUrl := videoUrl s; videoDuration := videoDuration s; logs := f (logs s);
     ffmpegRef := ffmpegRef s; isMountedRef := isMountedRef s |}.

Definition set_ffmpegRef (v : bool) (s : state) : state :=
  {| updates := updates s; loadingUpdates := loadingUpdates s; error := error s;
     narration := narration s; isGenerating := isGenerating s;
     videoUrl := videoUrl s; videoDuration := videoDuration s; logs := logs s;
     ffmpegRef := v; isMountedRef := isMountedRef s |}.

Definition set_isMountedRef (v : bool) (s : state) : state :=
  {| updates := updates s; loadingUpdates := loadingUpdates s; error := error s;
     narration := narration s; isGenerating := isGenerating s;
     videoUrl := videoUrl s; videoDuration := videoDuration s; logs := logs s;
     ffmpegRef := ffmpegRef s; isMountedRef := v |}.

(** What a collaborator may throw, and what a call yields. *)
Inductive thrown :=
  | ErrorObject (message : jsstring)
  | OtherValue.

Inductive result (A : Type) :=
  | Ok (a : A)
  | Throw (t : thrown).
Arguments Ok {A} a.
Arguments Throw {A} t.

(** The collaborators of a run: the encoder library, its in-memory file
    system, the slide renderer over the canvas, and the URL registry.
    [load] and [run] also yield the lines the encoder logs meanwhile. *)
Record collaborators := {
  load : list jsstring * result unit;
  renderSlide : IndiaUpdate -> nat -> nat -> result (list Z);
  FS_writeFile : jsstring -> list Z -> result unit;
  run : list jsstring -> list jsstring * result unit;
  FS_readFile : jsstring -> result (list Z);
  createObjectURL : list Z -> result jsstring;
  RangeError_message : jsstring   (* the host's text for a failed allocation *)
}.

(** The calls a run makes on its collaborators, in order, and among them
    its call of [setVideoUrl], by which it publishes the new video. *)
Inductive event :=
  | Load
  | RenderSlide (index : nat)
  | WriteFile (name : jsstring) (data : list Z)
  | Run (args : list jsstring)
  | ReadFile (name : jsstring)
  | CreateObjectURL (data : list Z)
  | RevokeObjectURL (url : jsstring)
  | SetVideoUrl (url : jsstring).

(** Computations over the state that record their calls and may throw. *)
Definition M (A : Type) : Type := state -> state * list event * result A.

Definition ret {A} (a : A) : M A := fun s => (s, [], Ok a).

Definition bind {A B} (m : M A) (k : A -> M B) : M B :=
  fun s =>
    match m s with
    | (s1, tr1, Ok a) =>
        match k a s1 with
        | (s2, tr2, r) => (s2, tr1 ++ tr2, r)
        end
    | (s1, tr1, Throw t) => (s1, tr1, Throw t)
    end.

Notation "'let*' x ':=' m 'in' k" := (bind m (fun x => k))
  (at level 10, x name, m at level 100, k at level 200).
Notation "m1 ';;' m2" := (bind m1 (fun _ => m2))
  (at level 100, m2 at level 200, right associativity).

Definition modify (f : state -> state) : M unit := fun s => (f s, [], Ok tt).
Definition get : M state := fun s => (s, [], Ok s).
Definition call {A} (e : event) (r : result A) : M A := fun s => (s, [e], r).
Definition throw {A} (t : thrown) : M A := fun s => (s, [], Throw t).

(** [try { body } catch (err) { handler } finally { final }] where neither
    the handler nor the final block throws. *)
Definition try_catch_finally (body : M unit) (handler : thrown -> M unit)
    (final : M unit) : M unit :=
  fun s =>
    match body s with
    | (s1, tr1, Ok _) =>
        match final s1 with (s2, tr2, r) => (s2, tr1 ++ tr2, r) end
    | (s1, tr1, Throw t) =>
        match (handler t ;; final) s1 with (s2, tr2, r) => (s2, tr1 ++ tr2, r) end
    end.

(** [arr.slice(-120)] *)
Definition last_120 {A} (arr : list A) : list A := drop (length arr - 120)%nat arr.

(** The logger installed by [ensureFFmpeg], applied to the lines of one call. *)
Fixpoint logger (messages : list jsstring) : M unit :=
  match messages with
  | [] => ret tt
  | message :: rest =>
      let* s := get in
      (if isMountedRef s
       then modify (setLogs (fun prev => last_120 (prev ++ [message])))
       else ret tt) ;;
      logger rest
  end.

Definition ensureFFmpeg (env : collaborators) : M unit :=
  let* s := get in
  if ffmpegRef s then ret tt
  else
    logger (fst (load env)) ;;
    call Load (snd (load env)) ;;
    modify (set_ffmpegRef true).

(** [new TextEncoder().encode(s)]: UTF-8, a lone surrogate becoming U+FFFD. *)
Fixpoint encode (s : jsstring) : list Z :=
  match s with
  | [] => []
  | c :: s' =>
      if c <? 128 then c :: encode s'
      else if c <? 2048 then [192 + c / 64; 128 + c mod 64] ++ encode s'
      else if (55296 <=? c) && (c <=? 56319) then
        match s' with
        | d :: s'' =>
            if (56320 <=? d) && (d <=? 57343) then
              let u := 65536 + (c - 55296) * 1024 + (d - 56320) in
              [240 + u / 262144; 128 + (u / 4096) mod 64;
               128 + (u / 64) mod 64; 128 + u mod 64] ++ encode s''
            else [239; 191; 189] ++ encode s'
        | [] => [239; 191; 189]
        end
      else if (56320 <=? c) && (c <=? 57343) then [239; 191; 189] ++ encode s'
      else [224 + c / 4096; 128 + (c / 64) mod 64; 128 + c mod 64] ++ encode s'
  end.

(** The slide loop: render, write, remember the name. *)
Fixpoint render_slides (env : collaborators) (total : nat)
    (items : list IndiaUpdate) (index : nat) (slideNames : list jsstring)
    : M (list jsstring) :=
  match items with
  | [] => ret slideNames
  | update :: rest =>
      let slideName := js "slide-" ++ number_to_string (Z.of_nat index) ++ js ".png" in
      let* slideData := call (RenderSlide index) (renderSlide env update index total) in
      call (WriteFile slideName slideData) (FS_writeFile env slideName slideData) ;;
      render_slides env total rest (S index) (slideNames ++ [slideName])
  end.

Definition encoder_args : list jsstring :=
  List.map js
    ["-f"; "concat"; "-safe"; "0"; "-i"; "slides.txt"; "-i"; "silence.wav";
     "-shortest"; "-r"; "30"; "-c:v"; "libx264"; "-pix_fmt"; "yuv420p";
     "-c:a"; "aac"; "-b:a"; "128k"; "output.mp4"]%string.

(** [if (videoUrl) { URL.revokeObjectURL(videoUrl); }] *)
Definition revoke_if_set (url : option jsstring) : M unit :=
  match url with
  | Some u => if truthy u then call (RevokeObjectURL u) (Ok tt) else ret tt
  | None => ret tt
  end.

(** [setVideoUrl(url)]: the state change, and its place among the calls. *)
Definition publish (url : jsstring) : M unit :=
  call (SetVideoUrl url) (Ok tt) ;;
  modify (setVideoUrl (Some url)).

(** The body of the [try]. [closure] is the render whose [updates] and
    [videoUrl] the handler closed over. *)
Definition generation (env : collaborators) (closure : state) : M unit :=
  let itemCount := length (updates closure) in
  ensureFFmpeg env ;;
  let perSlideDuration := Planner.perSlideDuration (Z.of_nat itemCount) in
  let finalDuration := perSlideDuration * Z.of_nat itemCount in
  let* slideNames := render_slides env itemCount (updates closure) 0 [] in
  let concatScript := Manifest.buildConcatScript slideNames perSlideDuration in
  call (WriteFile (js "slides.txt") (encode concatScript))
       (FS_writeFile env (js "slides.txt") (encode concatScript)) ;;
  let* silence :=
    match Wav.generateSilenceWav finalDuration with
    | Some buffer => ret buffer
    | None => throw (ErrorObject (RangeError_message env))
    end in
  call (WriteFile (js "silence.wav") silence)
       (FS_writeFile env (js "silence.wav") silence) ;;
  logger (fst (run env encoder_args)) ;;
  call (Run encoder_args) (snd (run env encoder_args)) ;;
  let* data := call (ReadFile (js "output.mp4")) (FS_readFile env (js "output.mp4")) in
  let* url := call (CreateObjectURL data) (createObjectURL env data) in
  revoke_if_set (videoUrl closure) ;;
  publish url ;;
  modify (setVideoDuration (Some finalDuration)).

Definition error_message (err : thrown) : jsstring :=
  match err with
  | ErrorObject message => message
  | OtherValue => js "Something went wrong while generating the video."
  end.

Definition handleGenerateVideo (env : collaborators) (closure : state) : M unit :=
  if (length (updates closure) =? 0)%nat
  then modify (setError (Some (js "Fetch the latest India updates before generating a video.")))
  else
    modify (setIsGenerating true) ;;
    modify (setError None) ;;
    modify (setLogs (fun _ => [])) ;;
    try_catch_finally
      (generation env closure)
      (fun err => modify (setError (Some (error_message err))))
      (let* s := get in
       if isMountedRef s then modify (setIsGenerating false) else ret tt).

(** The cleanup of the effect keyed on [videoUrl]: React runs it, with
    the [videoUrl] of the render that installed it, when a later render
    sees another [videoUrl]. *)
Definition videoUrl_cleanup (installed : option jsstring) : M unit :=
  modify (set_isMountedRef false) ;;
  revoke_if_set installed.

(** One generation request on the rendered state [s]: the handler, whose
    state changes after the last [await] React applies together, then the
    render that follows them. *)
Definition request (env : collaborators) (s : state) : state * list event :=
  match handleGenerateVideo env s s with
  | (s1, tr1, _) =>
      if decide (videoUrl s1 = videoUrl s) then (s1, tr1)
      else
        match videoUrl_cleanup (videoUrl s) s1 with
        | (s2, tr2, _) => (s2, tr1 ++ tr2)
        end
  end.

(** Vocabulary for the properties of a run. *)
Definition is_revoke (e : event) : bool :=
  match e with RevokeObjectURL _ => true | _ => false end.

Definition is_run (e : event) : bool :=
  match e with Run _ => true | _ => false end.

Definition is_create (e : event) : bool :=
  match e with CreateObjectURL _ => true | _ => false end.

Definition is_render (e : event) : bool :=
  match e with RenderSlide _ => true | _ => false end.

Definition is_publish (e : event) : bool :=
  match e with SetVideoUrl _ => true | _ => false end.

(** The calls of [revoke_if_set]. *)
Definition revocations (url : option jsstring) : list event :=
  match url with
  | Some u => if truthy u then [RevokeObjectURL u] else []
  | None => []
  end.

(** The calls by which a successful request ends: the release of the
    video that was on offer, the publication of the new one, and the
    release that the effect's cleanup repeats when the video on offer has
    changed. *)
Definition closing_calls (old : option jsstring) (url : jsstring) : list event :=
  revocations old
  ++ SetVideoUrl url
     :: (if decide (Some url = old) then [] else revocations old).

(** What a stage leaves alone: the video on offer and the error text. *)
Definition kept (s s' : state) : Prop :=
  videoUrl s' = videoUrl s /\ videoDuration s' = videoDuration s /\ error s' = error s.

(** A stage that keeps the video, and neither revokes nor publishes,
    however it ends. *)
Definition quiet {A} (m : M A) : Prop :=
  forall s s' tr r, m s = (s', tr, r) ->
    kept s s' /\ Forall (fun e => is_revoke e = false /\ is_publish e = false) tr.

(** A stage after whose normal end an event satisfying [p] has happened. *)
Definition reaches {A} (p : event -> bool) (m : M A) : Prop :=
  forall s s' tr a, m s = (s', tr, Ok a) -> Exists (fun e => p e = true) tr.

(** A stage that either throws, having kept the video, revoked and
    published nothing, or ends by publishing a new video of [final]
    seconds as its last call, its only revocations being those of the
    closure's [videoUrl], made just before. *)
Definition settles (closure : state) (final : Z) (m : M unit) : Prop :=
  forall s s' tr r, m s = (s', tr, r) ->
    match r with
    | Throw _ =>
        kept s s' /\ Forall (fun e => is_revoke e = false /\ is_publish e = false) tr
    | Ok _ =>
        exists (pre : list event) (url : jsstring),
          tr = pre ++ revocations (videoUrl closure) ++ [SetVideoUrl url]
          /\ Forall (fun e => is_revoke e = false /\ is_publish e = false) pre
          /\ videoUrl s' = Some url
          /\ videoDuration s' = Some final
          /\ error s' = error s
    end.

(** The [finally] block, as a function of the state. *)
Definition finish (s : state) : state :=
  if isMountedRef s then setIsGenerating false s else s.

(** The state in which the [try] block starts. *)
Definition started (s : state) : state :=
  setLogs (fun _ => []) (setError None (setIsGenerating true s)).

Definition precondition_message : jsstring :=
  js "Fetch the latest India updates before generating a video.".

(** Collaborators and states to try a request on. *)
Definition studio : collaborators :=
  {| load := ([js "load ffmpeg-core"], Ok tt);
     renderSlide := fun _ index _ => Ok [137; 80; 78; 71; Z.of_nat index];
     FS_writeFile := fun _ _ => Ok tt;
     run := fun _ => ([js "frame= 7200 fps= 30"], Ok tt);
     FS_readFile := fun _ => Ok [0; 0; 0; 32; 102; 116; 121; 112];
     createObjectURL := fun _ => Ok (js "blob:india-pulse/2");
     RangeError_message := js "Array buffer allocation failed" |}.

Definition studio_with_failing_canvas : collaborators :=
  {| load := load studio;
     renderSlide := fun _ _ _ =>
       Throw (ErrorObject (js "Failed to initialise canvas rendering context."));
     FS_writeFile := FS_writeFile studio;
     run := run studio;
     FS_readFile := FS_readFile studio;
     createObjectURL := createObjectURL studio;
     RangeError_message := RangeError_message studio |}.

Definition idle : state :=
  {| updates := []; loadingUpdates := false; error := None; narration := [];
     isGenerating := false; videoUrl := None; videoDuration := None; logs := [];
     ffmpegRef := false; isMountedRef := true |}.

Definition headline : IndiaUpdate :=
  {| update_id := js "t3_1"; update_title := js "Monsoon arrives early";
     summary := js "Stay informed: Monsoon arrives early. For the full context, visit the linked article.";
     url := js "https://www.reddit.com/r/india/comments/1";
     update_author := js "reporter"; postedAt := 1700000000000;
     update_stats := {| comments := 12; upvoteRatio := 0%Q |} |}.

(** One story fetched, and the video of a first run on offer. The first
    change of [videoUrl] has run the effect's cleanup, which cleared
    [isMountedRef]. *)
Definition ready_with_video : state :=
  {| updates := [headline]; loadingUpdates := false; error := None; narration := [];
     isGenerating := false; videoUrl := Some (js "blob:india-pulse/1");
     videoDuration := Some 240;
     logs := [js "load ffmpeg-core"; js "frame= 7200 fps= 30"];
     ffmpegRef := true; isMountedRef := false |}.

(** What a second request in the studio does, the first video still on
    offer: the calls up to the new handle, and the state it ends in. *)
Definition silence_240 : list Z :=
  Wav.header 21168036 21168000 ++ replicate (Z.to_nat 21168000) 0.

Definition second_run_calls : list event :=
  [RenderSlide 0;
   WriteFile (js "slide-0.png") [137; 80; 78; 71; 0];
   WriteFile (js "slides.txt")
     (encode (Manifest.buildConcatScript [js "slide-0.png"] 240));
   WriteFile (js "silence.wav") silence_240;
   Run encoder_args;
   ReadFile (js "output.mp4");
   CreateObjectURL [0; 0; 0; 32; 102; 116; 121; 112]].

Definition after_second_run : state :=
  {| updates := [headline]; loadingUpdates := false; error := None; narration := [];
     isGenerating := true; videoUrl := Some (js "blob:india-pulse/2");
     videoDuration := Some 240; logs := [];
     ffmpegRef := true; isMountedRef := false |}.

End Orchestrator.

(** ** The narration: [buildNarration] *)

Module Narration.

Import Feed.

Section WithLocale.

(** [new Date(item.postedAt).toLocaleString("en-IN", {...})] with the
    options of [buildNarration]: the host's rendering of the instant. *)
Variable toLocaleString : Z -> jsstring.

(** The template of one story; [index] is the position in the array. *)
Definition paragraph (index : nat) (item : IndiaUpdate) : jsstring :=
  js "Story " ++ number_to_string (Z.of_nat index + 1) ++ js ": "
  ++ update_title item ++ js "." ++ [LF]
  ++ summary item ++ [LF]
  ++ js "Published by " ++ update_author item ++ js " on "
  ++ toLocaleString (postedAt item) ++ js ".".

Definition buildNarration (items : list IndiaUpdate) : jsstring :=
  join [LF; LF] (imap paragraph items).

End WithLocale.

(** A host that renders every instant alike. *)
Definition sample_locale (instant : Z) : jsstring :=
  js "15 November 2023 at 03:43 am".

End Narration.

(** ** The labels of the page: [formatDuration] and the duration badge *)

Module Display.

(** [s.padStart(2, "0")] *)
Definition padStart2 (s : jsstring) : jsstring :=
  if (length s <? 2)%nat then replicate (2 - length s) 48 ++ s else s.

(** [Number.MAX_SAFE_INTEGER]: up to it every integer is a number. *)
Definition MAX_SAFE_INTEGER : Z := 2 ^ 53 - 1.

(** [formatDuration], for a duration that is an integer of magnitude up to
    [MAX_SAFE_INTEGER], as the durations of a run are: [null], [0] and
    [NaN] are falsy; [Math.floor] of the quotient of the doubles is then
    the floor division, and [%] the remainder that takes the sign of the
    dividend. Beyond, the quotient of the doubles is no longer that of the
    integers, and the label is outside this definition. *)
Definition formatDuration (durationSeconds : option Z) : jsstring :=
  match durationSeconds with
  | None => js "4 min runtime"
  | Some d =>
      if d =? 0 then js "4 min runtime"
      else
        let minutes := d / 60 in
        let seconds := Z.rem d 60 in
        number_to_string minutes ++ js " min "
        ++ padStart2 (number_to_string seconds) ++ js " sec"
  end.

(** [Math.round(a / b)] for integers [a >= 0] and [b > 0]: halves go up.
    The quotient of the doubles is exact at a half and at least [1/(2b)]
    away from one otherwise. *)
Definition round_div (a b : Z) : Z := (2 * a + b) / (2 * b).

(** The badge beside the target length: shown when [totalDuration > 0],
    with [Math.round(totalDuration / 60)] and [totalDuration % 60]. *)
Definition badge_minutes (totalDuration : Z) : Z := round_div totalDuration 60.
Definition badge_seconds (totalDuration : Z) : Z := Z.rem totalDuration 60.

Definition current_cut (totalDuration : Z) : option jsstring :=
  if 0 <? totalDuration
  then Some (js "Current cut " ++ [MIDDLE_DOT] ++ js " "
             ++ number_to_string (badge_minutes totalDuration) ++ js " min "
             ++ number_to_string (badge_seconds totalDuration) ++ js " sec")
  else None.

(** Reading a label back: the text as ASCII, and the integer it spells. *)
Definition unjs (s : jsstring) : string :=
  string_of_list_ascii (List.map (fun c => ascii_of_N (Z.to_N c)) s).

Definition decimal_value (s : jsstring) : option Z :=
  option_map Z.of_int (NilZero.int_of_string (unjs s)).

(** The seconds of a label are two characters that spell the number. *)
Definition two_digits_ok (k : nat) : bool :=
  (length (padStart2 (number_to_string (Z.of_nat k))) =? 2)%nat
  && match decimal_value (padStart2 (number_to_string (Z.of_nat k))) with
     | Some v => v =? Z.of_nat k
     | None => false
     end.

End Display.

(** ** Fetching the items: [fetchUpdates] *)

Module Fetch.

Import Feed Orchestrator.

Definition setUpdates (v : list IndiaUpdate) (s : state) : state :=
  {| updates := v; loadingUpdates := loadingUpdates s; error := error s;
     narration := narration s; isGenerating := isGenerating s;
     videoUrl := videoUrl s; videoDuration := videoDuration s; logs := logs s;
     ffmpegRef := ffmpegRef s; isMountedRef := isMountedRef s |}.

Definition setNarration (v : jsstring) (s : state) : state :=
  {| updates := updates s; loadingUpdates := loadingUpdates s; error := error s;
     narration := v; isGenerating := isGenerating s;
     videoUrl := videoUrl s; videoDuration := videoDuration s; logs := logs s;
     ffmpegRef := ffmpegRef s; isMountedRef := isMountedRef s |}.

Definition setLoadingUpdates (v : bool) (s : state) : state :=
  {| updates := updates s; loadingUpdates := v; error := error s;
     narration := narration s; isGenerating := isGenerating s;
     videoUrl := videoUrl s; videoDuration := videoDuration s; logs := logs s;
     ffmpegRef := ffmpegRef s; isMountedRef := isMountedRef s |}.

(** What [fetch("/api/india-news")] and [response.json()] yield: a
    rejection, or a response with its [ok] flag and, read only when [ok],
    a payload whose [items] may be missing. Reading the payload may throw. *)
Inductive answer :=
  | Rejected (t : thrown)
  | Answered (ok : bool) (payload : result (option (list IndiaUpdate))).

Definition unable_message : jsstring := js "Unable to fetch updates right now.".
Definition no_updates_message : jsstring :=
  js "No fresh updates available. Try again shortly.".

Definition fetch_error_message (err : thrown) : jsstring :=
  match err with
  | ErrorObject message => message
  | OtherValue => js "Unexpected error while fetching updates."
  end.

(** The statements of the [try] block up to the two setters. *)
Definition fetched_items (a : answer) : M (list IndiaUpdate) :=
  match a with
  | Rejected t => throw t
  | Answered false _ => throw (ErrorObject unable_message)
  | Answered true (Throw t) => throw t
  | Answered true (Ok None) => throw (ErrorObject no_updates_message)
  | Answered true (Ok (Some items)) =>
      if (length items =? 0)%nat then throw (ErrorObject no_updates_message)
      else ret items
  end.

Section WithLocale.

Variable toLocaleString : Z -> jsstring.

Definition fetchUpdates (a : answer) : M unit :=
  modify (setLoadingUpdates true) ;;
  modify (setError None) ;;
  try_catch_finally
    (let* items := fetched_items a in
     modify (setUpdates items) ;;
     modify (setNarration (Narration.buildNarration toLocaleString items)))
    (fun err => modify (setError (Some (fetch_error_message err))))
    (modify (setLoadingUpdates false)).

End WithLocale.

(** The route's reply as the page receives it: [response.ok] holds for
    the statuses 200 to 299, and the payload of an error reply has no
    [items]. *)
Definition deliver (r : Feed.reply) : answer :=
  match r with
  | Feed.Items items => Answered true (Ok (Some items))
  | Feed.Error _ status => Answered ((200 <=? status) && (status <=? 299)) (Ok None)
  end.

(** An upstream answer is well formed when its [ok] flag tells whether
    its status is one of 200 to 299. *)
Definition well_formed (r : Feed.upstream) : Prop :=
  match r with
  | Feed.Unreachable => True
  | Feed.Answer ok status _ => ok = ((200 <=? status) && (status <=? 299))
  end.

End Fetch.

(** ** The groups of words behind the lines of the wrap *)

Module Greedy.

Import Wrap.

Section WithSurface.

Variable measureText : jsstring -> Q.
Variable maxWidth : Q.

(** The loop of [drawWrappedText] with each line kept as the list of the
    words it was built from. *)
Fixpoint group_loop (words : list jsstring) (groups : list (list jsstring))
    (group : list jsstring) : list (list jsstring) * list jsstring :=
  match words with
  | [] => (groups, group)
  | word :: rest =>
      if truthy (line_of group)
      then
        if wider (measureText (line_of group ++ [SPACE] ++ word)) maxWidth
        then group_loop rest (groups ++ [group]) [word]
        else group_loop rest groups (group ++ [word])
      else group_loop rest groups [word]
  end.

Definition close (state : list (list jsstring) * list jsstring)
    : list (list jsstring) :=
  if truthy (line_of (snd state)) then fst state ++ [snd state] else fst state.

Definition wrap_groups (words : list jsstring) : list (list jsstring) :=
  close (group_loop words [] []).

(** A group of two words or more fits the line. *)
Definition fits (group : list jsstring) : Prop :=
  (2 <= length group)%nat -> wider (measureText (line_of group)) maxWidth = false.

(** The break between a line and the next one was forced: the first word
    of the next line did not fit on the line. *)
Definition forced (group next : list jsstring) : Prop :=
  forall word : jsstring,
    head next = Some word ->
    wider (measureText (line_of group ++ [SPACE] ++ word)) maxWidth = true.

Inductive all_forced : list (list jsstring) -> Prop :=
  | all_forced_nil : all_forced []
  | all_forced_one (group : list jsstring) : all_forced [group]
  | all_forced_cons (group next : list jsstring) (rest : list (list jsstring)) :
      forced group next -> all_forced (next :: rest) ->
      all_forced (group :: next :: rest).

End WithSurface.

(** Every word but the last is non-empty. *)
Fixpoint inner_words_nonempty (words : list jsstring) : Prop :=
  match words with
  | [] => True
  | [_] => True
  | word :: rest => truthy word = true /\ inner_words_nonempty rest
  end.

(** The non-empty words of a text. *)
Definition words_of (text : jsstring) : list jsstring :=
  List.filter truthy (split_ws text).

End Greedy.

(** ** One slide: [renderSlide] *)

Module Slide.

Import Feed Orchestrator.

Definition CANVAS_WIDTH : Z := 1280.
Definition CANVAS_HEIGHT : Z := 720.

(** What [renderSlide] asks of the 2D context, in order. *)
Inductive command :=
  | CreateLinearGradient (x0 y0 x1 y1 : Z) (stops : list (Q * jsstring))
  | SetFillStyle (style : jsstring)
  | SetFillGradient
  | SetStrokeStyle (style : jsstring)
  | SetLineWidth (width : Z)
  | SetFont (font : jsstring)
  | FillRect (x y w h : Z)
  | StrokeRect (x y w h : Z)
  | FillText (text : jsstring) (x y : Z).

(** The host behind a slide: whether a 2D context is to be had, the
    width it measures for a text in a font, its rendering of the instant
    with the options of [renderSlide], the [pathname] of a URL ([None]
    when [new URL] throws), the PNG of what was drawn, and the texts of
    the errors it raises. *)
Record surface := {
  getContext : bool;
  measure : jsstring -> jsstring -> Q;
  toLocaleString : Z -> jsstring;
  pathname : jsstring -> option jsstring;
  toPng : list command -> result (list Z);
  invalid_url_message : jsstring;
  type_error_message : jsstring
}.

Definition label_font : jsstring := js "bold 36px 'IBM Plex Sans', 'Segoe UI', sans-serif".
Definition title_font : jsstring := js "bold 64px 'IBM Plex Sans', 'Segoe UI', sans-serif".
Definition summary_font : jsstring := js "28px 'IBM Plex Sans', 'Segoe UI', sans-serif".
Definition footer_font : jsstring := js "24px 'IBM Plex Sans', 'Segoe UI', sans-serif".
Definition caption_font : jsstring := js "22px 'IBM Plex Sans', 'Segoe UI', sans-serif".

Definition BULLET : Z := 8226.   (* U+2022 *)

Definition caption : jsstring :=
  js "Generated by India Pulse " ++ [BULLET] ++ js " Refresh daily for new stories".

(** The background, the panel, the frame and the label. *)
Definition backdrop (index total : nat) : list command :=
  [CreateLinearGradient 0 0 CANVAS_WIDTH CANVAS_HEIGHT
     [(0%Q, js "#050C1A"); ((55 # 100)%Q, js "#0B2659"); (1%Q, js "#122B61")];
   SetFillGradient;
   FillRect 0 0 CANVAS_WIDTH CANVAS_HEIGHT;
   SetFillStyle (js "rgba(6, 14, 48, 0.45)");
   FillRect 80 80 (CANVAS_WIDTH - 160) (CANVAS_HEIGHT - 160);
   SetStrokeStyle (js "rgba(56, 189, 248, 0.6)");
   SetLineWidth 6;
   StrokeRect 80 80 (CANVAS_WIDTH - 160) (CANVAS_HEIGHT - 160);
   SetFillStyle (js "rgba(56, 189, 248, 0.9)");
   SetFont label_font;
   FillText (js "Update " ++ number_to_string (Z.of_nat index + 1) ++ js " of "
             ++ number_to_string (Z.of_nat total)) 120 150].

(** A call of [drawWrappedText] under the font in force: its calls of
    [fillText] as commands, and the value it returns. *)
Definition wrapped (host : surface) (font text : jsstring) (x y : Z) (maxWidth : Q)
    (lineHeight maxLines : Z) : result (list command * Z) :=
  match Wrap.drawWrappedText (measure host font) text x y maxWidth lineHeight maxLines with
  | Some (drawn, nextY) =>
      Ok (List.map (fun d => FillText (Wrap.line d) (Wrap.at_x d) (Wrap.at_y d)) drawn,
          nextY)
  | None => Throw (ErrorObject (type_error_message host))
  end.

(** Everything [renderSlide] draws, or what it throws on the way. *)
Definition slide_commands (host : surface) (update : IndiaUpdate) (index total : nat)
    : result (list command) :=
  if getContext host then
    match wrapped host title_font (update_title update) 120 230
            (inject_Z (CANVAS_WIDTH - 240)) 72 3 with
    | Throw t => Throw t
    | Ok (title_lines, _) =>
        match wrapped host summary_font (summary update) 120 420
                (inject_Z (CANVAS_WIDTH - 240)) 44 6 with
        | Throw t => Throw t
        | Ok (summary_lines, nextY) =>
            let footY := Z.max (nextY + 40) (CANVAS_HEIGHT - 140) in
            let posted := toLocaleString host (postedAt update) in
            match pathname host (url update) with
            | None => Throw (ErrorObject (invalid_url_message host))
            | Some path =>
                Ok (backdrop index total
                    ++ [SetFillStyle (js "rgba(226,232,240,0.9)"); SetFont title_font]
                    ++ title_lines
                    ++ [SetFillStyle (js "rgba(148, 163, 184, 0.95)"); SetFont summary_font]
                    ++ summary_lines
                    ++ [SetFillStyle (js "rgba(94,234,212,0.9)"); SetFont footer_font;
                        FillText (js "Source " ++ [MIDDLE_DOT] ++ js " reddit.com" ++ path
                                  ++ js " " ++ [MIDDLE_DOT] ++ js " Posted " ++ posted)
                                 120 footY;
                        SetFillStyle (js "rgba(148, 163, 184, 0.8)"); SetFont caption_font;
                        FillText caption 120 (footY + 46)])
            end
        end
    end
  else Throw (ErrorObject (js "Failed to initialise canvas rendering context.")).

Definition renderSlide (host : surface) (update : IndiaUpdate) (index total : nat)
    : result (list Z) :=
  match slide_commands host update index total with
  | Ok commands => toPng host commands
  | Throw t => Throw t
  end.

(** A host to try a slide on: every code unit sixteen pixels wide in
    every font, and links that always parse. *)
Definition tablet : surface :=
  {| getContext := true;
     measure := fun _ text => inject_Z (16 * Z.of_nat (length text));
     toLocaleString := fun _ => js "15 November 2023 at 03:43 am";
     pathname := fun _ => Some (js "/r/india/comments/1");
     toPng := fun _ => Ok [137; 80; 78; 71];
     invalid_url_message := js "Invalid URL";
     type_error_message := js "Cannot read properties of undefined" |}.

(** The same host with a canvas that cannot be exported. *)
Definition tainted_tablet : surface :=
  {| getContext := true;
     measure := measure tablet;
     toLocaleString := toLocaleString tablet;
     pathname := pathname tablet;
     toPng := fun _ => Throw (ErrorObject (js "The operation is insecure."));
     invalid_url_message := invalid_url_message tablet;
     type_error_message := type_error_message tablet |}.

(** The texts a slide shows, with their positions. *)
Definition texts (commands : list command) : list (jsstring * Z * Z) :=
  omap (fun c => match c with FillText t x y => Some (t, x, y) | _ => None end)
       commands.

End Slide.

(** ** Vocabulary for the stages of a run *)

Module Run.

Import Orchestrator.

Definition is_load (e : event) : bool :=
  match e with Load => true | _ => false end.

(** [`slide-${index}.png`] *)
Definition slide_name (index : nat) : jsstring :=
  js "slide-" ++ number_to_string (Z.of_nat index) ++ js ".png".

(** The calls of a run between its last slide and the release of the
    previous video, for [itemCount] items: the manifest and the silent
    track are written, the encoder is run, its output is read and the
    handle of the new video is created. *)
Definition encoding_calls (itemCount : nat) (silence data : list Z) : list event :=
  [WriteFile (js "slides.txt")
     (encode (Manifest.buildConcatScript
                (List.map slide_name (seq 0 itemCount))
                (Planner.perSlideDuration (Z.of_nat itemCount))));
   WriteFile (js "silence.wav") silence;
   Run encoder_args;
   ReadFile (js "output.mp4");
   CreateObjectURL data].

(** A stage that keeps an invariant of the state, however it ends. *)
Definition preserves {A} (I : state -> Prop) (m : M A) : Prop :=
  forall s s' tr r, m s = (s', tr, r) -> I s -> I s'.

(** A stage that never makes a call satisfying [p]. *)
Definition never {A} (p : event -> bool) (m : M A) : Prop :=
  forall s s' tr r, m s = (s', tr, r) -> Forall (fun e => p e = false) tr.

(** An invariant that the setters of a run keep; the logger writes the
    logs, and the [finally] block clears the generating flag, only while
    the component is mounted. *)
Record stable (I : state -> Prop) : Prop := {
  stable_finish : forall s,
      I s -> isMountedRef s = true -> I (setIsGenerating false s);
  stable_setError : forall s v, I s -> I (setError v s);
  stable_setVideoUrl : forall s v, I s -> I (setVideoUrl v s);
  stable_setVideoDuration : forall s v, I s -> I (setVideoDuration v s);
  stable_ffmpegRef : forall s, I s -> I (set_ffmpegRef true s);
  stable_isMountedRef : forall s, I s -> I (set_isMountedRef false s);
  stable_log : forall s message,
      I s -> isMountedRef s = true ->
      I (setLogs (fun prev => last_120 (prev ++ [message])) s)
}.

End Run.

(** ** The two buttons of the page *)

Module Controls.

Import Orchestrator.

(** [disabled={loadingUpdates || isGenerating}] of the fetch button. *)
Definition fetch_disabled (s : state) : bool :=
  loadingUpdates s || isGenerating s.

(** [disabled={isGenerating || updates.length === 0}] of the generate
    button. *)
Definition generate_disabled (s : state) : bool :=
  isGenerating s || (length (updates s) =? 0)%nat.

(** The text on the generate button. *)
Definition generate_label (s : state) : jsstring :=
  if isGenerating s then js "Rendering master..." else js "Generate YouTube Cut".

End Controls.

(** * Properties *)

(** ** The duration planner *)

Section PlannerFacts.

Import Planner.

Lemma ceil_div_bounds (a b : Z) :
  0 < b -> a <= ceil_div a b * b < a + b.
Proof.
  intros Hb. unfold ceil_div.
  pose proof (Z.div_mod (- a) b ltac:(lia)) as Hdm.
  pose proof (Z.mod_pos_bound (- a) b Hb) as Hr.
  nia.
Qed.

Lemma totalDuration_finalDuration (n : Z) :
  1 <= n -> totalDuration n = finalDuration n.
Proof.
  intros Hn. unfold totalDuration, finalDuration, perSlideDuration.
  destruct (Z.eqb_spec n 0); [lia | reflexivity].
Qed.

Lemma perSlideDuration_long_list (n : Z) :
  MIN_VIDEO_DURATION_SECONDS <= n * FALLBACK_SLIDE_DURATION ->
  perSlideDuration n = FALLBACK_SLIDE_DURATION.
Proof.
  unfold perSlideDuration, MIN_VIDEO_DURATION_SECONDS, FALLBACK_SLIDE_DURATION.
  intros Hn.
  pose proof (ceil_div_bounds 240 n ltac:(lia)) as Hc.
  apply Z.max_r. nia.
Qed.

Lemma perSlideDuration_short_list (n : Z) :
  1 <= n -> n * FALLBACK_SLIDE_DURATION < MIN_VIDEO_DURATION_SECONDS ->
  perSlideDuration n = ceil_div MIN_VIDEO_DURATION_SECONDS n.
Proof.
  unfold perSlideDuration, MIN_VIDEO_DURATION_SECONDS, FALLBACK_SLIDE_DURATION.
  intros Hn Hs.
  pose proof (ceil_div_bounds 240 n ltac:(lia)) as Hc.
  apply Z.max_l. nia.
Qed.

(** C2, as the code has it. For every [itemCount >= 1] the per-slide
    duration is at least the fallback of 40 and the total is at least the
    minimum of 240, whatever the item count. When
    [itemCount * 40 >= 240] the total is [itemCount * 40]; when
    [itemCount * 40 < 240] the total is [ceil(240 / itemCount) * itemCount],
    which lies in [240, 240 + itemCount) and is not [itemCount * 40]. *)
Theorem plan_total_reaches_minimum (itemCount : Z) :
  1 <= itemCount ->
  FALLBACK_SLIDE_DURATION <= perSlideDuration itemCount
  /\ MIN_VIDEO_DURATION_SECONDS <= totalDuration itemCount
  /\ (MIN_VIDEO_DURATION_SECONDS <= itemCount * FALLBACK_SLIDE_DURATION ->
      totalDuration itemCount = itemCount * FALLBACK_SLIDE_DURATION)
  /\ (itemCount * FALLBACK_SLIDE_DURATION < MIN_VIDEO_DURATION_SECONDS ->
      totalDuration itemCount
        = ceil_div MIN_VIDEO_DURATION_SECONDS itemCount * itemCount
      /\ totalDuration itemCount < MIN_VIDEO_DURATION_SECONDS + itemCount
      /\ totalDuration itemCount <> itemCount * FALLBACK_SLIDE_DURATION).
Proof.
  intros Hn. rewrite totalDuration_finalDuration by assumption.
  pose proof (ceil_div_bounds MIN_VIDEO_DURATION_SECONDS itemCount ltac:(lia)) as Hc.
  assert (Hper : FALLBACK_SLIDE_DURATION <= perSlideDuration itemCount)
    by (unfold perSlideDuration; lia).
  split; [exact Hper |].
  destruct (Z_lt_le_dec (itemCount * FALLBACK_SLIDE_DURATION) MIN_VIDEO_DURATION_SECONDS)
    as [Hshort | Hlong].
  - unfold finalDuration.
    rewrite (perSlideDuration_short_list itemCount Hn Hshort).
    repeat split; try lia.
  - unfold finalDuration.
    rewrite (perSlideDuration_long_list itemCount Hlong).
    repeat split; try lia.
Qed.

Lemma plan_total_reaches_minimum_witness :
  1 <= 5
  /\ FALLBACK_SLIDE_DURATION <= perSlideDuration 5
  /\ MIN_VIDEO_DURATION_SECONDS <= totalDuration 5
  /\ totalDuration 5 = 240.
Proof.
  split; [lia |].
  destruct (plan_total_reaches_minimum 5 ltac:(lia)) as (Hper & Hmin & _ & _).
  split; [exact Hper |]. split; [exact Hmin | reflexivity].
Defined.

(** C2, as the specification words it, fails on a single item: one item
    times the fallback of 40 is below 240, and the plan lasts 240 seconds,
    not 40. *)
Lemma plan_short_list_not_fallback_product :
  1 * FALLBACK_SLIDE_DURATION < MIN_VIDEO_DURATION_SECONDS
  /\ totalDuration 1 = 240
  /\ finalDuration 1 = 240
  /\ totalDuration 1 <> 1 * FALLBACK_SLIDE_DURATION.
Proof. vm_compute. repeat split; congruence. Qed.

(** C4. For every [itemCount] from 1 to 50 the per-slide duration is
    [max(ceil(240 / itemCount), 40)], where the ceiling is the least whole
    number of seconds whose product with the item count reaches 240; its
    product with the item count is the total duration, both as the page
    memoises it and as the handler recomputes it, and it is at least the
    fallback of 40. *)
Theorem plan_product_invariant (itemCount : Z) :
  1 <= itemCount <= 50 ->
  perSlideDuration itemCount
    = Z.max (ceil_div MIN_VIDEO_DURATION_SECONDS itemCount) FALLBACK_SLIDE_DURATION
  /\ (ceil_div MIN_VIDEO_DURATION_SECONDS itemCount - 1) * itemCount
       < MIN_VIDEO_DURATION_SECONDS
       <= ceil_div MIN_VIDEO_DURATION_SECONDS itemCount * itemCount
  /\ perSlideDuration itemCount * itemCount = totalDuration itemCount
  /\ perSlideDuration itemCount * itemCount = finalDuration itemCount
  /\ FALLBACK_SLIDE_DURATION <= perSlideDuration itemCount.
Proof.
  intros [Hlo Hhi].
  pose proof (ceil_div_bounds MIN_VIDEO_DURATION_SECONDS itemCount ltac:(lia)) as Hc.
  split; [reflexivity |].
  split; [lia |].
  split; [now rewrite totalDuration_finalDuration |].
  split; [reflexivity |].
  unfold perSlideDuration. lia.
Qed.

Lemma plan_product_invariant_witness :
  1 <= 6 <= 50
  /\ perSlideDuration 6 = 40
  /\ perSlideDuration 6 * 6 = totalDuration 6
  /\ totalDuration 6 = 240.
Proof.
  split; [lia |].
  destruct (plan_product_invariant 6 ltac:(lia)) as (_ & _ & Htot & _ & _).
  split; [reflexivity |]. split; [exact Htot | reflexivity].
Defined.

End PlannerFacts.

(** ** The concatenation manifest *)

Section ManifestFacts.

Import Manifest.

Lemma join_cons_cons (sep p q : jsstring) (rest : list jsstring) :
  join sep (p :: q :: rest) = p ++ sep ++ join sep (q :: rest).
Proof. reflexivity. Qed.

Lemma join_snoc (sep x : jsstring) (parts : list jsstring) :
  parts <> [] -> join sep (parts ++ [x]) = join sep parts ++ sep ++ x.
Proof.
  induction parts as [| p [| q rest] IH]; intros Hne.
  - congruence.
  - reflexivity.
  - change ((p :: q :: rest) ++ [x]) with (p :: q :: (rest ++ [x])).
    rewrite !join_cons_cons.
    change (q :: rest ++ [x]) with ((q :: rest) ++ [x]).
    rewrite IH by congruence.
    now rewrite <- !app_assoc.
Qed.

(** Joining the two-line entries is joining their lines. *)
Lemma join_entries (d : Z) (names : list jsstring) :
  join [LF]
    (List.map (fun name => js "file '" ++ name ++ js "'" ++ [LF]
                           ++ js "duration " ++ number_to_string d) names)
  = join [LF] (List.map render (flat_map (fun name => [File name; Duration d]) names)).
Proof.
  induction names as [| n [| m rest] IH].
  - reflexivity.
  - cbn. now rewrite <- !app_assoc.
  - cbn [List.map flat_map app] in *.
    rewrite !join_cons_cons, IH, !join_cons_cons.
    cbn [render]. rewrite <- !app_assoc. reflexivity.
Qed.

Lemma array_get_last {A} (d : A) (arr : list A) :
  arr <> [] -> array_get arr (Z.of_nat (length arr) - 1) = Some (List.last arr d).
Proof.
  intros Hne. unfold array_get.
  destruct (Z.ltb_spec (Z.of_nat (length arr) - 1) 0) as [Hlt | Hge].
  - destruct arr; [congruence | cbn [length] in Hlt; lia].
  - replace (Z.to_nat (Z.of_nat (length arr) - 1)) with (length arr - 1)%nat by lia.
    clear Hge. induction arr as [| a rest IH]; [congruence |].
    destruct rest as [| b rest]; [reflexivity |].
    change (List.last (a :: b :: rest) d) with (List.last (b :: rest) d).
    rewrite <- IH by congruence. cbn [length]. 
    replace (S (S (length rest)) - 1)%nat with (S (length rest)) by lia.
    replace (S (length rest) - 1)%nat with (length rest) by lia.
    reflexivity.
Qed.

Lemma count_directives (d : Z) (names : list jsstring) :
  length (List.filter is_file (flat_map (fun name => [File name; Duration d]) names))
    = length names
  /\ length (List.filter is_duration (flat_map (fun name => [File name; Duration d]) names))
    = length names.
Proof.
  induction names as [| n rest [IHf IHd]]; [split; reflexivity |].
  cbn. rewrite IHf, IHd. split; reflexivity.
Qed.

(** C1, as the code has it. For a non-empty list of slide names the
    manifest is, line by line and in input order, a [file] directive and a
    [duration] directive with the per-slide seconds for each slide, then
    one more [file] directive naming the final slide again, with no
    duration: one [file] line more than there are slides, and as many
    [duration] lines as slides. For three slides and 40 seconds it is
    file s0 / duration 40 / file s1 / duration 40 / file s2 / duration 40 / file s2:
    four [file] lines and three [duration] lines, the last slide named twice. *)
Theorem manifest_directive_sequence (slideNames : list jsstring) (durationSeconds : Z) :
  slideNames <> [] ->
  buildConcatScript slideNames durationSeconds
    = join [LF] (List.map render (directives slideNames durationSeconds))
  /\ directives slideNames durationSeconds
     = flat_map (fun name => [File name; Duration durationSeconds]) slideNames
       ++ [File (List.last slideNames [])]
  /\ length (List.filter is_file (directives slideNames durationSeconds))
     = S (length slideNames)
  /\ length (List.filter is_duration (directives slideNames durationSeconds))
     = length slideNames
  /\ (forall s0 s1 s2 : jsstring,
        slideNames = [s0; s1; s2] -> durationSeconds = 40 ->
        buildConcatScript slideNames durationSeconds
          = join [LF]
              [js "file '" ++ s0 ++ js "'"; js "duration 40";
               js "file '" ++ s1 ++ js "'"; js "duration 40";
               js "file '" ++ s2 ++ js "'"; js "duration 40";
               js "file '" ++ s2 ++ js "'"]
        /\ length (List.filter is_file (directives slideNames durationSeconds)) = 4%nat
        /\ length (List.filter is_duration (directives slideNames durationSeconds)) = 3%nat).
Proof.
  intros Hne.
  assert (Hscript : buildConcatScript slideNames durationSeconds
            = join [LF] (List.map render (directives slideNames durationSeconds))).
  { unfold buildConcatScript, directives.
    rewrite (array_get_last [] slideNames Hne). cbn [template].
    rewrite join_entries, List.map_app. cbn [List.map render].
    rewrite join_snoc; [reflexivity |].
    destruct slideNames; [congruence | discriminate]. }
  destruct (count_directives durationSeconds slideNames) as [Hf Hd].
  assert (Hfiles : length (List.filter is_file (directives slideNames durationSeconds))
            = S (length slideNames)).
  { unfold directives. rewrite List.filter_app, length_app, Hf. cbn. lia. }
  assert (Hdurs : length (List.filter is_duration (directives slideNames durationSeconds))
            = length slideNames).
  { unfold directives. rewrite List.filter_app, length_app, Hd. cbn. lia. }
  repeat split; try assumption.
  - rewrite Hscript. subst. reflexivity.
  - rewrite Hfiles. subst. reflexivity.
  - rewrite Hdurs. subst. reflexivity.
Qed.

(** The slides of a three-item run, as the handler names them. *)
Lemma manifest_directive_sequence_witness :
  [js "slide-0.png"; js "slide-1.png"; js "slide-2.png"] <> []
  /\ buildConcatScript [js "slide-0.png"; js "slide-1.png"; js "slide-2.png"] 40
     = js "file 'slide-0.png'" ++ [LF] ++ js "duration 40" ++ [LF]
       ++ js "file 'slide-1.png'" ++ [LF] ++ js "duration 40" ++ [LF]
       ++ js "file 'slide-2.png'" ++ [LF] ++ js "duration 40" ++ [LF]
       ++ js "file 'slide-2.png'".
Proof.
  assert (Hne : [js "slide-0.png"; js "slide-1.png"; js "slide-2.png"] <> [])
    by discriminate.
  split; [exact Hne |].
  destruct (manifest_directive_sequence
              [js "slide-0.png"; js "slide-1.png"; js "slide-2.png"] 40 Hne)
    as (Hscript & _).
  rewrite Hscript. vm_compute. reflexivity.
Defined.

(** C1, as the specification words it, miscounts: the manifest of three
    slides at 40 seconds has seven lines, of which four, not five, are
    [file] lines. *)
Lemma manifest_three_slides_four_file_lines :
  let script :=
    buildConcatScript [js "slide-0.png"; js "slide-1.png"; js "slide-2.png"] 40 in
  split_lines script
    = [js "file 'slide-0.png'"; js "duration 40";
       js "file 'slide-1.png'"; js "duration 40";
       js "file 'slide-2.png'"; js "duration 40";
       js "file 'slide-2.png'"]
  /\ length (lines_with (js "file ") script) = 4%nat
  /\ length (lines_with (js "duration ") script) = 3%nat
  /\ length (lines_with (js "file ") script) <> 5%nat.
Proof. vm_compute. repeat split; congruence. Qed.

End ManifestFacts.

(** ** The content normalizer *)

Section FeedFacts.

Import Feed.

Lemma slice0_take {A} (n : nat) (arr : list A) :
  slice0 (Z.of_nat n) arr = take n arr.
Proof.
  unfold slice0.
  destruct (Z.ltb_spec (Z.of_nat n) 0) as [Hneg | _]; [lia |].
  destruct (Nat.le_gt_cases n (length arr)) as [Hle | Hgt].
  - f_equal. lia.
  - replace (Z.to_nat (Z.min (Z.of_nat n) (Z.of_nat (length arr)))) with (length arr) by lia.
    rewrite !take_ge by lia. reflexivity.
Qed.

(** A post passes the first filter exactly when its [id] is a text that
    is not empty. *)
Lemma has_id_identified (p : RedditPost) : has_id (Some p) = identified p.
Proof. unfold has_id, identified, truthy. now destruct (id p) as [[| c i] |]. Qed.

Lemma filter_chain (posts : list child) :
  List.filter unflagged (List.filter has_id (List.map data posts))
  = List.map Some (List.filter eligible (records posts)).
Proof.
  unfold records.
  induction posts as [| [[p |]] rest IH]; cbn [List.map omap list_omap List.filter data].
  - reflexivity.
  - unfold eligible. rewrite <- has_id_identified. cbn [unflagged].
    destruct (has_id (Some p)) eqn:Hid; cbn [andb List.filter unflagged].
    + destruct (negb (stickied p) && negb (over_18 p)) eqn:Hflags;
        cbn [List.map]; now rewrite IH.
    + exact IH.
  - exact IH.
Qed.

Lemma omap_map_Some {A} (l : list A) : omap (fun p => p) (List.map Some l) = l.
Proof. induction l as [| a l IH]; [reflexivity |]. cbn. now rewrite IH. Qed.

Lemma survivors_first_eligible (posts : list child) :
  survivors posts = take 10 (List.filter eligible (records posts)).
Proof.
  unfold survivors, ITEMS_LIMIT.
  rewrite filter_chain.
  change 10 with (Z.of_nat 10). rewrite slice0_take.
  rewrite List.firstn_map. apply omap_map_Some.
Qed.

Lemma sublist_bool_filter {A} (f : A -> bool) (l : list A) :
  sublist (List.filter f l) l.
Proof.
  induction l as [| a l IH]; [constructor |].
  cbn. destruct (f a); now constructor.
Qed.

Lemma filter_partition_length {A} (f : A -> bool) (l : list A) :
  (length (List.filter f l) + length (List.filter (fun a => negb (f a)) l))%nat = length l.
Proof.
  induction l as [| a l IH]; [reflexivity |].
  cbn. destruct (f a); cbn; lia.
Qed.

(** With every record identified, the eligible ones are those neither
    pinned nor adult. *)
Lemma eligible_count (posts : list child) :
  Forall (fun c => exists p i, data c = Some p /\ id p = Some i /\ i <> []) posts ->
  (length (List.filter eligible (records posts))
   + length (List.filter pinned posts)
   + length (List.filter adult_not_pinned posts))%nat = length posts.
Proof.
  unfold records.
  induction 1 as [| [d] rest (p & i & Hd & Hi & Hne) _ IH]; [reflexivity |].
  cbn [data] in Hd. subst d.
  cbn [omap list_omap List.filter data pinned adult_not_pinned length].
  assert (He : eligible p = negb (stickied p) && negb (over_18 p)).
  { unfold eligible, identified. rewrite Hi. now destruct i. }
  rewrite He.
  destruct (stickied p), (over_18 p); cbn [negb andb length]; lia.
Qed.

(** The survivors carry an identifier that is not empty, and no flag. *)
Lemma survivor_fields (posts : list child) :
  Forall (fun p => (exists i, id p = Some i /\ i <> [])
                   /\ stickied p = false /\ over_18 p = false)
    (survivors posts).
Proof.
  rewrite survivors_first_eligible. apply Forall_take, Forall_forall.
  intros p Hp. apply list_elem_of_In, List.filter_In in Hp. destruct Hp as [_ He].
  unfold eligible, identified in He.
  destruct (id p) as [[| c i] |]; try discriminate He.
  destruct (stickied p), (over_18 p); try discriminate He.
  split; [exists (c :: i); split; [reflexivity | discriminate] | split; reflexivity].
Qed.

(** What the callback returns, when it returns. *)
Lemma to_update_Some (p : RedditPost) (item : IndiaUpdate) :
  to_update p = Some item ->
  Z.abs (created_utc p * 1000) <= MAX_TIME
  /\ update_id item = default [] (id p)
  /\ update_title item = title p
  /\ summary item = cap_summary (derived_summary p)
  /\ url item = js "https://www.reddit.com" ++ permalink p
  /\ update_author item = author p
  /\ postedAt item = created_utc p * 1000.
Proof.
  unfold to_update, toISOString.
  destruct (Z.leb_spec (Z.abs (created_utc p * 1000)) MAX_TIME) as [Hin | Hout];
    [| discriminate].
  intros [= <-]. repeat split. exact Hin.
Qed.

Lemma to_update_None (p : RedditPost) :
  to_update p = None <-> MAX_TIME < Z.abs (created_utc p * 1000).
Proof.
  unfold to_update, toISOString.
  destruct (Z.leb_spec (Z.abs (created_utc p * 1000)) MAX_TIME); split;
    intros; (discriminate || lia || reflexivity).
Qed.

(** The items, when the route has any, are those of the survivors. *)
Lemma normalize_Some (posts : list child) (items : list IndiaUpdate) :
  normalize posts = Some items ->
  Forall2 (fun p item => to_update p = Some item) (survivors posts) items
  /\ length items = length (survivors posts)
  /\ (length items <= 10)%nat.
Proof.
  unfold normalize. intros Hitems.
  pose proof (length_mapM _ _ _ Hitems) as Hlen.
  split; [now apply mapM_Some_1 |]. split; [now symmetry |].
  rewrite <- Hlen, survivors_first_eligible, length_take. lia.
Qed.

Lemma normalize_items (posts : list child) (items : list IndiaUpdate) (item : IndiaUpdate) :
  normalize posts = Some items -> In item items ->
  exists p, In p (survivors posts) /\ to_update p = Some item.
Proof.
  intros Hitems Hin. destruct (normalize_Some _ _ Hitems) as (Hall & _ & _).
  apply list_elem_of_In, list_elem_of_lookup_1 in Hin. destruct Hin as [i Hi].
  destruct (Forall2_lookup_r _ _ _ _ _ Hall Hi) as (p & Hp & Hitem).
  exists p. split; [| exact Hitem].
  eapply list_elem_of_In, list_elem_of_lookup_2. exact Hp.
Qed.

(** C7. The normalizer keeps the records that carry an identifier and are
    neither pinned nor adult, in the order of the feed, and of those the
    first ten: a record without a post, without an identifier or with an
    empty one is dropped, as is every flagged one. Twelve identified
    records of which two are pinned and one more is adult leave nine. The
    items of the route, when no date makes it fail, are those of the nine,
    one each and in order; and it has items when every surviving date is
    one a [Date] holds. *)
Theorem normalizer_contract (posts : list child) :
  survivors posts = take 10 (List.filter eligible (records posts))
  /\ sublist (survivors posts) (records posts)
  /\ Forall (fun p => (exists i, id p = Some i /\ i <> [])
                      /\ stickied p = false /\ over_18 p = false)
       (survivors posts)
  /\ (forall p, In p (records posts) ->
        id p = None \/ id p = Some [] \/ stickied p = true \/ over_18 p = true ->
        ~ In p (survivors posts))
  /\ length (survivors posts)
     = Nat.min 10 (length (List.filter eligible (records posts)))
  /\ (forall items, normalize posts = Some items ->
        length items = length (survivors posts)
        /\ List.map update_id items
           = List.map (fun p => default [] (id p)) (survivors posts)
        /\ Forall (fun item => update_id item <> []) items)
  /\ (Forall (fun p => Z.abs (created_utc p * 1000) <= MAX_TIME) (survivors posts) ->
      exists items, normalize posts = Some items)
  /\ (length posts = 12%nat ->
      Forall (fun c => exists p i, data c = Some p /\ id p = Some i /\ i <> []) posts ->
      length (List.filter pinned posts) = 2%nat ->
      length (List.filter adult_not_pinned posts) = 1%nat ->
      length (survivors posts) = 9%nat
      /\ survivors posts = List.filter eligible (records posts)
      /\ (forall items, normalize posts = Some items -> length items = 9%nat)).
Proof.
  pose proof (survivors_first_eligible posts) as Hsurv.
  pose proof (survivor_fields posts) as Hfields.
  split; [exact Hsurv |].
  split.
  { rewrite Hsurv. etransitivity; [apply sublist_take | apply sublist_bool_filter]. }
  split; [exact Hfields |].
  split.
  { intros p _ Hbad Hin. rewrite Forall_forall in Hfields.
    destruct (Hfields p (proj2 (list_elem_of_In _ _) Hin))
      as ((i & Hi & Hne) & Hs & Ha).
    destruct Hbad as [Hb | [Hb | [Hb | Hb]]]; congruence. }
  assert (Hlen : length (survivors posts)
            = Nat.min 10 (length (List.filter eligible (records posts)))).
  { rewrite Hsurv. apply length_take. }
  split; [exact Hlen |].
  assert (Hitems : forall items, normalize posts = Some items ->
            length items = length (survivors posts)
            /\ List.map update_id items
               = List.map (fun p => default [] (id p)) (survivors posts)
            /\ Forall (fun item => update_id item <> []) items).
  { intros items Hsome. destruct (normalize_Some _ _ Hsome) as (Hall & Hn & _).
    split; [exact Hn |]. clear Hn Hsome Hsurv Hlen.
    induction Hall as [| p item ps its Hitem _ IH]; [split; constructor |].
    apply Forall_cons in Hfields. destruct Hfields as [((i & Hi & Hne) & _) Hrest].
    destruct (IH Hrest) as [Hids Hfull].
    destruct (to_update_Some _ _ Hitem) as (_ & Hid & _).
    split; [cbn [List.map]; now rewrite Hid, Hids |].
    constructor; [| exact Hfull]. rewrite Hid, Hi. exact Hne. }
  split; [exact Hitems |].
  split.
  { intros Hdates. unfold normalize. apply mapM_is_Some_2.
    eapply Forall_impl; [exact Hdates |]. intros p Hp. cbn.
    destruct (to_update p) eqn:Hu; [eauto |].
    apply to_update_None in Hu. cbv beta in Hp. exfalso. lia. }
  intros H12 Hids Hpinned Hadult.
  pose proof (eligible_count posts Hids) as Hcount.
  assert (H9 : length (survivors posts) = 9%nat) by lia.
  split; [exact H9 |].
  split; [rewrite Hsurv; apply take_ge; lia |].
  intros items Hsome. destruct (Hitems items Hsome) as [Hn _]. lia.
Qed.

(** On the sample feed, and on the one with the unidentified records. *)
Lemma normalizer_contract_witness :
  length sample_feed = 12%nat
  /\ length (List.filter pinned sample_feed) = 2%nat
  /\ length (List.filter adult_not_pinned sample_feed) = 1%nat
  /\ length (survivors sample_feed) = 9%nat
  /\ option_map (List.map update_id) (normalize sample_feed)
     = Some (List.map js ["t3_1"; "t3_3"; "t3_4"; "t3_6"; "t3_7"; "t3_8";
                          "t3_10"; "t3_11"; "t3_12"]%string)
  /\ length (records gapped_feed) = 14%nat
  /\ Forall (fun p => exists i, id p = Some i /\ i <> []) (survivors gapped_feed)
  /\ survivors gapped_feed = survivors sample_feed.
Proof.
  destruct (normalizer_contract sample_feed) as (_ & _ & _ & _ & _ & _ & _ & Hcase).
  assert (H12 : length sample_feed = 12%nat) by reflexivity.
  assert (Hids : Forall (fun c => exists p i, data c = Some p /\ id p = Some i /\ i <> [])
                   sample_feed).
  { repeat constructor;
      (eexists _, _; split; [reflexivity | split; [reflexivity | discriminate]]). }
  assert (Hpinned : length (List.filter pinned sample_feed) = 2%nat) by reflexivity.
  assert (Hadult : length (List.filter adult_not_pinned sample_feed) = 1%nat)
    by reflexivity.
  destruct (Hcase H12 Hids Hpinned Hadult) as (H9 & _ & _).
  destruct (normalizer_contract gapped_feed) as (_ & _ & Hgap & _).
  split; [exact H12 |]. split; [exact Hpinned |]. split; [exact Hadult |].
  split; [exact H9 |]. split; [vm_compute; reflexivity |].
  split; [reflexivity |].
  split; [| vm_compute; reflexivity].
  eapply Forall_impl; [exact Hgap |]. now intros p [Hid _].
Defined.

Lemma cap_summary_cases (s : jsstring) :
  Z.of_nat (length (cap_summary s)) <= SUMMARY_CAP
  /\ (SUMMARY_CAP < Z.of_nat (length s) ->
      cap_summary s = take 597 s ++ js "..."
      /\ length (cap_summary s) = 600%nat)
  /\ (Z.of_nat (length s) <= SUMMARY_CAP -> cap_summary s = s).
Proof.
  unfold cap_summary, SUMMARY_CAP.
  change 597 with (Z.of_nat 597). rewrite slice0_take.
  destruct (Z.ltb_spec 600 (Z.of_nat (length s))) as [Hlong | Hshort].
  - assert (Hlen : length (take 597 s ++ js "...") = 600%nat).
    { rewrite length_app, length_take. change (length (js "...")) with 3%nat. lia. }
    rewrite Hlen. repeat split; lia.
  - repeat split; lia.
Qed.

(** C8. The summary of a normalized item has at most 600 code units. A
    derived summary longer than that is cut to its first 597 code units
    and three full stops are appended, which makes exactly 600; a shorter
    one is kept as it is. This is the summary of the item of every post
    that has one, and so of every item of the route. *)
Theorem summary_within_cap (p : RedditPost) (posts : list child) :
  Z.of_nat (length (cap_summary (derived_summary p))) <= SUMMARY_CAP
  /\ (SUMMARY_CAP < Z.of_nat (length (derived_summary p)) ->
      cap_summary (derived_summary p) = take 597 (derived_summary p) ++ js "..."
      /\ length (cap_summary (derived_summary p)) = 600%nat)
  /\ (Z.of_nat (length (derived_summary p)) <= SUMMARY_CAP ->
      cap_summary (derived_summary p) = derived_summary p)
  /\ (forall item, to_update p = Some item ->
        summary item = cap_summary (derived_summary p))
  /\ (forall items, normalize posts = Some items ->
        Forall (fun item => Z.of_nat (length (summary item)) <= SUMMARY_CAP) items).
Proof.
  destruct (cap_summary_cases (derived_summary p)) as (Hcap & Hlong & Hshort).
  split; [exact Hcap |]. split; [exact Hlong |]. split; [exact Hshort |].
  split; [intros item Hitem; now destruct (to_update_Some _ _ Hitem) as (_ & _ & _ & ? & _) |].
  intros items Hitems. apply Forall_forall. intros item Hitem.
  apply list_elem_of_In in Hitem.
  destruct (normalize_items _ _ _ Hitems Hitem) as (q & _ & Hq).
  destruct (to_update_Some _ _ Hq) as (_ & _ & _ & -> & _).
  apply cap_summary_cases.
Qed.

End FeedFacts.

(** ** The silent track *)

Section WavFacts.

Import Wav.

Lemma alloc_ok (n : Z) :
  0 <= n <= 2 ^ 53 - 1 -> new_ArrayBuffer n = Some (replicate (Z.to_nat n) 0).
Proof.
  intros [Hlo Hhi]. unfold new_ArrayBuffer.
  destruct (Z.leb_spec 0 n); [| lia].
  destruct (Z.leb_spec n (2 ^ 53 - 1)); [| lia].
  reflexivity.
Qed.

(** The buffer that the generator returns: the header, whose two length
    fields hold their values modulo 2^32, and the zero-filled samples. *)
Lemma generateSilenceWav_shape (d : Z) :
  0 <= dataLength d -> 44 + dataLength d <= 2 ^ 53 - 1 ->
  generateSilenceWav d
  = Some (header ((36 + dataLength d) mod 2 ^ 32) (dataLength d mod 2 ^ 32)
          ++ replicate (Z.to_nat (dataLength d)) 0).
Proof.
  intros Hlo Hhi. unfold generateSilenceWav.
  rewrite alloc_ok by lia.
  replace (Z.to_nat (44 + dataLength d)) with (44 + Z.to_nat (dataLength d))%nat by lia.
  generalize (Z.to_nat (dataLength d)) as n.
  generalize (dataLength d) as L. clear. intros L n.
  cbn -[Z.modulo Z.div Z.add Z.mul Z.pow Z.of_nat].
  reflexivity.
Qed.

Lemma le_value_le_bytes_4 (v : Z) :
  0 <= v < 2 ^ 32 -> le_value (le_bytes 4 v) = v.
Proof.
  intros Hv. cbn [le_bytes le_value foldr].
  change (2 ^ 32) with 4294967296 in Hv.
  Z.div_mod_to_equations. lia.
Qed.

(** The fields of a buffer that starts with a header. *)
Lemma header_fields (riff data : Z) (samples : list Z) :
  length (header riff data ++ samples) = (44 + length samples)%nat
  /\ drop 44 (header riff data ++ samples) = samples
  /\ take 44 (header riff data ++ samples) = header riff data
  /\ field 4 4 (header riff data ++ samples) = le_value (le_bytes 4 riff)
  /\ field 4 40 (header riff data ++ samples) = le_value (le_bytes 4 data)
  /\ field 2 22 (header riff data ++ samples) = 1
  /\ field 4 24 (header riff data ++ samples) = 44100
  /\ field 4 28 (header riff data ++ samples) = 88200
  /\ field 2 32 (header riff data ++ samples) = 2
  /\ field 2 34 (header riff data ++ samples) = 16.
Proof.
  unfold header, field.
  cbn -[Z.modulo Z.div Z.add Z.mul le_value].
  repeat split; reflexivity.
Qed.

(** C3, as the code has it. For every whole duration [d] from 1 to 48695
    seconds the generator returns a buffer of [44 + d*44100*2] bytes: the
    44-byte header of a 44100 Hz, mono, 16-bit track, whose little-endian
    data-chunk length field is [d*44100*2] and whose RIFF length field is
    [36 + d*44100*2], and then [d*44100*2] zero bytes. 48695 seconds is the
    longest track whose lengths fit the header's 32-bit fields. *)
Theorem silence_track_layout (d : Z) :
  1 <= d <= 48695 ->
  exists buffer : list Z,
    generateSilenceWav d = Some buffer
    /\ Z.of_nat (length buffer) = 44 + d * 44100 * 2
    /\ take 44 buffer = header (36 + d * 44100 * 2) (d * 44100 * 2)
    /\ field 4 40 buffer = d * 44100 * 2
    /\ field 4 4 buffer = 36 + d * 44100 * 2
    /\ field 4 24 buffer = 44100
    /\ field 2 22 buffer = 1
    /\ field 2 34 buffer = 16
    /\ drop 44 buffer = replicate (Z.to_nat (d * 44100 * 2)) 0.
Proof.
  intros [Hlo Hhi].
  assert (HL : dataLength d = d * 44100 * 2)
    by (unfold dataLength, sampleRate, bytesPerSample, channels; lia).
  eexists. split.
  { apply generateSilenceWav_shape; rewrite HL; lia. }
  rewrite HL.
  rewrite (Z.mod_small (36 + d * 44100 * 2)) by lia.
  rewrite (Z.mod_small (d * 44100 * 2)) by lia.
  destruct (header_fields (36 + d * 44100 * 2) (d * 44100 * 2)
              (replicate (Z.to_nat (d * 44100 * 2)) 0))
    as (Hlen & Hdrop & Htake & Hriff & Hdata & Hch & Hrate & _ & _ & Hbits).
  rewrite Hlen, Hdrop, Htake, Hriff, Hdata, Hch, Hrate, Hbits.
  rewrite length_replicate, !le_value_le_bytes_4 by lia.
  repeat split; lia.
Qed.

Lemma silence_track_layout_witness :
  1 <= 240 <= 48695
  /\ exists buffer : list Z,
       generateSilenceWav 240 = Some buffer
       /\ Z.of_nat (length buffer) = 21168044
       /\ field 4 40 buffer = 21168000
       /\ field 4 4 buffer = 21168036.
Proof.
  assert (Hd : 1 <= 240 <= 48695) by lia.
  split; [exact Hd |].
  destruct (silence_track_layout 240 Hd)
    as (buffer & Hgen & Hlen & _ & Hdata & Hriff & _).
  exists buffer. repeat split; assumption.
Defined.

(** C3, as the specification words it for every duration, fails from
    48696 seconds on: the data length 4294987200 no longer fits 32 bits,
    and the fields hold 19904 and 19940 in its place. *)
Lemma silence_track_fields_wrap :
  exists buffer : list Z,
    generateSilenceWav 48696 = Some buffer
    /\ Z.of_nat (length buffer) = 44 + 48696 * 44100 * 2
    /\ field 4 40 buffer = 19904
    /\ field 4 40 buffer <> 48696 * 44100 * 2
    /\ field 4 4 buffer = 19940
    /\ field 4 4 buffer <> 36 + 48696 * 44100 * 2.
Proof.
  eexists. split.
  { apply generateSilenceWav_shape; vm_compute; congruence. }
  change (dataLength 48696) with 4294987200.
  remember (replicate (Z.to_nat 4294987200) 0) as samples eqn:Hsamples.
  destruct (header_fields ((36 + 4294987200) mod 2 ^ 32) (4294987200 mod 2 ^ 32) samples)
    as (Hlen & _ & _ & Hriff & Hdata & _).
  rewrite Hlen, Hriff, Hdata.
  assert (Hn : length samples = Z.to_nat 4294987200)
    by (rewrite Hsamples; apply length_replicate).
  rewrite Hn. clear Hsamples Hn Hlen Hriff Hdata.
  split; [lia |].
  repeat split; vm_compute; congruence.
Qed.

End WavFacts.

(** ** The word wrap *)

Section WrapFacts.

Import Wrap.

Variable measureText : jsstring -> Q.
Variable maxWidth : Q.

Lemma wider_monotone (w1 w2 : Q) :
  (w1 <= w2)%Q -> wider w1 maxWidth = true -> wider w2 maxWidth = true.
Proof.
  unfold wider. intros Hle Hw.
  destruct (Qle_bool w2 maxWidth) eqn:H2; [| reflexivity].
  apply Qle_bool_iff in H2.
  assert (H1 : Qle_bool w1 maxWidth = true)
    by (apply Qle_bool_iff; eapply Qle_trans; eassumption).
  rewrite H1 in Hw. discriminate.
Qed.

Lemma truthy_line_nonempty (group : list jsstring) :
  truthy (line_of group) = true -> group <> [].
Proof. intros Ht ->. discriminate. Qed.

Lemma falsy_line_no_words (group : list jsstring) :
  truthy (line_of group) = false -> List.filter truthy group = [].
Proof.
  destruct group as [| w [| v rest]]; intros Hf.
  - reflexivity.
  - cbn in *. now rewrite Hf.
  - unfold line_of in Hf. rewrite join_cons_cons in Hf.
    destruct w; discriminate.
Qed.

Lemma filter_truthy_app (l k : list jsstring) :
  List.filter truthy (l ++ k) = List.filter truthy l ++ List.filter truthy k.
Proof. apply List.filter_app. Qed.

Lemma filter_truthy_cons (w : jsstring) (l : list jsstring) :
  List.filter truthy (w :: l) = List.filter truthy [w] ++ List.filter truthy l.
Proof. apply (filter_truthy_app [w] l). Qed.

(** The loop, on groups of words: every line is a group of consecutive
    words, no non-empty word is lost or split, and under a monotone
    measurement a word wider than the line stays alone. *)
Lemma wrap_loop_groups (words : list jsstring) :
  forall (groups : list (list jsstring)) (group : list jsstring),
  exists (groups' : list (list jsstring)) (group' : list jsstring),
    wrap_loop measureText maxWidth words (List.map line_of groups) (line_of group)
      = (List.map line_of groups', line_of group')
    /\ List.filter truthy (concat groups' ++ group')
       = List.filter truthy (concat groups ++ group) ++ List.filter truthy words
    /\ (Forall (fun g => truthy (line_of g) = true) groups ->
        Forall (fun g => truthy (line_of g) = true) groups')
    /\ (monotone measureText ->
        Forall (alone_if_wide measureText maxWidth) groups ->
        alone_if_wide measureText maxWidth group ->
        Forall (alone_if_wide measureText maxWidth) groups'
        /\ alone_if_wide measureText maxWidth group').
Proof.
  induction words as [| word rest IH]; intros groups group.
  - exists groups, group. cbn [wrap_loop List.filter]. rewrite app_nil_r. auto.
  - assert (Hsingle : alone_if_wide measureText maxWidth [word]).
    { intros w [<- | []] _. reflexivity. }
    cbn [wrap_loop]. destruct (truthy (line_of group)) eqn:Hcur.
    + assert (Htest : line_of group ++ [SPACE] ++ word = line_of (group ++ [word])).
      { unfold line_of. rewrite join_snoc; [reflexivity |].
        now apply truthy_line_nonempty. }
      destruct (wider (measureText (line_of group ++ [SPACE] ++ word)) maxWidth)
        eqn:Hwide; cbn [andb].
      * destruct (IH (groups ++ [group]) [word])
          as (groups' & group' & Hloop & Hwords & Hlines & Hgood).
        exists groups', group'.
        rewrite List.map_app in Hloop.
        split; [exact Hloop |].
        split.
        { rewrite Hwords, concat_app. cbn [concat]. rewrite app_nil_r.
          rewrite (filter_truthy_cons word rest).
          rewrite !filter_truthy_app, <- !app_assoc. reflexivity. }
        split.
        { intros Hall. apply Hlines, Forall_app. split; [exact Hall |].
          now constructor. }
        intros Hmono Hall Hgroup. apply Hgood; [exact Hmono | | exact Hsingle].
        apply Forall_app. split; [exact Hall |]. now constructor.
      * destruct (IH groups (group ++ [word]))
          as (groups' & group' & Hloop & Hwords & Hlines & Hgood).
        exists groups', group'.
        rewrite Htest.
        split; [exact Hloop |].
        split.
        { rewrite Hwords, (filter_truthy_cons word rest).
          rewrite !filter_truthy_app, <- !app_assoc. reflexivity. }
        split; [exact Hlines |].
        intros Hmono Hall Hgroup. apply Hgood; [exact Hmono | exact Hall |].
        intros w Hin Hw. exfalso.
        destruct (Hmono (line_of group) word) as [Hleft Hright].
        apply List.in_app_iff in Hin. destruct Hin as [Hin | [<- | []]].
        -- pose proof (Hgroup w Hin Hw) as ->.
           change (line_of [w]) with w in *.
           rewrite (wider_monotone _ _ Hleft Hw) in Hwide. discriminate.
        -- rewrite (wider_monotone _ _ Hright Hw) in Hwide. discriminate.
    + rewrite andb_false_r.
      destruct (IH groups [word])
        as (groups' & group' & Hloop & Hwords & Hlines & Hgood).
      exists groups', group'.
      split; [exact Hloop |].
      split.
      { rewrite Hwords, (filter_truthy_cons word rest).
        rewrite !filter_truthy_app, (falsy_line_no_words group Hcur).
        rewrite app_nil_r, <- !app_assoc. reflexivity. }
      split; [exact Hlines |].
      intros Hmono Hall _. now apply Hgood.
Qed.

Lemma wrap_words_groups (words : list jsstring) :
  exists groups : list (list jsstring),
    wrap_words measureText maxWidth words = List.map line_of groups
    /\ List.filter truthy (concat groups) = List.filter truthy words
    /\ Forall (fun g => truthy (line_of g) = true) groups
    /\ (monotone measureText -> Forall (alone_if_wide measureText maxWidth) groups).
Proof.
  destruct (wrap_loop_groups words [] [])
    as (groups & group & Hloop & Hwords & Hlines & Hgood).
  unfold wrap_words. change (@nil jsstring) with (List.map line_of []) at 1.
  change (@nil Z) with (line_of []). rewrite Hloop.
  cbn [concat app List.filter] in Hwords.
  destruct (truthy (line_of group)) eqn:Hcur.
  - exists (groups ++ [group]).
    split; [now rewrite List.map_app |].
    split.
    { rewrite concat_app. cbn [concat]. now rewrite app_nil_r. }
    split.
    { apply Forall_app. split; [apply Hlines; constructor | now constructor]. }
    intros Hmono.
    destruct (Hgood Hmono) as [Hall Hgroup]; [constructor | intros w [] |].
    apply Forall_app. split; [exact Hall | now constructor].
  - exists groups.
    split; [reflexivity |].
    split.
    { rewrite <- Hwords, filter_truthy_app, (falsy_line_no_words group Hcur).
      now rewrite app_nil_r. }
    split; [apply Hlines; constructor |].
    intros Hmono. destruct (Hgood Hmono) as [Hall _]; [constructor | intros w [] |].
    exact Hall.
Qed.

End WrapFacts.

Section TruncationFacts.

Import Wrap.

Lemma truncate_long (maxLines : Z) (lines : list jsstring) :
  1 <= maxLines < Z.of_nat (length lines) ->
  exists cut : jsstring,
    lines !! Z.to_nat (maxLines - 1) = Some cut
    /\ truncate maxLines lines
       = Some (take (Z.to_nat (maxLines - 1)) lines
               ++ [strip_trailing is_dot cut ++ [ELLIPSIS]]).
Proof.
  intros [Hlo Hhi]. unfold truncate.
  destruct (Z.ltb_spec maxLines (Z.of_nat (length lines))) as [_ | Hge]; [| lia].
  set (n := Z.to_nat (maxLines - 1)).
  destruct (lookup_lt_is_Some_2 lines n ltac:(lia)) as [cut Hcut].
  exists cut. split; [exact Hcut |].
  assert (Hslice : slice0 maxLines lines = take n lines ++ [cut]).
  { replace maxLines with (Z.of_nat (S n)) by lia.
    rewrite slice0_take. now apply take_S_r. }
  rewrite Hslice.
  assert (Hlen : length (take n lines ++ [cut]) = S n).
  { rewrite length_app, length_take. cbn [length]. lia. }
  rewrite Hlen.
  replace (Z.of_nat (S n) - 1) with (Z.of_nat n) by lia.
  unfold array_get.
  destruct (Z.ltb_spec (Z.of_nat n) 0) as [Hneg | _]; [lia |].
  rewrite Nat2Z.id.
  assert (Hn : length (take n lines) = n) by (rewrite length_take; lia).
  rewrite lookup_app_r by lia. rewrite Hn, Nat.sub_diag. cbn [lookup list_lookup mbind option_bind].
  rewrite insert_app_r_alt by lia. rewrite Hn, Nat.sub_diag. reflexivity.
Qed.

Lemma strip_trailing_end (p : Z -> bool) (s : jsstring) :
  match reverse (strip_trailing p s) with
  | c :: _ => p c = false
  | [] => True
  end.
Proof.
  unfold strip_trailing. rewrite reverse_involutive.
  induction (reverse s) as [| c r IH]; [exact I |].
  cbn [drop_while]. destruct (p c) eqn:Hc; [exact IH | exact Hc].
Qed.

Lemma stripped_has_no_dot (s : jsstring) :
  ends_with FULL_STOP (strip_trailing is_dot s) = false
  /\ ends_with MIDDLE_DOT (strip_trailing is_dot s) = false.
Proof.
  unfold ends_with. pose proof (strip_trailing_end is_dot s) as Hend.
  destruct (reverse (strip_trailing is_dot s)) as [| c r]; [split; reflexivity |].
  unfold is_dot in Hend. apply orb_false_iff in Hend. exact Hend.
Qed.

Lemma ellipsis_appended (s : jsstring) :
  ends_with ELLIPSIS (s ++ [ELLIPSIS]) = true
  /\ ends_with_single ELLIPSIS (s ++ [ELLIPSIS]) = negb (ends_with ELLIPSIS s).
Proof.
  unfold ends_with, ends_with_single. rewrite reverse_snoc.
  destruct (reverse s) as [| c r]; split; reflexivity.
Qed.

Lemma line_imap (f : nat -> jsstring -> fillText) (lines : list jsstring) :
  (forall index l, line (f index l) = l) -> List.map line (imap f lines) = lines.
Proof.
  revert f. induction lines as [| l rest IH]; intros f Hf; [reflexivity |].
  cbn [imap List.map]. rewrite Hf. f_equal. apply IH. intros index l'. apply Hf.
Qed.

Lemma drawn_lines (x y lineHeight : Z) (lines : list jsstring) :
  List.map line (draw_lines x y lineHeight lines) = lines
  /\ length (draw_lines x y lineHeight lines) = length lines.
Proof.
  unfold draw_lines. split; [| apply length_imap].
  apply line_imap. reflexivity.
Qed.

Lemma code_units_monotone : monotone code_units.
Proof.
  intros a b. unfold code_units. rewrite <- !Zle_Qle, !length_app. cbn [length].
  split; lia.
Qed.

End TruncationFacts.

Section DrawFacts.

Import Wrap.

(** C5, as the code has it. For every text, every measurement and every
    width, each line of the wrap is a group of consecutive whole words
    joined by single spaces, and the non-empty words of the lines, in
    order, are those of the text: no word is split. Under a monotone
    measurement a word wider than the line is alone on its line. When
    [maxLines >= 1] and the wrap has more lines than that, exactly
    [maxLines] lines are drawn: the first [maxLines - 1] unchanged, and
    the next one with its trailing full stops and middle dots removed and
    one ellipsis appended, which is the only ellipsis at its end when the
    line so stripped does not itself end with one. *)
Theorem wrap_keeps_words_whole (measureText : jsstring -> Q) (text : jsstring)
    (x y : Z) (maxWidth : Q) (lineHeight maxLines : Z) :
  exists groups : list (list jsstring),
    wrap measureText maxWidth text = List.map line_of groups
    /\ List.filter truthy (concat groups) = List.filter truthy (split_ws text)
    /\ Forall (fun group => truthy (line_of group) = true) groups
    /\ (monotone measureText ->
        Forall (alone_if_wide measureText maxWidth) groups)
    /\ (1 <= maxLines < Z.of_nat (length (wrap measureText maxWidth text)) ->
        exists (cut : jsstring) (drawn : list fillText),
          wrap measureText maxWidth text !! Z.to_nat (maxLines - 1) = Some cut
          /\ drawWrappedText measureText text x y maxWidth lineHeight maxLines
             = Some (drawn, y + maxLines * lineHeight)
          /\ Z.of_nat (length drawn) = maxLines
          /\ List.map line drawn
             = take (Z.to_nat (maxLines - 1)) (wrap measureText maxWidth text)
               ++ [strip_trailing is_dot cut ++ [ELLIPSIS]]
          /\ ends_with ELLIPSIS (strip_trailing is_dot cut ++ [ELLIPSIS]) = true
          /\ ends_with FULL_STOP (strip_trailing is_dot cut) = false
          /\ ends_with MIDDLE_DOT (strip_trailing is_dot cut) = false
          /\ (ends_with ELLIPSIS (strip_trailing is_dot cut) = false ->
              ends_with_single ELLIPSIS (strip_trailing is_dot cut ++ [ELLIPSIS])
                = true)).
Proof.
  destruct (wrap_words_groups measureText maxWidth (split_ws text))
    as (groups & Hwrap & Hwords & Hlines & Halone).
  exists groups. fold (wrap measureText maxWidth text) in Hwrap.
  split; [exact Hwrap |]. split; [exact Hwords |]. split; [exact Hlines |].
  split; [exact Halone |].
  intros Hmany.
  destruct (truncate_long maxLines (wrap measureText maxWidth text) Hmany)
    as (cut & Hcut & Htrunc).
  exists cut.
  exists (draw_lines x y lineHeight
            (take (Z.to_nat (maxLines - 1)) (wrap measureText maxWidth text)
             ++ [strip_trailing is_dot cut ++ [ELLIPSIS]])).
  assert (Hlen : Z.of_nat (length
            (take (Z.to_nat (maxLines - 1)) (wrap measureText maxWidth text)
             ++ [strip_trailing is_dot cut ++ [ELLIPSIS]])) = maxLines).
  { rewrite length_app, length_take. cbn [length]. lia. }
  destruct (drawn_lines x y lineHeight
              (take (Z.to_nat (maxLines - 1)) (wrap measureText maxWidth text)
               ++ [strip_trailing is_dot cut ++ [ELLIPSIS]])) as [Hmap Hdrawn].
  destruct (stripped_has_no_dot cut) as [Hstop Hmiddle].
  destruct (ellipsis_appended (strip_trailing is_dot cut)) as [Hends Hsingle].
  split; [exact Hcut |].
  split.
  { unfold drawWrappedText. rewrite Htrunc. cbn [mbind option_bind].
    rewrite Hlen. reflexivity. }
  split; [now rewrite Hdrawn |].
  split; [exact Hmap |].
  split; [exact Hends |]. split; [exact Hstop |]. split; [exact Hmiddle |].
  intros Hnone. rewrite Hsingle, Hnone. reflexivity.
Qed.

(** The toss report on a surface twelve code units wide, cut to two lines. *)
Lemma wrap_keeps_words_whole_witness :
  monotone code_units
  /\ 1 <= 2 < Z.of_nat (length (wrap code_units 12 toss_report))
  /\ wrap code_units 12 toss_report
     = [js "India wins"; js "the toss."; js "And elects"; js "to bat first"]
  /\ exists drawn : list fillText,
       drawWrappedText code_units toss_report 120 420 12 44 2 = Some (drawn, 508)
       /\ List.map line drawn = [js "India wins"; js "the toss" ++ [ELLIPSIS]].
Proof.
  assert (Hmany : 1 <= 2 < Z.of_nat (length (wrap code_units 12 toss_report)))
    by (vm_compute; split; [discriminate | reflexivity]).
  split; [exact code_units_monotone |].
  split; [exact Hmany |].
  split; [vm_compute; reflexivity |].
  destruct (wrap_keeps_words_whole code_units toss_report 120 420 12 44 2)
    as (groups & _ & _ & _ & _ & Hcut).
  destruct (Hcut Hmany) as (cut & drawn & Hline & Hdraw & _ & Hmap & _).
  exists drawn. split; [exact Hdraw |].
  rewrite Hmap.
  assert (Hsecond : wrap code_units 12 toss_report !! Z.to_nat (2 - 1)
                    = Some (js "the toss.")) by (vm_compute; reflexivity).
  rewrite Hsecond in Hline. injection Hline as <-.
  vm_compute. reflexivity.
Defined.

(** C5, as the specification words it, fails on a line that already ends
    with an ellipsis: the truncation strips full stops and middle dots
    only, and the visible last line then ends with two ellipsis markers. *)
Lemma wrap_doubles_an_ellipsis :
  wrap code_units 10 breaking_news
    = [js "Breaking" ++ [ELLIPSIS]; js "more news"; js "follows"]
  /\ (exists drawn : list fillText,
        drawWrappedText code_units breaking_news 120 230 10 72 1 = Some (drawn, 302)
        /\ List.map line drawn = [js "Breaking" ++ [ELLIPSIS; ELLIPSIS]]
        /\ Forall (fun l => ends_with_single ELLIPSIS l = false) (List.map line drawn)).
Proof.
  split; [vm_compute; reflexivity |].
  eexists. split; [vm_compute; reflexivity |].
  split; [vm_compute; reflexivity |].
  repeat constructor.
Qed.

(** Without monotonicity a wide word need not stay alone: a measurement
    that finds the word wide and the line holding it narrow packs both
    words on one line. *)
Lemma wide_word_shares_line_when_not_monotone :
  wider (only_word_is_wide (js "Thiruvananthapuram") (js "Thiruvananthapuram")) 10 = true
  /\ wrap (only_word_is_wide (js "Thiruvananthapuram")) 10
        (js "Thiruvananthapuram rains")
     = [js "Thiruvananthapuram rains"].
Proof. split; vm_compute; reflexivity. Qed.

End DrawFacts.

(** ** The orchestrator *)

Section OrchestratorFacts.

Import Feed Orchestrator.

Lemma kept_refl (s : state) : kept s s.
Proof. repeat split. Qed.

Lemma kept_trans (s1 s2 s3 : state) : kept s1 s2 -> kept s2 s3 -> kept s1 s3.
Proof. unfold kept. intros (-> & -> & ->) (-> & -> & ->). repeat split. Qed.

Lemma quiet_ret {A} (a : A) : quiet (ret a).
Proof. intros s s' tr r [= <- <- <-]. split; [apply kept_refl | constructor]. Qed.

Lemma quiet_get : quiet get.
Proof. intros s s' tr r [= <- <- <-]. split; [apply kept_refl | constructor]. Qed.

Lemma quiet_throw {A} (t : thrown) : quiet (@throw A t).
Proof. intros s s' tr r [= <- <- <-]. split; [apply kept_refl | constructor]. Qed.

Lemma quiet_call {A} (e : event) (res : result A) :
  is_revoke e = false -> is_publish e = false -> quiet (call e res).
Proof.
  intros He Hp s s' tr r [= <- <- <-]. split; [apply kept_refl |].
  constructor; [split; assumption | constructor].
Qed.

Lemma quiet_modify (f : state -> state) :
  (forall s, kept s (f s)) -> quiet (modify f).
Proof. intros Hf s s' tr r [= <- <- <-]. split; [apply Hf | constructor]. Qed.

Lemma quiet_bind {A B} (m : M A) (k : A -> M B) :
  quiet m -> (forall a, quiet (k a)) -> quiet (bind m k).
Proof.
  intros Hm Hk s s' tr r. unfold bind.
  destruct (m s) as [[s1 tr1] [a | t]] eqn:Em.
  - destruct (k a s1) as [[s2 tr2] r2] eqn:Ek. intros [= <- <- <-].
    destruct (Hm _ _ _ _ Em) as [K1 F1]. destruct (Hk a _ _ _ _ Ek) as [K2 F2].
    split; [eapply kept_trans; eassumption | now apply Forall_app].
  - intros [= <- <- <-]. exact (Hm _ _ _ _ Em).
Qed.

Lemma reaches_call {A} (p : event -> bool) (e : event) (res : result A) :
  p e = true -> reaches p (call e res).
Proof. intros He s s' tr a [= <- <- _]. now constructor. Qed.

Lemma reaches_bind_l {A B} (p : event -> bool) (m : M A) (k : A -> M B) :
  reaches p m -> reaches p (bind m k).
Proof.
  intros Hm s s' tr b. unfold bind.
  destruct (m s) as [[s1 tr1] [a | t]] eqn:Em; [| discriminate].
  destruct (k a s1) as [[s2 tr2] r2]. intros [= <- <- ->].
  apply Exists_app. left. exact (Hm _ _ _ _ Em).
Qed.

Lemma reaches_bind_r {A B} (p : event -> bool) (m : M A) (k : A -> M B) :
  (forall a, reaches p (k a)) -> reaches p (bind m k).
Proof.
  intros Hk s s' tr b. unfold bind.
  destruct (m s) as [[s1 tr1] [a | t]] eqn:Em; [| discriminate].
  destruct (k a s1) as [[s2 tr2] r2] eqn:Ek. intros [= <- <- ->].
  apply Exists_app. right. exact (Hk a _ _ _ _ Ek).
Qed.

Lemma quiet_logger (messages : list jsstring) : quiet (logger messages).
Proof.
  induction messages as [| message rest IH]; [apply quiet_ret |].
  cbn [logger]. apply quiet_bind; [apply quiet_get |]. intros s.
  apply quiet_bind; [| intros _; exact IH].
  destruct (isMountedRef s); [| apply quiet_ret].
  apply quiet_modify. intros s0. repeat split.
Qed.

Lemma quiet_ensureFFmpeg (env : collaborators) : quiet (ensureFFmpeg env).
Proof.
  unfold ensureFFmpeg. apply quiet_bind; [apply quiet_get |]. intros s.
  destruct (ffmpegRef s); [apply quiet_ret |].
  apply quiet_bind; [apply quiet_logger |]. intros _.
  apply quiet_bind; [now apply quiet_call |]. intros _.
  apply quiet_modify. intros s0. repeat split.
Qed.

Lemma quiet_render_slides (env : collaborators) (total : nat)
    (items : list IndiaUpdate) :
  forall index slideNames, quiet (render_slides env total items index slideNames).
Proof.
  induction items as [| update rest IH]; intros index slideNames;
    [apply quiet_ret |].
  cbn [render_slides].
  apply quiet_bind; [now apply quiet_call |]. intros slideData.
  apply quiet_bind; [now apply quiet_call |]. intros _. apply IH.
Qed.

Lemma settles_bind {A} (closure : state) (final : Z) (m : M A) (k : A -> M unit) :
  quiet m -> (forall a, settles closure final (k a)) ->
  settles closure final (bind m k).
Proof.
  intros Hm Hk s s' tr r. unfold bind.
  destruct (m s) as [[s1 tr1] [a | t]] eqn:Em.
  - destruct (k a s1) as [[s2 tr2] r2] eqn:Ek. intros [= <- <- <-].
    destruct (Hm _ _ _ _ Em) as [K1 F1]. pose proof (Hk a _ _ _ _ Ek) as H2.
    destruct r2 as [[] | t2].
    + destruct H2 as (pre & url & -> & Fpre & Hurl & Hdur & Herr).
      exists (tr1 ++ pre), url. rewrite <- app_assoc.
      split; [reflexivity |]. split; [now apply Forall_app |].
      split; [exact Hurl |]. split; [exact Hdur |].
      destruct K1 as (_ & _ & K1). congruence.
    + destruct H2 as [K2 F2].
      split; [eapply kept_trans; eassumption | now apply Forall_app].
  - intros [= <- <- <-]. exact (Hm _ _ _ _ Em).
Qed.

(** The end of the [try] block: revoke the old handle, publish the new. *)
Lemma settles_publish (closure : state) (final : Z) (url : jsstring) :
  settles closure final
    (revoke_if_set (videoUrl closure) ;;
     publish url ;;
     modify (setVideoDuration (Some final))).
Proof.
  intros s s' tr r.
  unfold publish, bind, revoke_if_set, revocations, modify, call, ret.
  destruct (videoUrl closure) as [u |]; [destruct (truthy u) |];
    intros [= <- <- <-]; exists [], url; repeat split; constructor.
Qed.

Lemma settles_generation (env : collaborators) (closure : state) :
  settles closure
    (Planner.finalDuration (Z.of_nat (length (updates closure))))
    (generation env closure).
Proof.
  unfold generation, Planner.finalDuration. cbv zeta.
  apply settles_bind; [apply quiet_ensureFFmpeg | intros _].
  apply settles_bind; [apply quiet_render_slides | intros slideNames].
  apply settles_bind; [now apply quiet_call | intros _].
  apply settles_bind.
  { destruct (Wav.generateSilenceWav _); [apply quiet_ret | apply quiet_throw]. }
  intros silence.
  apply settles_bind; [now apply quiet_call | intros _].
  apply settles_bind; [apply quiet_logger | intros _].
  apply settles_bind; [now apply quiet_call | intros _].
  apply settles_bind; [now apply quiet_call | intros data].
  apply settles_bind; [now apply quiet_call | intros url].
  apply settles_publish.
Qed.

Lemma generation_reaches (env : collaborators) (closure : state) :
  updates closure <> [] ->
  reaches is_render (generation env closure)
  /\ reaches is_run (generation env closure)
  /\ reaches is_create (generation env closure).
Proof.
  intros Hne. unfold generation. cbv zeta.
  split; [| split].
  - apply reaches_bind_r. intros _. apply reaches_bind_l.
    destruct (updates closure) as [| update rest]; [congruence |].
    cbn [render_slides]. apply reaches_bind_l. now apply reaches_call.
  - do 6 (apply reaches_bind_r; intros ?).
    apply reaches_bind_l. now apply reaches_call.
  - do 8 (apply reaches_bind_r; intros ?).
    apply reaches_bind_l. now apply reaches_call.
Qed.

(** The handler, once past its guard, in terms of the [try] block. *)
Lemma handle_nonempty (env : collaborators) (closure s : state) :
  updates closure <> [] ->
  handleGenerateVideo env closure s
  = match generation env closure (started s) with
    | (s1, tr1, Ok _) => (finish s1, tr1, Ok tt)
    | (s1, tr1, Throw t) =>
        (finish (setError (Some (error_message t)) s1), tr1, Ok tt)
    end.
Proof.
  intros Hne. unfold handleGenerateVideo.
  destruct (updates closure) as [| update rest] eqn:Hup; [congruence |].
  cbn [length Nat.eqb]. unfold bind at 1 2 3. cbn [modify].
  unfold try_catch_finally, started, finish.
  destruct (generation env closure _) as [[s1 tr1] [[] | t]].
  - unfold bind, get, modify, ret. destruct (isMountedRef s1);
      now rewrite app_nil_r.
  - unfold bind, get, modify, ret. cbn [isMountedRef setError].
    destruct (isMountedRef s1); now rewrite app_nil_r.
Qed.

Lemma handle_empty (env : collaborators) (closure s : state) :
  updates closure = [] ->
  handleGenerateVideo env closure s
  = (setError (Some precondition_message) s, [], Ok tt).
Proof. intros Hup. unfold handleGenerateVideo. rewrite Hup. reflexivity. Qed.

Lemma cleanup_result (installed : option jsstring) (s : state) :
  videoUrl_cleanup installed s
  = (set_isMountedRef false s, revocations installed, Ok tt).
Proof.
  unfold videoUrl_cleanup, revoke_if_set, revocations, bind, modify, call, ret.
  destruct installed as [u |]; [destruct (truthy u) |]; reflexivity.
Qed.

Lemma finish_fields (s : state) :
  videoUrl (finish s) = videoUrl s
  /\ videoDuration (finish s) = videoDuration s
  /\ error (finish s) = error s.
Proof. unfold finish. destruct (isMountedRef s); repeat split. Qed.

Lemma revocations_revoke (url : option jsstring) :
  Forall (fun e => e = RevokeObjectURL (default [] url) /\ is_Some url)
    (revocations url).
Proof.
  destruct url as [u |]; cbn; [destruct (truthy u) |]; repeat constructor; eauto.
Qed.

Lemma Exists_in_quiet_part (p : event -> bool) (pre post : list event) :
  Forall (fun e => p e = false) post ->
  Exists (fun e => p e = true) (pre ++ post) ->
  Exists (fun e => p e = true) pre.
Proof.
  intros Hpost Hex. apply Exists_app in Hex. destruct Hex as [Hex | Hex];
    [exact Hex |].
  exfalso. apply Exists_exists in Hex. destruct Hex as (e & Hin & He).
  rewrite Forall_forall in Hpost. rewrite (Hpost e Hin) in He. discriminate.
Qed.

Lemma closing_calls_kinds (old : option jsstring) (url : jsstring) :
  Forall (fun e => is_render e = false /\ is_run e = false /\ is_create e = false)
    (closing_calls old url).
Proof.
  unfold closing_calls, revocations.
  destruct old as [u |]; [destruct (truthy u) |]; destruct (decide _);
    repeat constructor.
Qed.

(** The three ways a request can go: rejected, failed, or succeeded. *)
Lemma request_cases (env : collaborators) (s : state) :
  (updates s = []
   /\ request env s = (setError (Some precondition_message) s, []))
  \/ (updates s <> []
      /\ exists (s' : state) (tr : list event) (message : jsstring),
           request env s = (s', tr)
           /\ Forall (fun e => is_revoke e = false /\ is_publish e = false) tr
           /\ videoUrl s' = videoUrl s
           /\ videoDuration s' = videoDuration s
           /\ error s' = Some message)
  \/ (updates s <> []
      /\ exists (s' : state) (pre : list event) (url : jsstring),
           request env s = (s', pre ++ closing_calls (videoUrl s) url)
           /\ Forall (fun e => is_revoke e = false /\ is_publish e = false) pre
           /\ Exists (fun e => is_render e = true) pre
           /\ Exists (fun e => is_run e = true) pre
           /\ Exists (fun e => is_create e = true) pre
           /\ error s' = None
           /\ videoUrl s' = Some url
           /\ videoDuration s'
              = Some (Planner.finalDuration (Z.of_nat (length (updates s))))).
Proof.
  destruct (updates s) as [| update rest] eqn:Hup.
  { left. split; [reflexivity |]. unfold request.
    rewrite handle_empty by exact Hup. cbn [videoUrl setError].
    destruct (decide (videoUrl s = videoUrl s)); [reflexivity | congruence]. }
  right.
  assert (Hne : updates s <> []) by (rewrite Hup; discriminate).
  rewrite <- Hup. unfold request. rewrite handle_nonempty by exact Hne.
  destruct (generation env s (started s)) as [[s1 tr1] [[] | t]] eqn:Egen.
  - right. split; [exact Hne |].
    pose proof (settles_generation env s _ _ _ _ Egen) as Hset. cbn in Hset.
    destruct Hset as (pre & url & -> & Fpre & Hurl & Hdur & Herr).
    destruct (generation_reaches env s Hne) as (Rrender & Rrun & Rcreate).
    destruct (finish_fields s1) as (Furl & Fdur & Ferr).
    assert (Hpost : Forall (fun e => is_render e = false /\ is_run e = false
                                     /\ is_create e = false)
                      (revocations (videoUrl s) ++ [SetVideoUrl url])).
    { unfold revocations. destruct (videoUrl s) as [u |]; [destruct (truthy u) |];
        repeat constructor. }
    assert (Hrender : Exists (fun e => is_render e = true) pre).
    { eapply Exists_in_quiet_part; [| exact (Rrender _ _ _ _ Egen)].
      eapply Forall_impl; [exact Hpost |]. now intros e (? & _). }
    assert (Hrun : Exists (fun e => is_run e = true) pre).
    { eapply Exists_in_quiet_part; [| exact (Rrun _ _ _ _ Egen)].
      eapply Forall_impl; [exact Hpost |]. now intros e (_ & ? & _). }
    assert (Hcreate : Exists (fun e => is_create e = true) pre).
    { eapply Exists_in_quiet_part; [| exact (Rcreate _ _ _ _ Egen)].
      eapply Forall_impl; [exact Hpost |]. now intros e (_ & _ & ?). }
    unfold closing_calls.
    destruct (decide (videoUrl (finish s1) = videoUrl s)) as [Hsame | Hother].
    + exists (finish s1), pre, url.
      destruct (decide (Some url = videoUrl s)) as [_ | Hdiff]; [| congruence].
      repeat split; try assumption; congruence.
    + rewrite cleanup_result.
      exists (set_isMountedRef false (finish s1)), pre, url.
      destruct (decide (Some url = videoUrl s)) as [Hsame | _]; [congruence |].
      rewrite <- !app_assoc.
      split; [reflexivity |]. split; [exact Fpre |].
      repeat split; try assumption; cbn [error videoUrl videoDuration set_isMountedRef];
        congruence.
  - left. split; [exact Hne |].
    destruct (settles_generation env s _ _ _ _ Egen) as [(Kurl & Kdur & Kerr) Ftr].
    destruct (finish_fields (setError (Some (error_message t)) s1))
      as (Furl & Fdur & Ferr).
    cbn [videoUrl videoDuration error setError started setLogs setIsGenerating] in *.
    destruct (decide (videoUrl (finish (setError (Some (error_message t)) s1))
                      = videoUrl s)) as [_ | Hother]; [| congruence].
    exists (finish (setError (Some (error_message t)) s1)), tr1, (error_message t).
    repeat split; try assumption; congruence.
Qed.

(** The second request in the studio, call by call. *)
Lemma studio_second_run :
  request studio ready_with_video
  = (after_second_run,
     second_run_calls
     ++ [RevokeObjectURL (js "blob:india-pulse/1");
         SetVideoUrl (js "blob:india-pulse/2");
         RevokeObjectURL (js "blob:india-pulse/1")]).
Proof.
  assert (Hsilence : Wav.generateSilenceWav 240 = Some silence_240).
  { rewrite generateSilenceWav_shape by (vm_compute; congruence). reflexivity. }
  unfold request. rewrite handle_nonempty by discriminate.
  unfold generation.
  change (Planner.perSlideDuration (Z.of_nat (length (updates ready_with_video))))
    with 240.
  change (240 * Z.of_nat (length (updates ready_with_video))) with 240.
  cbv zeta. rewrite Hsilence.
  cbn -[silence_240 encode Manifest.buildConcatScript encoder_args js].
  reflexivity.
Qed.

(** C6, as the code has it. A request made while the item list is empty
    is rejected before any collaborator is called: no encoder is loaded or
    run, nothing is rendered, written or allocated, and no handle is
    created or revoked. The rejection is reported through the error text,
    which is set to the precondition message; every other part of the
    state is left as it was. *)
Theorem empty_request_rejected (env : collaborators) (s : state) :
  updates s = [] ->
  request env s = (setError (Some precondition_message) s, [])
  /\ handleGenerateVideo env s s = (setError (Some precondition_message) s, [], Ok tt)
  /\ snd (request env s) = []
  /\ error (fst (request env s)) = Some precondition_message
  /\ updates (fst (request env s)) = updates s
  /\ loadingUpdates (fst (request env s)) = loadingUpdates s
  /\ narration (fst (request env s)) = narration s
  /\ isGenerating (fst (request env s)) = isGenerating s
  /\ videoUrl (fst (request env s)) = videoUrl s
  /\ videoDuration (fst (request env s)) = videoDuration s
  /\ logs (fst (request env s)) = logs s
  /\ ffmpegRef (fst (request env s)) = ffmpegRef s
  /\ isMountedRef (fst (request env s)) = isMountedRef s.
Proof.
  intros Hup.
  destruct (request_cases env s) as [[_ Hreq] | [[Hne _] | [Hne _]]];
    try congruence.
  rewrite Hreq. split; [reflexivity |].
  split; [now apply handle_empty |].
  repeat split.
Qed.

Lemma empty_request_rejected_witness :
  updates idle = []
  /\ request studio idle = (setError (Some precondition_message) idle, [])
  /\ isGenerating (fst (request studio idle)) = false
  /\ videoUrl (fst (request studio idle)) = None.
Proof.
  assert (Hup : updates idle = []) by reflexivity.
  split; [exact Hup |].
  destruct (empty_request_rejected studio idle Hup)
    as (Hreq & _ & _ & _ & _ & _ & _ & Hgen & Hurl & _).
  split; [exact Hreq |]. split; [exact Hgen | exact Hurl].
Defined.

(** C6, as the specification words it, fails on the error text: the
    rejected request does change the state, from no error to the
    precondition message. *)
Lemma empty_request_sets_error :
  updates idle = []
  /\ error idle = None
  /\ error (fst (request studio idle)) = Some precondition_message
  /\ fst (request studio idle) <> idle.
Proof.
  split; [reflexivity |]. split; [reflexivity |]. split; [reflexivity |].
  intros Heq. apply (f_equal error) in Heq. discriminate Heq.
Qed.

(** C9. A request that ends with an error text, whichever stage threw,
    leaves the video on offer and its duration as they were and revokes
    no handle. A request revokes a handle only when it ends without error,
    having created and published a new video; a request that ends without
    error has done so. *)
Theorem failed_run_keeps_video (env : collaborators) (s : state) :
  (error (fst (request env s)) <> None ->
   videoUrl (fst (request env s)) = videoUrl s
   /\ videoDuration (fst (request env s)) = videoDuration s
   /\ Forall (fun e => is_revoke e = false) (snd (request env s)))
  /\ (Exists (fun e => is_revoke e = true) (snd (request env s)) ->
      error (fst (request env s)) = None)
  /\ (error (fst (request env s)) = None ->
      exists url : jsstring,
        videoUrl (fst (request env s)) = Some url
        /\ videoDuration (fst (request env s))
           = Some (Planner.finalDuration (Z.of_nat (length (updates s))))
        /\ Exists (fun e => is_create e = true) (snd (request env s))).
Proof.
  destruct (request_cases env s)
    as [[Hup Hreq]
       | [[Hne (s' & tr & message & Hreq & Ftr & Hurl & Hdur & Herr)]
         | [Hne (s' & pre & url & Hreq & Fpre & _ & _ & Hcreate
                 & Herr & Hurl & Hdur)]]];
    rewrite Hreq; cbn [fst snd].
  - split; [intros _; repeat split; constructor |].
    split; [intros Hex; inversion Hex | discriminate].
  - assert (Fquiet : Forall (fun e => is_revoke e = false) tr)
      by (eapply Forall_impl; [exact Ftr |]; now intros e [? _]).
    split; [intros _; repeat split; assumption |].
    split; [| rewrite Herr; discriminate].
    intros Hex. exfalso. apply Exists_exists in Hex.
    destruct Hex as (e & Hin & He).
    rewrite Forall_forall in Fquiet. rewrite (Fquiet e Hin) in He. discriminate.
  - split; [intros Hbad; contradiction |].
    split; [intros _; exact Herr |].
    intros _. exists url. split; [exact Hurl |]. split; [exact Hdur |].
    apply Exists_app. now left.
Qed.

(** The canvas fails on the first slide of a second run. *)
Lemma failed_run_keeps_video_witness :
  error (fst (request studio_with_failing_canvas ready_with_video))
    = Some (js "Failed to initialise canvas rendering context.")
  /\ videoUrl (fst (request studio_with_failing_canvas ready_with_video))
     = Some (js "blob:india-pulse/1")
  /\ videoDuration (fst (request studio_with_failing_canvas ready_with_video))
     = Some 240
  /\ Forall (fun e => is_revoke e = false)
       (snd (request studio_with_failing_canvas ready_with_video)).
Proof.
  assert (Herr : error (fst (request studio_with_failing_canvas ready_with_video))
                 = Some (js "Failed to initialise canvas rendering context."))
    by (vm_compute; reflexivity).
  split; [exact Herr |].
  destruct (failed_run_keeps_video studio_with_failing_canvas ready_with_video)
    as (Hkeep & _ & _).
  destruct Hkeep as (Hurl & Hdur & Hquiet); [rewrite Herr; discriminate |].
  split; [exact Hurl |]. split; [exact Hdur | exact Hquiet].
Defined.

End OrchestratorFacts.

(** * Further properties *)

(** ** The feed route, beyond the contract *)

Section FeedEdges.

Import Feed.

Lemma drop_while_blank (s : jsstring) :
  Forall (fun c => is_space c = true) s -> drop_while is_space s = [].
Proof.
  induction 1 as [| c s Hc _ IH]; [reflexivity |].
  cbn [drop_while]. now rewrite Hc.
Qed.

Lemma trim_blank (s : jsstring) :
  Forall (fun c => is_space c = true) s -> trim s = [].
Proof. intros Hs. unfold trim. now rewrite drop_while_blank. Qed.

Lemma strip_final_full_stop_cases (s : jsstring) :
  (s = strip_final_full_stop s ++ [FULL_STOP])
  \/ (strip_final_full_stop s = s /\ Wrap.ends_with FULL_STOP s = false).
Proof.
  unfold strip_final_full_stop, Wrap.ends_with.
  destruct (reverse s) as [| c r] eqn:Hrev; [right; split; reflexivity |].
  destruct (Z.eqb_spec c FULL_STOP) as [-> | Hne].
  - left. rewrite <- (reverse_involutive s), Hrev, reverse_cons. reflexivity.
  - right. split; reflexivity.
Qed.

Lemma derived_summary_nonempty (p : RedditPost) : truthy (derived_summary p) = true.
Proof.
  unfold derived_summary. destruct (truthy (summarySource p)) eqn:Hs; [exact Hs |].
  reflexivity.
Qed.

Lemma cap_summary_nonempty (s : jsstring) :
  truthy s = true -> truthy (cap_summary s) = true.
Proof.
  intros Hs. destruct (cap_summary_cases s) as (_ & Hlong & Hshort).
  destruct (Z_lt_le_dec SUMMARY_CAP (Z.of_nat (length s))) as [Hl | Hl].
  - destruct (Hlong Hl) as [-> _].
    destruct (take 597 s) eqn:Ht; reflexivity.
  - now rewrite (Hshort Hl).
Qed.

(** X1. The summary of a normalized item is never empty: the trimmed body
    when there is one, the fallback sentence otherwise, and cutting a long
    one leaves 600 code units. This holds of the summary made of every
    post, and so of every item the route returns. *)
Theorem summary_never_empty (p : RedditPost) (posts : list child) :
  cap_summary (derived_summary p) <> []
  /\ (forall item, to_update p = Some item -> summary item <> [])
  /\ (forall items, normalize posts = Some items ->
        Forall (fun item => summary item <> []) items).
Proof.
  assert (Hone : forall q, cap_summary (derived_summary q) <> []).
  { intros q Hq.
    pose proof (cap_summary_nonempty _ (derived_summary_nonempty q)) as Ht.
    rewrite Hq in Ht. discriminate. }
  assert (Hitem : forall q item, to_update q = Some item -> summary item <> []).
  { intros q item Hq. destruct (to_update_Some _ _ Hq) as (_ & _ & _ & -> & _).
    apply Hone. }
  split; [apply Hone |]. split; [apply Hitem |].
  intros items Hitems. apply Forall_forall. intros item Hin.
  apply list_elem_of_In in Hin.
  destruct (normalize_items _ _ _ Hitems Hin) as (q & _ & Hq).
  exact (Hitem q item Hq).
Qed.

(** X2. A post whose body is blank (empty, or white space only) gets the
    fallback sentence: the title, less one full stop at its very end,
    between the two fixed clauses; the sentence is the summary, and that
    of the post's item, unless it is longer than 600 code units. *)
Theorem blank_body_falls_back (p : RedditPost) :
  Forall (fun c => is_space c = true) (selftext p) ->
  derived_summary p
    = js "Stay informed: " ++ strip_final_full_stop (title p)
      ++ js ". For the full context, visit the linked article."
  /\ (title p = strip_final_full_stop (title p) ++ [FULL_STOP]
      \/ (strip_final_full_stop (title p) = title p
          /\ Wrap.ends_with FULL_STOP (title p) = false))
  /\ (Z.of_nat (length (strip_final_full_stop (title p))) <= 536 ->
      cap_summary (derived_summary p)
        = js "Stay informed: " ++ strip_final_full_stop (title p)
          ++ js ". For the full context, visit the linked article."
      /\ forall item, to_update p = Some item ->
           summary item
           = js "Stay informed: " ++ strip_final_full_stop (title p)
             ++ js ". For the full context, visit the linked article.").
Proof.
  intros Hblank.
  assert (Hd : derived_summary p = fallback_summary p).
  { unfold derived_summary, summarySource. now rewrite (trim_blank _ Hblank). }
  split; [exact Hd |].
  split; [apply strip_final_full_stop_cases |].
  intros Hshort.
  assert (Hcap : cap_summary (derived_summary p) = fallback_summary p).
  { rewrite Hd. apply cap_summary_cases. unfold fallback_summary, SUMMARY_CAP.
    rewrite !length_app.
    change (length (js "Stay informed: ")) with 15%nat.
    change (length (js ". For the full context, visit the linked article."))
      with 49%nat.
    lia. }
  split; [exact Hcap |].
  intros item Hitem. destruct (to_update_Some _ _ Hitem) as (_ & _ & _ & -> & _).
  exact Hcap.
Qed.

Lemma blank_body_falls_back_witness :
  option_map summary
    (to_update
       {| id := Some (js "t3_9"); title := js "Markets rally."; selftext := js "  ";
          author := js "reporter"; created_utc := 1700000000;
          permalink := js "/r/india/comments/9"; stickied := false; over_18 := false;
          num_comments := None; upvote_ratio := None |})
  = Some (js "Stay informed: Markets rally. For the full context, visit the linked article.").
Proof.
  set (p := {| id := Some (js "t3_9"); title := js "Markets rally."; selftext := js "  ";
       author := js "reporter"; created_utc := 1700000000;
       permalink := js "/r/india/comments/9"; stickied := false; over_18 := false;
       num_comments := None; upvote_ratio := None |}).
  assert (Hblank : Forall (fun c => is_space c = true) (selftext p))
    by (repeat constructor).
  destruct (blank_body_falls_back p Hblank) as (_ & _ & Hsum).
  destruct Hsum as [_ Hitem]; [vm_compute; discriminate |].
  destruct (to_update p) as [item |] eqn:Hp; [| vm_compute in Hp; discriminate Hp].
  cbn [option_map]. rewrite (Hitem item eq_refl). reflexivity.
Defined.

Lemma normalize_at_most_ten (posts : list child) (items : list IndiaUpdate) :
  normalize posts = Some items -> (length items <= 10)%nat.
Proof. intros Hitems. now destruct (normalize_Some _ _ Hitems) as (_ & _ & ?). Qed.

(** A status with which the route can answer its body. *)
Lemma takes_body_cases (status : Z) :
  (takes_body status = true <->
   200 <= status <= 599 /\ status <> 204 /\ status <> 205 /\ status <> 304).
Proof. unfold takes_body. lia. Qed.

(** X3. What the route answers. Items are answered only to an upstream
    response that was [ok] and whose body was read: at most ten of them,
    one for each surviving record, each with a non-empty identifier and a
    link on reddit.com. An upstream response that was not [ok] is answered
    with the upstream status when that status, one of 200 to 599, allows a
    body. Everything else is answered with status 500 and the text of the
    unexpected error: an upstream that was not reached, a status that
    cannot carry the answer (304 among them), a body that could not be
    read, and a surviving record whose date no [Date] holds. *)
Theorem route_answers (r : upstream) :
  match GET r with
  | Items items =>
      (exists status payload,
         r = Answer true status (Some payload)
         /\ normalize (default [] (listing_data payload)) = Some items
         /\ length items = length (survivors (default [] (listing_data payload))))
      /\ (length items <= 10)%nat
      /\ Forall (fun item =>
                   update_id item <> []
                   /\ Manifest.has_prefix (js "https://www.reddit.com") (url item) = true)
           items
  | Error message status =>
      (message = js "Failed to fetch India updates."
       /\ (exists payload, r = Answer false status payload)
       /\ 200 <= status <= 599 /\ status <> 204 /\ status <> 205 /\ status <> 304)
      \/ (message = js "Unexpected error while fetching updates."
          /\ status = 500
          /\ (r = Unreachable
              \/ (exists upstream_status payload,
                    r = Answer false upstream_status payload
                    /\ (upstream_status < 200 \/ 599 < upstream_status
                        \/ upstream_status = 204 \/ upstream_status = 205
                        \/ upstream_status = 304))
              \/ (exists upstream_status, r = Answer true upstream_status None)
              \/ (exists upstream_status payload,
                    r = Answer true upstream_status (Some payload)
                    /\ Exists (fun p => MAX_TIME < Z.abs (created_utc p * 1000))
                         (survivors (default [] (listing_data payload))))))
  end.
Proof.
  destruct r as [| [|] status [payload |]]; cbn [GET].
  - right. split; [reflexivity |]. split; [reflexivity |]. now left.
  - set (posts := default [] (listing_data payload)).
    destruct (normalize posts) as [items |] eqn:Hitems.
    + destruct (normalize_Some _ _ Hitems) as (Hall & Hlen & Hten).
      split; [exists status, payload; repeat split; assumption |].
      split; [exact Hten |].
      apply Forall_forall. intros item Hin. apply list_elem_of_In in Hin.
      destruct (normalize_items _ _ _ Hitems Hin) as (p & Hp & Hitem).
      destruct (to_update_Some _ _ Hitem) as (_ & Hid & _ & _ & Hurl & _).
      pose proof (survivor_fields posts) as Hfields.
      rewrite Forall_forall in Hfields.
      destruct (Hfields p (proj2 (list_elem_of_In _ _) Hp)) as ((i & Hi & Hne) & _).
      rewrite Hid, Hurl, Hi. split; [exact Hne | reflexivity].
    + right. split; [reflexivity |]. split; [reflexivity |].
      do 3 right. exists status, payload. split; [reflexivity |].
      unfold normalize in Hitems. apply mapM_None_1 in Hitems.
      eapply Exists_impl; [exact Hitems |]. intros p Hp. now apply to_update_None.
  - right. split; [reflexivity |]. split; [reflexivity |].
    right. right. left. now exists status.
  - destruct (takes_body status) eqn:Hstatus.
    + left. apply takes_body_cases in Hstatus.
      split; [reflexivity |]. split; [now exists (Some payload) | exact Hstatus].
    + right. split; [reflexivity |]. split; [reflexivity |].
      right. left. exists status, (Some payload). split; [reflexivity |].
      unfold takes_body in Hstatus. lia.
  - destruct (takes_body status) eqn:Hstatus.
    + left. apply takes_body_cases in Hstatus.
      split; [reflexivity |]. split; [now exists None | exact Hstatus].
    + right. split; [reflexivity |]. split; [reflexivity |].
      right. left. exists status, None. split; [reflexivity |].
      unfold takes_body in Hstatus. lia.
Qed.

(** The route on the three kinds of failure behind its status 500, and on
    a feed it answers. *)
Lemma route_answers_witness :
  GET (Answer false 304 None) = unexpected
  /\ GET (Answer true 200 None) = unexpected
  /\ GET (Answer true 200 (Some {| listing_data := Some undated_feed |})) = unexpected
  /\ GET (Answer false 429 None) = Error (js "Failed to fetch India updates.") 429
  /\ exists items,
       GET (Answer true 200 (Some {| listing_data := Some gapped_feed |})) = Items items
       /\ length items = 9%nat.
Proof.
  split; [reflexivity |]. split; [reflexivity |].
  split; [vm_compute; reflexivity |]. split; [reflexivity |].
  pose proof (route_answers (Answer true 200 (Some {| listing_data := Some gapped_feed |})))
    as Hroute.
  destruct (GET (Answer true 200 (Some {| listing_data := Some gapped_feed |})))
    as [items | message status] eqn:Hget; [| vm_compute in Hget; discriminate Hget].
  exists items. split; [reflexivity |].
  destruct Hroute as ((st & payload & Heq & _ & ->) & _).
  injection Heq as <- <-. vm_compute. reflexivity.
Defined.

End FeedEdges.

(** ** The labels of the page *)

Section DisplayFacts.

Import Display.

Lemma unjs_js (s : string) : unjs (js s) = s.
Proof.
  unfold unjs. induction s as [| a s IH]; [reflexivity |].
  cbn [js List.map string_of_list_ascii].
  rewrite N2Z.id, ascii_N_embedding. f_equal. exact IH.
Qed.

(** Printing an integer and reading it back. *)
Lemma decimal_value_number_to_string (n : Z) :
  decimal_value (number_to_string n) = Some n.
Proof.
  unfold decimal_value, number_to_string. rewrite unjs_js.
  destruct (Z.to_int n) as [u | u] eqn:Hn.
  - destruct u as [| | | | | | | | | |] eqn:Hu;
      try (rewrite NilZero.isi by discriminate; cbn [option_map];
           rewrite <- Hn, DecimalZ.of_to; reflexivity).
    rewrite NilZero.isi_posnil. cbn [option_map].
    rewrite <- (DecimalZ.of_to n), Hn. reflexivity.
  - destruct u as [| | | | | | | | | |] eqn:Hu;
      try (rewrite NilZero.isi by discriminate; cbn [option_map];
           rewrite <- Hn, DecimalZ.of_to; reflexivity).
    rewrite NilZero.isi_negnil. cbn [option_map].
    rewrite <- (DecimalZ.of_to n), Hn. reflexivity.
Qed.

Lemma seconds_two_digits (k : Z) :
  0 <= k < 60 ->
  length (padStart2 (number_to_string k)) = 2%nat
  /\ decimal_value (padStart2 (number_to_string k)) = Some k.
Proof.
  intros Hk.
  assert (Hall : forallb two_digits_ok (seq 0 60) = true) by (vm_compute; reflexivity).
  rewrite forallb_forall in Hall.
  specialize (Hall (Z.to_nat k)).
  assert (Hin : In (Z.to_nat k) (seq 0 60)) by (apply in_seq; lia).
  apply Hall in Hin. unfold two_digits_ok in Hin.
  rewrite Z2Nat.id in Hin by lia.
  apply andb_prop in Hin. destruct Hin as [Hlen Hval].
  split; [now apply Nat.eqb_eq |].
  destruct (decimal_value (padStart2 (number_to_string k))) as [v |];
    [| discriminate].
  apply Z.eqb_eq in Hval. now subst.
Qed.

(** X4. The label of a finished render. Without a duration, or with a
    duration of zero, it is the placeholder. For a duration of [d] whole
    seconds, from 1 up to the largest integer that a number holds exactly,
    it is "m min ss sec" where [m] spells the whole minutes, [ss] is
    exactly two characters spelling the remaining seconds, and the two
    numbers together give [d] back. *)
Theorem formatDuration_reads_back (d : Z) :
  1 <= d <= MAX_SAFE_INTEGER ->
  formatDuration None = js "4 min runtime"
  /\ formatDuration (Some 0) = js "4 min runtime"
  /\ exists minutes seconds : jsstring,
       formatDuration (Some d) = minutes ++ js " min " ++ seconds ++ js " sec"
       /\ length seconds = 2%nat
       /\ decimal_value minutes = Some (d / 60)
       /\ decimal_value seconds = Some (d mod 60)
       /\ 60 * (d / 60) + d mod 60 = d.
Proof.
  intros [Hd _]. split; [reflexivity |]. split; [reflexivity |].
  exists (number_to_string (d / 60)), (padStart2 (number_to_string (d mod 60))).
  assert (Hrem : Z.rem d 60 = d mod 60) by (apply Z.rem_mod_nonneg; lia).
  destruct (seconds_two_digits (d mod 60)) as [Hlen Hval];
    [apply Z.mod_pos_bound; lia |].
  split.
  { unfold formatDuration. destruct (Z.eqb_spec d 0); [lia |].
    cbv zeta. now rewrite Hrem. }
  split; [exact Hlen |].
  split; [apply decimal_value_number_to_string |].
  split; [exact Hval |].
  pose proof (Z.div_mod d 60). lia.
Qed.

Lemma formatDuration_reads_back_witness :
  1 <= 245 <= MAX_SAFE_INTEGER
  /\ formatDuration (Some 245) = js "4 min 05 sec"
  /\ exists minutes seconds : jsstring,
       formatDuration (Some 245) = minutes ++ js " min " ++ seconds ++ js " sec"
       /\ decimal_value minutes = Some 4
       /\ decimal_value seconds = Some 5.
Proof.
  assert (Hd : 1 <= 245 <= MAX_SAFE_INTEGER) by (vm_compute; split; discriminate).
  split; [exact Hd |]. split; [reflexivity |].
  destruct (formatDuration_reads_back 245 Hd)
    as (_ & _ & m & ss & Hfmt & _ & Hm & Hs & _).
  exists m, ss. split; [exact Hfmt |]. split; [exact Hm | exact Hs].
Defined.

(** X5. The badge beside the target length rounds the minutes to the
    nearest and shows the remaining seconds beside them. For a total of
    whole minutes plus less than thirty seconds the two numbers add up to
    the total; from thirty seconds on they add up to a minute more. *)
Theorem badge_rounds_minutes (totalDuration : Z) :
  0 < totalDuration ->
  current_cut totalDuration
    = Some (js "Current cut " ++ [MIDDLE_DOT] ++ js " "
            ++ number_to_string (badge_minutes totalDuration) ++ js " min "
            ++ number_to_string (badge_seconds totalDuration) ++ js " sec")
  /\ badge_seconds totalDuration = totalDuration mod 60
  /\ (totalDuration mod 60 < 30 ->
      badge_minutes totalDuration = totalDuration / 60
      /\ 60 * badge_minutes totalDuration + badge_seconds totalDuration
         = totalDuration)
  /\ (30 <= totalDuration mod 60 ->
      badge_minutes totalDuration = totalDuration / 60 + 1
      /\ 60 * badge_minutes totalDuration + badge_seconds totalDuration
         = totalDuration + 60).
Proof.
  intros Hpos.
  assert (Hrem : Z.rem totalDuration 60 = totalDuration mod 60)
    by (apply Z.rem_mod_nonneg; lia).
  split.
  { unfold current_cut. destruct (Z.ltb_spec 0 totalDuration); [reflexivity | lia]. }
  split; [exact Hrem |].
  unfold badge_minutes, badge_seconds, round_div. rewrite Hrem.
  pose proof (Z.div_mod totalDuration 60 ltac:(lia)) as Hdm.
  pose proof (Z.mod_pos_bound totalDuration 60 ltac:(lia)) as Hb.
  split; intros Hs.
  - assert (Hq : (2 * totalDuration + 60) / (2 * 60) = totalDuration / 60).
    { symmetry. apply (Z.div_unique _ _ _ (2 * (totalDuration mod 60) + 60)); lia. }
    rewrite Hq. lia.
  - assert (Hq : (2 * totalDuration + 60) / (2 * 60) = totalDuration / 60 + 1).
    { symmetry. apply (Z.div_unique _ _ _ (2 * (totalDuration mod 60) - 60)); lia. }
    rewrite Hq. lia.
Qed.

Lemma badge_rounds_minutes_witness :
  0 < 280
  /\ Planner.totalDuration 7 = 280
  /\ badge_minutes 280 = 5 /\ badge_seconds 280 = 40
  /\ formatDuration (Some 280) = js "4 min 40 sec".
Proof.
  split; [lia |].
  destruct (badge_rounds_minutes 280 ltac:(lia)) as (_ & Hsec & _ & Hup).
  destruct Hup as [Hmin _]; [vm_compute; discriminate |].
  split; [reflexivity |]. split; [exact Hmin |]. split; reflexivity.
Defined.

End DisplayFacts.

(** ** The narration and the fetch *)

Section FetchFacts.

Import Feed Orchestrator Narration Fetch.

Variable toLocaleString : Z -> jsstring.

Lemma paragraph_nonempty (index : nat) (item : IndiaUpdate) :
  truthy (paragraph toLocaleString index item) = true.
Proof. reflexivity. Qed.

Lemma join_nonempty (sep : jsstring) (parts : list jsstring) :
  parts <> [] -> Forall (fun p => truthy p = true) parts ->
  truthy (join sep parts) = true.
Proof.
  intros Hne Hall. destruct parts as [| p [| q rest]]; [congruence | |].
  - now inversion Hall.
  - rewrite join_cons_cons. inversion Hall as [| ? ? Hp _]; subst.
    destruct p; [discriminate | reflexivity].
Qed.

(** X6. The narration has one paragraph per item, in order and numbered
    from 1: it is empty exactly for no items, and a further item adds,
    after a blank line, the paragraph that carries the next number, the
    title, the summary and the attribution. *)
Theorem narration_appends_story (items : list IndiaUpdate) (item : IndiaUpdate) :
  (buildNarration toLocaleString items = [] <-> items = [])
  /\ buildNarration toLocaleString [item]
     = js "Story 1: " ++ update_title item ++ js "." ++ [LF]
       ++ summary item ++ [LF]
       ++ js "Published by " ++ update_author item ++ js " on "
       ++ toLocaleString (postedAt item) ++ js "."
  /\ (items <> [] ->
      buildNarration toLocaleString (items ++ [item])
        = buildNarration toLocaleString items ++ [LF; LF]
          ++ js "Story " ++ number_to_string (Z.of_nat (length items) + 1) ++ js ": "
          ++ update_title item ++ js "." ++ [LF]
          ++ summary item ++ [LF]
          ++ js "Published by " ++ update_author item ++ js " on "
          ++ toLocaleString (postedAt item) ++ js ".").
Proof.
  split; [| split].
  - split; [| now intros ->].
    intros Hnil. destruct items as [| first rest]; [reflexivity |]. exfalso.
    assert (Ht : truthy (buildNarration toLocaleString (first :: rest)) = true).
    { unfold buildNarration. apply join_nonempty; [discriminate |].
      apply Forall_forall. intros p Hp.
      apply list_elem_of_lookup in Hp. destruct Hp as [i Hi].
      rewrite list_lookup_imap in Hi.
      destruct ((first :: rest) !! i); [| discriminate].
      injection Hi as <-. apply paragraph_nonempty. }
    rewrite Hnil in Ht. discriminate.
  - reflexivity.
  - intros Hne. unfold buildNarration. rewrite imap_app. cbn [imap].
    rewrite join_snoc.
    + rewrite Nat.add_0_r. unfold paragraph. reflexivity.
    + destruct items; [congruence | discriminate].
Qed.

(** What a fetch does to the state, by the way it ends. *)
Lemma fetchUpdates_result (a : answer) (s : state) :
  match fetched_items a (setError None (setLoadingUpdates true s)) with
  | (_, _, Ok items) =>
      fetchUpdates toLocaleString a s
      = (setLoadingUpdates false
           (setNarration (buildNarration toLocaleString items)
              (setUpdates items (setError None (setLoadingUpdates true s)))),
         [], Ok tt)
      /\ items <> [] /\ a = Answered true (Ok (Some items))
  | (_, _, Throw t) =>
      fetchUpdates toLocaleString a s
      = (setLoadingUpdates false
           (setError (Some (fetch_error_message t))
              (setError None (setLoadingUpdates true s))),
         [], Ok tt)
  end.
Proof.
  unfold fetchUpdates.
  destruct a as [t | [|] [[items |] | t]]; cbn; try reflexivity.
  destruct items as [| item rest]; cbn; [reflexivity |].
  repeat split. discriminate.
Qed.

(** X7. A fetch that ends with an error text, whatever failed, keeps the
    items and the narration it found, and clears the loading flag. No
    fetch touches the video on offer, its duration, the generating flag,
    the logs or the encoder, and none calls a collaborator of a run. *)
Theorem failed_fetch_keeps_items (a : answer) (s : state) :
  (error (fst (fst (fetchUpdates toLocaleString a s))) <> None ->
   updates (fst (fst (fetchUpdates toLocaleString a s))) = updates s
   /\ narration (fst (fst (fetchUpdates toLocaleString a s))) = narration s)
  /\ loadingUpdates (fst (fst (fetchUpdates toLocaleString a s))) = false
  /\ videoUrl (fst (fst (fetchUpdates toLocaleString a s))) = videoUrl s
  /\ videoDuration (fst (fst (fetchUpdates toLocaleString a s))) = videoDuration s
  /\ isGenerating (fst (fst (fetchUpdates toLocaleString a s))) = isGenerating s
  /\ logs (fst (fst (fetchUpdates toLocaleString a s))) = logs s
  /\ ffmpegRef (fst (fst (fetchUpdates toLocaleString a s))) = ffmpegRef s
  /\ isMountedRef (fst (fst (fetchUpdates toLocaleString a s))) = isMountedRef s
  /\ snd (fst (fetchUpdates toLocaleString a s)) = [].
Proof.
  pose proof (fetchUpdates_result a s) as Hres.
  destruct (fetched_items a _) as [[s1 tr1] [items | t]].
  - destruct Hres as (-> & _ & _). cbn.
    split; [intros Hbad; now contradiction Hbad | repeat split].
  - rewrite Hres. cbn. split; [intros _; split; reflexivity | repeat split].
Qed.

(** X8. A fetch ends without an error text exactly when the response was
    [ok] and carried at least one item; it then installs those items and
    the narration built from them. *)
Theorem successful_fetch_installs_items (a : answer) (s : state) :
  error (fst (fst (fetchUpdates toLocaleString a s))) = None <->
  exists items : list IndiaUpdate,
    items <> []
    /\ a = Answered true (Ok (Some items))
    /\ updates (fst (fst (fetchUpdates toLocaleString a s))) = items
    /\ narration (fst (fst (fetchUpdates toLocaleString a s)))
       = buildNarration toLocaleString items.
Proof.
  pose proof (fetchUpdates_result a s) as Hres.
  destruct (fetched_items a _) as [[s1 tr1] [items | t]] eqn:Hf.
  - destruct Hres as (Hres & Hne & ->). rewrite Hres. cbn. split; [| reflexivity].
    intros _. exists items. repeat split. exact Hne.
  - rewrite Hres. cbn. split; [discriminate |].
    intros (items & Hne & -> & _). cbn in Hf.
    destruct items; [congruence | discriminate].
Qed.

(** X9. The page behind the route. To an upstream answer that was not
    [ok], or to none at all, the page says that it is unable to fetch, and
    so it does when the route fails on an [ok] answer, over a body it
    cannot read or a surviving date that no [Date] holds; to an [ok]
    answer without an eligible record it says that there is nothing
    fresh; in all these cases it keeps the items it has. Otherwise it
    installs the items of the route, of which there are from one to ten. *)
Theorem fetch_behind_route (r : upstream) (s : state) :
  well_formed r ->
  match r with
  | Unreachable | Answer false _ _ | Answer true _ None =>
      error (fst (fst (fetchUpdates toLocaleString (deliver (GET r)) s)))
        = Some unable_message
      /\ updates (fst (fst (fetchUpdates toLocaleString (deliver (GET r)) s)))
         = updates s
  | Answer true _ (Some payload) =>
      match normalize (default [] (listing_data payload)) with
      | None =>
          error (fst (fst (fetchUpdates toLocaleString (deliver (GET r)) s)))
            = Some unable_message
          /\ updates (fst (fst (fetchUpdates toLocaleString (deliver (GET r)) s)))
             = updates s
      | Some [] =>
          error (fst (fst (fetchUpdates toLocaleString (deliver (GET r)) s)))
            = Some no_updates_message
          /\ updates (fst (fst (fetchUpdates toLocaleString (deliver (GET r)) s)))
             = updates s
      | Some items =>
          error (fst (fst (fetchUpdates toLocaleString (deliver (GET r)) s))) = None
          /\ updates (fst (fst (fetchUpdates toLocaleString (deliver (GET r)) s)))
             = items
          /\ narration (fst (fst (fetchUpdates toLocaleString (deliver (GET r)) s)))
             = buildNarration toLocaleString items
          /\ (1 <= length items <= 10)%nat
      end
  end.
Proof.
  intros Hwf. destruct r as [| [|] status [payload |]]; cbn [GET].
  - split; reflexivity.
  - destruct (normalize (default [] (listing_data payload))) as [[| item rest] |] eqn:Hn.
    + split; reflexivity.
    + split; [reflexivity |]. split; [reflexivity |]. split; [reflexivity |].
      pose proof (normalize_at_most_ten _ _ Hn) as Hlen.
      cbn [length] in *. lia.
    + split; reflexivity.
  - split; reflexivity.
  - cbn [well_formed] in Hwf.
    destruct (takes_body status); cbn [deliver unexpected];
      [rewrite <- Hwf |]; split; reflexivity.
  - cbn [well_formed] in Hwf.
    destruct (takes_body status); cbn [deliver unexpected];
      [rewrite <- Hwf |]; split; reflexivity.
Qed.

End FetchFacts.

Lemma narration_appends_story_witness :
  Narration.buildNarration Narration.sample_locale
    [Orchestrator.headline; Orchestrator.headline]
  = Narration.buildNarration Narration.sample_locale [Orchestrator.headline]
    ++ [LF; LF]
    ++ js "Story 2: Monsoon arrives early." ++ [LF]
    ++ Feed.summary Orchestrator.headline ++ [LF]
    ++ js "Published by reporter on 15 November 2023 at 03:43 am.".
Proof.
  destruct (narration_appends_story Narration.sample_locale
              [Orchestrator.headline] Orchestrator.headline) as (_ & _ & Happ).
  change [Orchestrator.headline; Orchestrator.headline]
    with ([Orchestrator.headline] ++ [Orchestrator.headline]).
  rewrite (Happ ltac:(discriminate)). reflexivity.
Defined.

Lemma failed_fetch_keeps_items_witness :
  Orchestrator.error
    (fst (fst (Fetch.fetchUpdates Narration.sample_locale
                 (Fetch.Answered false (Orchestrator.Ok None))
                 Orchestrator.ready_with_video)))
    = Some Fetch.unable_message
  /\ Orchestrator.updates
       (fst (fst (Fetch.fetchUpdates Narration.sample_locale
                    (Fetch.Answered false (Orchestrator.Ok None))
                    Orchestrator.ready_with_video)))
     = [Orchestrator.headline].
Proof.
  destruct (failed_fetch_keeps_items Narration.sample_locale
              (Fetch.Answered false (Orchestrator.Ok None))
              Orchestrator.ready_with_video) as (Hkeep & _).
  split; [reflexivity |].
  destruct Hkeep as [Hup _]; [discriminate | exact Hup].
Defined.

Lemma fetch_behind_route_witness :
  Fetch.well_formed (Feed.Answer true 200 (Some {| Feed.listing_data := Some Feed.gapped_feed |}))
  /\ Orchestrator.error
       (fst (fst (Fetch.fetchUpdates Narration.sample_locale
                    (Fetch.deliver
                       (Feed.GET (Feed.Answer true 200
                                    (Some {| Feed.listing_data := Some Feed.gapped_feed |}))))
                    Orchestrator.ready_with_video)))
     = None
  /\ length
       (Orchestrator.updates
          (fst (fst (Fetch.fetchUpdates Narration.sample_locale
                       (Fetch.deliver
                          (Feed.GET (Feed.Answer true 200
                                       (Some {| Feed.listing_data := Some Feed.gapped_feed |}))))
                       Orchestrator.ready_with_video))))
     = 9%nat
  /\ Fetch.well_formed (Feed.Answer false 304 None)
  /\ Orchestrator.error
       (fst (fst (Fetch.fetchUpdates Narration.sample_locale
                    (Fetch.deliver (Feed.GET (Feed.Answer false 304 None)))
                    Orchestrator.ready_with_video)))
     = Some Fetch.unable_message
  /\ Orchestrator.error
       (fst (fst (Fetch.fetchUpdates Narration.sample_locale
                    (Fetch.deliver
                       (Feed.GET (Feed.Answer true 200
                                    (Some {| Feed.listing_data := Some Feed.undated_feed |}))))
                    Orchestrator.ready_with_video)))
     = Some Fetch.unable_message.
Proof.
  assert (Hwf : forall payload, Fetch.well_formed (Feed.Answer true 200 payload))
    by reflexivity.
  assert (Hwf' : Fetch.well_formed (Feed.Answer false 304 None)) by reflexivity.
  pose proof (fetch_behind_route Narration.sample_locale _
                Orchestrator.ready_with_video
                (Hwf (Some {| Feed.listing_data := Some Feed.gapped_feed |}))) as Hitems.
  pose proof (fetch_behind_route Narration.sample_locale _
                Orchestrator.ready_with_video
                (Hwf (Some {| Feed.listing_data := Some Feed.undated_feed |}))) as Hdate.
  pose proof (fetch_behind_route Narration.sample_locale _
                Orchestrator.ready_with_video Hwf') as Hstatus.
  cbv beta iota in Hitems, Hdate, Hstatus.
  assert (Hnine : option_map (@length _)
                    (Feed.normalize (default [] (Feed.listing_data
                       {| Feed.listing_data := Some Feed.gapped_feed |})))
                  = Some 9%nat) by (vm_compute; reflexivity).
  destruct (Feed.normalize (default [] (Feed.listing_data
              {| Feed.listing_data := Some Feed.gapped_feed |})))
    as [[| item rest] |] eqn:Hn; try discriminate Hnine.
  destruct (Feed.normalize (default [] (Feed.listing_data
              {| Feed.listing_data := Some Feed.undated_feed |})))
    as [others |] eqn:Hu; [vm_compute in Hu; discriminate Hu |].
  destruct Hitems as (Herr & Hup & _ & _).
  split; [apply Hwf |]. split; [exact Herr |].
  split; [rewrite Hup; cbn [option_map] in Hnine; congruence |].
  split; [exact Hwf' |]. split; [exact (proj1 Hstatus) | exact (proj1 Hdate)].
Defined.

(** ** The wrap as a greedy grouping of words *)

Section GreedyFacts.

Import Wrap Greedy.

Variable measureText : jsstring -> Q.
Variable maxWidth : Q.

Abbreviation group_loop := (Greedy.group_loop measureText maxWidth).
Abbreviation wrap_groups := (Greedy.wrap_groups measureText maxWidth).
Abbreviation forced := (Greedy.forced measureText maxWidth).
Abbreviation all_forced := (Greedy.all_forced measureText maxWidth).
Abbreviation fits := (Greedy.fits measureText maxWidth).

(** The loop of the source computes the lines of the grouped loop. *)
Lemma wrap_loop_refines (words : list jsstring) :
  forall (groups : list (list jsstring)) (group : list jsstring),
    wrap_loop measureText maxWidth words (List.map line_of groups) (line_of group)
    = (List.map line_of (fst (group_loop words groups group)),
       line_of (snd (group_loop words groups group))).
Proof.
  induction words as [| word rest IH]; intros groups group; [reflexivity |].
  cbn [wrap_loop Greedy.group_loop].
  destruct (truthy (line_of group)) eqn:Hcur.
  - assert (Htest : line_of group ++ [SPACE] ++ word = line_of (group ++ [word])).
    { unfold line_of. rewrite join_snoc; [reflexivity |].
      now apply truthy_line_nonempty. }
    destruct (wider (measureText (line_of group ++ [SPACE] ++ word)) maxWidth);
      cbn [andb].
    + rewrite <- (IH (groups ++ [group]) [word]). now rewrite List.map_app.
    + rewrite <- (IH groups (group ++ [word])). now rewrite Htest.
  - rewrite andb_false_r. exact (IH groups [word]).
Qed.

Lemma wrap_words_refines (words : list jsstring) :
  wrap_words measureText maxWidth words = List.map line_of (wrap_groups words).
Proof.
  unfold wrap_words, Greedy.wrap_groups, close.
  pose proof (wrap_loop_refines words [] []) as Href.
  cbn [List.map] in Href. change (line_of []) with (@nil Z) in Href.
  rewrite Href.
  destruct (truthy (line_of (snd (group_loop words [] [])))); [| reflexivity].
  now rewrite List.map_app.
Qed.

(** What the grouped loop keeps: the words, whole and in order; lines
    that are not empty; groups made of words of the text; and groups of
    two words or more within the width. *)
Lemma group_loop_keeps (words : list jsstring) :
  forall (groups : list (list jsstring)) (group : list jsstring),
    List.filter truthy (concat (fst (group_loop words groups group))
                        ++ snd (group_loop words groups group))
      = List.filter truthy (concat groups ++ group) ++ List.filter truthy words
    /\ (Forall (fun g => truthy (line_of g) = true) groups ->
        Forall (fun g => truthy (line_of g) = true) (fst (group_loop words groups group)))
    /\ (forall w, In w (concat (fst (group_loop words groups group))
                        ++ snd (group_loop words groups group)) ->
                  In w (concat groups ++ group) \/ In w words)
    /\ (Forall fits groups -> fits group ->
        Forall fits (fst (group_loop words groups group))
        /\ fits (snd (group_loop words groups group))).
Proof.
  induction words as [| word rest IH]; intros groups group.
  - cbn [Greedy.group_loop fst snd List.filter]. rewrite app_nil_r. auto.
  - assert (Hone : fits [word]) by (intros Hlen; cbn in Hlen; lia).
    cbn [Greedy.group_loop].
    destruct (truthy (line_of group)) eqn:Hcur.
    + assert (Htest : line_of group ++ [SPACE] ++ word = line_of (group ++ [word])).
      { unfold line_of. rewrite join_snoc; [reflexivity |].
        now apply truthy_line_nonempty. }
      destruct (wider (measureText (line_of group ++ [SPACE] ++ word)) maxWidth)
        eqn:Hwide.
      * destruct (IH (groups ++ [group]) [word]) as (Hw & Hl & Hin & Hfit).
        split.
        { rewrite Hw, concat_app. cbn [concat]. rewrite app_nil_r.
          rewrite (filter_truthy_cons word rest).
          rewrite !filter_truthy_app, <- !app_assoc. reflexivity. }
        split.
        { intros Hall. apply Hl, Forall_app. split; [exact Hall | now constructor]. }
        split.
        { intros w Hw'. destruct (Hin w Hw') as [Hold | Hrest]; [| right; now right].
          rewrite concat_app in Hold. cbn [concat] in Hold.
          rewrite app_nil_r, <- app_assoc in Hold.
          apply List.in_app_iff in Hold. destruct Hold as [Hold | Hold].
          - left. apply List.in_app_iff. now left.
          - apply List.in_app_iff in Hold. destruct Hold as [Hold | [<- | []]].
            + left. apply List.in_app_iff. now right.
            + right. now left. }
        intros Hall Hgroup. apply Hfit; [| exact Hone].
        apply Forall_app. split; [exact Hall | now constructor].
      * destruct (IH groups (group ++ [word])) as (Hw & Hl & Hin & Hfit).
        split.
        { rewrite Hw, (filter_truthy_cons word rest).
          rewrite !filter_truthy_app, <- !app_assoc. reflexivity. }
        split; [exact Hl |].
        split.
        { intros w Hw'. destruct (Hin w Hw') as [Hold | Hrest]; [| right; now right].
          rewrite app_assoc in Hold.
          apply List.in_app_iff in Hold. destruct Hold as [Hold | [<- | []]].
          - now left.
          - right. now left. }
        intros Hall Hgroup. apply Hfit; [exact Hall |].
        intros _. rewrite <- Htest. exact Hwide.
    + destruct (IH groups [word]) as (Hw & Hl & Hin & Hfit).
      split.
      { rewrite Hw, (filter_truthy_cons word rest).
        rewrite !filter_truthy_app, (falsy_line_no_words group Hcur).
        rewrite app_nil_r, <- !app_assoc. reflexivity. }
      split; [exact Hl |].
      split.
      { intros w Hw'. destruct (Hin w Hw') as [Hold | Hrest]; [| right; now right].
        apply List.in_app_iff in Hold. destruct Hold as [Hold | [<- | []]].
        - left. apply List.in_app_iff. now left.
        - right. now left. }
      intros Hall _. now apply Hfit.
Qed.

Lemma wrap_groups_keep (words : list jsstring) :
  List.filter truthy (concat (wrap_groups words)) = List.filter truthy words
  /\ Forall (fun g => truthy (line_of g) = true) (wrap_groups words)
  /\ (forall g w, In g (wrap_groups words) -> In w g -> In w words)
  /\ Forall fits (wrap_groups words).
Proof.
  destruct (group_loop_keeps words [] []) as (Hw & Hl & Hin & Hfit).
  cbn [concat app List.filter] in Hw, Hin.
  unfold Greedy.wrap_groups, close.
  destruct Hfit as [Hfits Hfit]; [constructor | intros Hlen; cbn in Hlen; lia |].
  destruct (truthy (line_of (snd (group_loop words [] [])))) eqn:Hcur.
  - split.
    { rewrite concat_app. cbn [concat]. now rewrite app_nil_r. }
    split.
    { apply Forall_app. split; [apply Hl; constructor | now constructor]. }
    split.
    { intros g w Hg Hwg.
      destruct (Hin w) as [[] | Hdone]; [| exact Hdone].
      apply List.in_app_iff in Hg. destruct Hg as [Hg | [<- | []]].
      - apply List.in_app_iff. left. apply List.in_concat. eauto.
      - apply List.in_app_iff. now right. }
    apply Forall_app. split; [exact Hfits | now constructor].
  - split.
    { rewrite <- Hw, filter_truthy_app, (falsy_line_no_words _ Hcur).
      now rewrite app_nil_r. }
    split; [apply Hl; constructor |].
    split; [| exact Hfits].
    intros g w Hg Hwg.
    destruct (Hin w) as [[] | Hdone]; [| exact Hdone].
    apply List.in_app_iff. left. apply List.in_concat. eauto.
Qed.

(** X10. A line wider than the maximum is a single word of the text:
    whatever the measurement, the wrap puts two words or more on a line
    only when they fit, and never leaves a line empty. *)
Theorem wide_line_is_single_word (text line : jsstring) :
  In line (wrap measureText maxWidth text) ->
  line <> []
  /\ (wider (measureText line) maxWidth = true -> In line (split_ws text)).
Proof.
  unfold wrap. rewrite wrap_words_refines. intros Hline.
  apply List.in_map_iff in Hline. destruct Hline as (g & <- & Hg).
  destruct (wrap_groups_keep (split_ws text)) as (_ & Hlines & Hin & Hfits).
  rewrite Forall_forall in Hlines, Hfits.
  pose proof (Hlines g (proj2 (list_elem_of_In _ _) Hg)) as Htruthy.
  pose proof (Hfits g (proj2 (list_elem_of_In _ _) Hg)) as Hfit.
  split; [intros Hnil; rewrite Hnil in Htruthy; discriminate |].
  intros Hwide. destruct g as [| w [| v rest]].
  - discriminate.
  - apply (Hin [w] w Hg). now left.
  - rewrite Hfit in Hwide by (cbn; lia). discriminate.
Qed.

Lemma all_forced_snoc (groups : list (list jsstring)) (group next : list jsstring) :
  all_forced (groups ++ [group]) -> forced group next ->
  all_forced (groups ++ [group; next]).
Proof.
  induction groups as [| a [| b rest] IH]; intros Hall Hforced.
  - now repeat constructor.
  - inversion Hall; subst. constructor; [assumption |]. now repeat constructor.
  - inversion Hall; subst. constructor; [assumption |]. now apply IH.
Qed.

Lemma all_forced_replace_last (groups : list (list jsstring))
    (group group' : list jsstring) :
  all_forced (groups ++ [group]) -> head group' = head group ->
  all_forced (groups ++ [group']).
Proof.
  induction groups as [| a [| b rest] IH]; intros Hall Hhead.
  - constructor.
  - inversion Hall as [| | ? ? ? Hf Hrest]; subst. constructor; [| constructor].
    intros w Hw. apply Hf. now rewrite <- Hhead.
  - inversion Hall; subst. constructor; [assumption |]. now apply IH.
Qed.

(** The breaks of the grouped loop are forced, when no word but the last
    is empty. *)
Lemma group_loop_forced (words : list jsstring) :
  forall (groups : list (list jsstring)) (group : list jsstring),
    inner_words_nonempty words ->
    all_forced (close (groups, group)) ->
    (truthy (line_of group) = false -> groups = []) ->
    all_forced (close (group_loop words groups group)).
Proof.
  induction words as [| word rest IH]; intros groups group Hinner Hall Hfirst;
    [exact Hall |].
  cbn [Greedy.group_loop]. unfold close in Hall. cbn [fst snd] in Hall.
  destruct (truthy (line_of group)) eqn:Hcur.
  - destruct (wider (measureText (line_of group ++ [SPACE] ++ word)) maxWidth)
      eqn:Hwide.
    + assert (Hpushed : all_forced (close (groups ++ [group], [word]))).
      { unfold close. cbn [fst snd].
        destruct (truthy (line_of [word])); [| exact Hall].
        rewrite <- app_assoc. apply all_forced_snoc; [exact Hall |].
        intros w [= <-]. exact Hwide. }
      destruct rest as [| next rest']; [exact Hpushed |].
      destruct Hinner as [Hword Hinner].
      apply IH; [exact Hinner | exact Hpushed |].
      change (line_of [word]) with word. rewrite Hword. discriminate.
    + assert (Hne : group <> []) by now apply truthy_line_nonempty.
      assert (Hline : truthy (line_of (group ++ [word])) = true).
      { unfold line_of. rewrite join_snoc by exact Hne.
        destruct (join [SPACE] group); reflexivity. }
      apply IH.
      * destruct rest as [| next rest']; [exact I | apply Hinner].
      * unfold close. cbn [fst snd]. rewrite Hline.
        apply (all_forced_replace_last groups group); [exact Hall |].
        destruct group; [congruence | reflexivity].
      * rewrite Hline. discriminate.
  - rewrite (Hfirst eq_refl). apply IH.
    + destruct rest as [| next rest']; [exact I | apply Hinner].
    + unfold close. cbn [fst snd app]. destruct (truthy (line_of [word])); constructor.
    + reflexivity.
Qed.

(** The pieces of a split: free of white space, and empty at the two
    ends only. *)
Lemma split_from_pieces (text : jsstring) :
  forall in_run : bool,
    Forall (Forall (fun c => is_space c = false)) (split_from in_run text)
    /\ match split_from in_run text with
       | piece :: rest =>
           inner_words_nonempty rest
           /\ (in_run = true -> truthy piece = false -> rest = [])
       | [] => False
       end.
Proof.
  induction text as [| c text IH]; intros in_run.
  - cbn. repeat constructor.
  - cbn [split_from]. destruct (is_space c) eqn:Hc.
    + destruct (IH true) as [Hfree Hinner].
      destruct (split_from true text) as [| piece rest] eqn:Hs; [contradiction |].
      destruct Hinner as [Hinner Hend].
      destruct in_run.
      * split; [exact Hfree |]. split; [exact Hinner | intros _; exact (Hend eq_refl)].
      * split; [constructor; [constructor | exact Hfree] |].
        split; [| discriminate].
        destruct rest as [| next rest']; [exact I |].
        split; [| exact Hinner].
        destruct (truthy piece) eqn:Hp; [reflexivity |].
        now specialize (Hend eq_refl eq_refl).
    + destruct (IH false) as [Hfree Hinner].
      destruct (split_from false text) as [| piece rest] eqn:Hs; [contradiction |].
      destruct Hinner as [Hinner _].
      inversion Hfree as [| ? ? Hpiece Hrest]; subst.
      split; [constructor; [constructor; assumption | exact Hrest] |].
      split; [exact Hinner | discriminate].
Qed.

(** X11. Every break of the wrap is forced: the lines are groups of
    consecutive words, and the first word of each line after the first,
    put after a space at the end of the line before, would have measured
    wider than the maximum. *)
Theorem line_breaks_are_forced (text : jsstring) :
  wrap measureText maxWidth text
    = List.map line_of (wrap_groups (split_ws text))
  /\ all_forced (wrap_groups (split_ws text))
  /\ List.filter truthy (concat (wrap_groups (split_ws text)))
     = List.filter truthy (split_ws text).
Proof.
  split; [apply wrap_words_refines |].
  split; [| apply wrap_groups_keep].
  unfold Greedy.wrap_groups, split_ws.
  destruct (split_from_pieces text false) as [_ Hinner].
  destruct (split_from false text) as [| piece rest]; [contradiction |].
  destruct Hinner as [Hinner _].
  cbn [Greedy.group_loop]. change (truthy (line_of [])) with false. cbv iota.
  apply group_loop_forced; [exact Hinner | | reflexivity].
  unfold close. cbn [fst snd app]. destruct (truthy (line_of [piece])); constructor.
Qed.

Lemma split_from_free (word : jsstring) :
  Forall (fun c => is_space c = false) word ->
  forall in_run : bool, split_from in_run word = [word].
Proof.
  induction 1 as [| c word Hc _ IH]; intros in_run; [reflexivity |].
  cbn [split_from]. rewrite Hc, (IH false). reflexivity.
Qed.

Lemma split_from_word_space (word rest : jsstring) :
  Forall (fun c => is_space c = false) word ->
  split_from false (word ++ [SPACE] ++ rest) = word :: split_from true rest.
Proof.
  induction 1 as [| c word Hc _ IH]; [reflexivity |].
  cbn [app split_from]. rewrite Hc. cbn [app] in IH. now rewrite IH.
Qed.

Lemma words_of_any_run (text : jsstring) :
  List.filter truthy (split_from true text) = words_of text.
Proof.
  unfold words_of, split_ws. destruct text as [| c text]; [reflexivity |].
  cbn [split_from]. destruct (is_space c); reflexivity.
Qed.

(** The non-empty words of a line are those of its group. *)
Lemma words_of_line (group : list jsstring) :
  Forall (Forall (fun c => is_space c = false)) group ->
  words_of (line_of group) = List.filter truthy group.
Proof.
  induction 1 as [| word [| next rest] Hword Hrest IH]; [reflexivity | |].
  - unfold words_of, split_ws, line_of. cbn [join].
    now rewrite split_from_free.
  - unfold line_of in *. rewrite join_cons_cons.
    unfold words_of, split_ws. rewrite split_from_word_space by exact Hword.
    rewrite (filter_truthy_cons word (split_from true _)), words_of_any_run, IH.
    now rewrite (filter_truthy_cons word (next :: rest)).
Qed.

Lemma words_of_lines (groups : list (list jsstring)) :
  Forall (Forall (Forall (fun c => is_space c = false))) groups ->
  flat_map words_of (List.map line_of groups) = List.filter truthy (concat groups).
Proof.
  induction 1 as [| g groups Hg _ IH]; [reflexivity |].
  cbn [List.map flat_map concat]. rewrite filter_truthy_app, <- IH.
  now rewrite words_of_line.
Qed.

(** X12. Read back word by word, the lines of the wrap give the words of
    the text, whole and in order: no word is split, joined to another,
    lost or repeated. *)
Theorem wrap_preserves_words (text : jsstring) :
  flat_map words_of (wrap measureText maxWidth text) = words_of text.
Proof.
  destruct (wrap_groups_keep (split_ws text)) as (Hwords & _ & Hin & _).
  destruct (split_from_pieces text false) as [Hfree _].
  fold (split_ws text) in Hfree.
  unfold wrap. rewrite wrap_words_refines.
  unfold words_of at 2. rewrite <- Hwords.
  apply words_of_lines.
  apply Forall_forall. intros g Hg. apply Forall_forall. intros w Hw.
  rewrite Forall_forall in Hfree. apply Hfree.
  apply list_elem_of_In. apply (Hin g w); now apply list_elem_of_In.
Qed.

End GreedyFacts.

(** A town's name too long for a line ten code units wide. *)
Lemma wide_line_is_single_word_witness :
  In (js "Thiruvananthapuram") (Wrap.wrap Wrap.code_units 10 (js "Thiruvananthapuram rains"))
  /\ Wrap.wider (Wrap.code_units (js "Thiruvananthapuram")) 10 = true
  /\ In (js "Thiruvananthapuram") (Wrap.split_ws (js "Thiruvananthapuram rains")).
Proof.
  assert (Hin : In (js "Thiruvananthapuram")
                  (Wrap.wrap Wrap.code_units 10 (js "Thiruvananthapuram rains")))
    by (vm_compute; now left).
  assert (Hwide : Wrap.wider (Wrap.code_units (js "Thiruvananthapuram")) 10 = true)
    by reflexivity.
  split; [exact Hin |]. split; [exact Hwide |].
  exact (proj2 (wide_line_is_single_word Wrap.code_units 10
                  (js "Thiruvananthapuram rains") (js "Thiruvananthapuram") Hin)
               Hwide).
Defined.

(** ** Drawing the lines, and the slide *)

Section DrawEdges.

Import Wrap.

Variable measureText : jsstring -> Q.

Lemma truncate_short (maxLines : Z) (lines : list jsstring) :
  Z.of_nat (length lines) <= maxLines -> truncate maxLines lines = Some lines.
Proof.
  intros Hle. unfold truncate.
  destruct (Z.ltb_spec maxLines (Z.of_nat (length lines))); [lia | reflexivity].
Qed.

(** What is drawn for [maxLines >= 1]: the lines shown, and the value
    returned. *)
Lemma draw_shown (text : jsstring) (x y : Z) (maxWidth : Q) (lineHeight maxLines : Z) :
  1 <= maxLines ->
  exists shown : list jsstring,
    drawWrappedText measureText text x y maxWidth lineHeight maxLines
      = Some (draw_lines x y lineHeight shown,
              y + Z.of_nat (length shown) * lineHeight)
    /\ length shown
       = Nat.min (length (wrap measureText maxWidth text)) (Z.to_nat maxLines)
    /\ (Z.of_nat (length (wrap measureText maxWidth text)) <= maxLines ->
        shown = wrap measureText maxWidth text).
Proof.
  intros Hone. unfold drawWrappedText.
  destruct (Z_lt_le_dec maxLines (Z.of_nat (length (wrap measureText maxWidth text))))
    as [Hlong | Hshort].
  - destruct (truncate_long maxLines (wrap measureText maxWidth text))
      as (cut & _ & Htrunc); [lia |].
    rewrite Htrunc. cbn [mbind option_bind].
    eexists. split; [reflexivity |].
    split; [| lia].
    rewrite length_app, length_take. cbn [length]. lia.
  - rewrite truncate_short by exact Hshort. cbn [mbind option_bind].
    exists (wrap measureText maxWidth text).
    split; [reflexivity |]. split; [lia | reflexivity].
Qed.

Lemma draw_lines_lookup (x y lineHeight : Z) (lines : list jsstring) (i : nat)
    (d : fillText) :
  draw_lines x y lineHeight lines !! i = Some d ->
  exists l, lines !! i = Some l
            /\ d = {| line := l; at_x := x; at_y := y + Z.of_nat i * lineHeight |}.
Proof.
  unfold draw_lines. rewrite list_lookup_imap.
  destruct (lines !! i) as [l |]; [| discriminate].
  intros [= <-]. eauto.
Qed.

(** X13. With room for one line or more, [drawWrappedText] never throws.
    It draws the lines of the wrap, or the first [maxLines] of them, one
    below the other from [y] in steps of [lineHeight], all at [x]; it
    returns the [y] below the last line drawn; and a wrap of at most
    [maxLines] lines is drawn as it is. *)
Theorem draw_never_throws (text : jsstring) (x y : Z) (maxWidth : Q)
    (lineHeight maxLines : Z) :
  1 <= maxLines ->
  exists drawn : list fillText,
    drawWrappedText measureText text x y maxWidth lineHeight maxLines
      = Some (drawn, y + Z.of_nat (length drawn) * lineHeight)
    /\ length drawn
       = Nat.min (length (wrap measureText maxWidth text)) (Z.to_nat maxLines)
    /\ (forall (i : nat) (d : fillText),
          drawn !! i = Some d ->
          at_x d = x /\ at_y d = y + Z.of_nat i * lineHeight)
    /\ (Z.of_nat (length (wrap measureText maxWidth text)) <= maxLines ->
        List.map line drawn = wrap measureText maxWidth text).
Proof.
  intros Hone.
  destruct (draw_shown text x y maxWidth lineHeight maxLines Hone)
    as (shown & Hdraw & Hlen & Hsame).
  destruct (drawn_lines x y lineHeight shown) as [Hmap Hdrawn].
  exists (draw_lines x y lineHeight shown).
  split; [now rewrite Hdrawn |].
  split; [now rewrite Hdrawn |].
  split.
  - intros i d Hd. apply draw_lines_lookup in Hd. destruct Hd as (l & _ & ->).
    split; reflexivity.
  - intros Hshort. rewrite Hmap. now apply Hsame.
Qed.

Lemma split_blank (text : jsstring) :
  Forall (fun c => is_space c = true) text ->
  forall in_run : bool, Forall (fun w => w = []) (split_from in_run text).
Proof.
  induction 1 as [| c text Hc _ IH]; intros in_run; [repeat constructor |].
  cbn [split_from]. rewrite Hc.
  destruct in_run; [apply IH | constructor; [reflexivity | apply IH]].
Qed.

Lemma wrap_loop_empty_words (maxWidth : Q) (words : list jsstring) :
  Forall (fun w => w = []) words ->
  wrap_loop measureText maxWidth words [] [] = ([], []).
Proof.
  induction 1 as [| word words -> _ IH]; [reflexivity |].
  cbn [wrap_loop truthy]. rewrite andb_false_r. exact IH.
Qed.

(** X14. A blank text, empty or of white space only, wraps to no line at
    all: nothing is drawn and [y] is returned as it came, for every
    [maxLines] that is not negative. *)
Theorem blank_text_draws_nothing (text : jsstring) (x y : Z) (maxWidth : Q)
    (lineHeight maxLines : Z) :
  Forall (fun c => is_space c = true) text ->
  0 <= maxLines ->
  wrap measureText maxWidth text = []
  /\ drawWrappedText measureText text x y maxWidth lineHeight maxLines
     = Some ([], y).
Proof.
  intros Hblank Hmax.
  assert (Hwrap : wrap measureText maxWidth text = []).
  { unfold wrap, wrap_words, split_ws.
    now rewrite (wrap_loop_empty_words maxWidth _ (split_blank text Hblank false)). }
  split; [exact Hwrap |].
  unfold drawWrappedText. rewrite Hwrap, truncate_short by (cbn; lia).
  cbn. now rewrite Z.add_0_r.
Qed.

End DrawEdges.

Lemma draw_never_throws_witness :
  1 <= 6
  /\ exists drawn : list Wrap.fillText,
       Wrap.drawWrappedText Wrap.code_units Wrap.toss_report 120 420 12 44 6
         = Some (drawn, 596)
       /\ List.map Wrap.line drawn
          = [js "India wins"; js "the toss."; js "And elects"; js "to bat first"].
Proof.
  split; [lia |].
  destruct (draw_never_throws Wrap.code_units Wrap.toss_report 120 420 12 44 6
              ltac:(lia)) as (drawn & Hdraw & Hlen & _ & Hsame).
  exists drawn. split.
  - rewrite Hdraw, Hlen. vm_compute. reflexivity.
  - rewrite Hsame; vm_compute; [reflexivity | discriminate].
Defined.

Lemma blank_text_draws_nothing_witness :
  Forall (fun c => is_space c = true) (js "   ")
  /\ 0 <= 3
  /\ Wrap.drawWrappedText Wrap.code_units (js "   ") 120 230 1040 72 3
     = Some ([], 230).
Proof.
  assert (Hblank : Forall (fun c => is_space c = true) (js "   "))
    by (repeat constructor).
  split; [exact Hblank |]. split; [lia |].
  exact (proj2 (blank_text_draws_nothing Wrap.code_units (js "   ") 120 230 1040 72 3
                  Hblank ltac:(lia))).
Defined.

Section SlideFacts.

Import Feed Orchestrator Slide.

Lemma texts_app (a b : list command) : texts (a ++ b) = texts a ++ texts b.
Proof. apply omap_app. Qed.

Lemma texts_of_drawn (drawn : list Wrap.fillText) :
  texts (List.map (fun d => FillText (Wrap.line d) (Wrap.at_x d) (Wrap.at_y d)) drawn)
  = List.map (fun d => (Wrap.line d, Wrap.at_x d, Wrap.at_y d)) drawn.
Proof.
  induction drawn as [| d drawn IH]; [reflexivity |].
  cbn [List.map]. unfold texts in *. cbn [omap list_omap]. now rewrite IH.
Qed.

Lemma positions_of_lines (x y lineHeight : Z) (lines : list jsstring) :
  List.map (fun d => (Wrap.line d, Wrap.at_x d, Wrap.at_y d))
    (Wrap.draw_lines x y lineHeight lines)
  = imap (fun i l => (l, x, y + Z.of_nat i * lineHeight)) lines.
Proof.
  unfold Wrap.draw_lines.
  assert (Hgen : forall (f : nat -> Z) (ls : list jsstring),
            List.map (fun d => (Wrap.line d, Wrap.at_x d, Wrap.at_y d))
              (imap (fun i l => {| Wrap.line := l; Wrap.at_x := x; Wrap.at_y := f i |}) ls)
            = imap (fun i l => (l, x, f i)) ls).
  { intros f ls. revert f. induction ls as [| l ls IH]; intros f; [reflexivity |].
    cbn [imap List.map]. f_equal. apply (IH (fun i => f (S i))). }
  apply (Hgen (fun i => y + Z.of_nat i * lineHeight)).
Qed.

(** A call of [drawWrappedText] from the slide: it cannot throw. *)
Lemma wrapped_ok (host : surface) (font text : jsstring) (x y : Z) (maxWidth : Q)
    (lineHeight maxLines : Z) :
  1 <= maxLines ->
  exists (shown : list jsstring) (commands : list command),
    wrapped host font text x y maxWidth lineHeight maxLines
      = Ok (commands, y + Z.of_nat (length shown) * lineHeight)
    /\ texts commands = imap (fun i l => (l, x, y + Z.of_nat i * lineHeight)) shown
    /\ length shown
       = Nat.min (length (Wrap.wrap (measure host font) maxWidth text))
                 (Z.to_nat maxLines).
Proof.
  intros Hone.
  destruct (draw_shown (measure host font) text x y maxWidth lineHeight maxLines Hone)
    as (shown & Hdraw & Hlen & _).
  exists shown. eexists. unfold wrapped. rewrite Hdraw.
  split; [reflexivity |].
  split; [| exact Hlen].
  now rewrite texts_of_drawn, positions_of_lines.
Qed.

(** X15. How a slide fails. Before the canvas is exported a slide fails
    for two reasons only: the canvas gives no 2D context, or the item's
    link is no URL; the two calls of [drawWrappedText] cannot throw. With
    a context and a link that parses everything is drawn, and the slide is
    what the export of the canvas gives, its PNG or the error of the
    export. So a slide that fails has no context, or a link that does not
    parse, or an export that failed, and a slide that is returned is the
    export of all that was drawn. *)
Theorem slide_failures (host : surface) (update : IndiaUpdate) (index total : nat) :
  (getContext host = false ->
   renderSlide host update index total
     = Throw (ErrorObject (js "Failed to initialise canvas rendering context.")))
  /\ (getContext host = true -> pathname host (url update) = None ->
      renderSlide host update index total
        = Throw (ErrorObject (invalid_url_message host)))
  /\ (getContext host = true ->
      forall path : jsstring, pathname host (url update) = Some path ->
      exists commands : list command,
        slide_commands host update index total = Ok commands
        /\ renderSlide host update index total = toPng host commands)
  /\ (forall t : thrown,
        renderSlide host update index total = Throw t ->
        (getContext host = false
         /\ t = ErrorObject (js "Failed to initialise canvas rendering context."))
        \/ (getContext host = true /\ pathname host (url update) = None
            /\ t = ErrorObject (invalid_url_message host))
        \/ (exists commands : list command,
              slide_commands host update index total = Ok commands
              /\ toPng host commands = Throw t))
  /\ (forall png : list Z,
        renderSlide host update index total = Ok png ->
        getContext host = true
        /\ exists (path : jsstring) (commands : list command),
             pathname host (url update) = Some path
             /\ slide_commands host update index total = Ok commands
             /\ toPng host commands = Ok png).
Proof.
  unfold renderSlide, slide_commands.
  destruct (wrapped_ok host title_font (update_title update) 120 230
              (inject_Z (CANVAS_WIDTH - 240)) 72 3 ltac:(lia))
    as (title_lines & title_commands & -> & _).
  destruct (wrapped_ok host summary_font (summary update) 120 420
              (inject_Z (CANVAS_WIDTH - 240)) 44 6 ltac:(lia))
    as (summary_lines & summary_commands & -> & _).
  split; [intros ->; reflexivity |].
  split; [intros -> ->; reflexivity |].
  split; [intros -> path ->; eexists; split; reflexivity |].
  destruct (getContext host).
  - destruct (pathname host (url update)) as [path |].
    + split.
      * intros t Ht. right. right. eexists. split; [reflexivity | exact Ht].
      * intros png Hpng. split; [reflexivity |].
        exists path. eexists. split; [reflexivity |]. split; [reflexivity | exact Hpng].
    + split; [| discriminate].
      intros t [= <-]. right. left. repeat split.
  - split; [| discriminate].
    intros t [= <-]. left. split; reflexivity.
Qed.

(** On a host whose export fails the slide fails with the export's
    error, although it has a context and the link parses. *)
Lemma slide_failures_witness :
  renderSlide tainted_tablet Orchestrator.headline 0 1
  = Throw (ErrorObject (js "The operation is insecure."))
  /\ getContext tainted_tablet = true
  /\ is_Some (pathname tainted_tablet (url Orchestrator.headline))
  /\ exists commands,
       slide_commands tainted_tablet Orchestrator.headline 0 1 = Ok commands.
Proof.
  assert (Hfail : renderSlide tainted_tablet Orchestrator.headline 0 1
                  = Throw (ErrorObject (js "The operation is insecure.")))
    by (vm_compute; reflexivity).
  split; [exact Hfail |]. split; [reflexivity |]. split; [eexists; reflexivity |].
  destruct (slide_failures tainted_tablet Orchestrator.headline 0 1)
    as (_ & _ & _ & Hwhy & _).
  destruct (Hwhy _ Hfail) as [[Hno _] | [(_ & Hlink & _) | (commands & Hok & _)]];
    [discriminate Hno | discriminate Hlink | now exists commands].
Defined.

(** X16. The texts of a slide, in the order drawn, all at x = 120: the
    label at y = 150; the title, on at most three lines from y = 230 in
    steps of 72; the summary, on at most six lines from y = 420 in steps
    of 44; the source line at [footY], which is 40 below the end of the
    summary but never above 580, hence between 580 and 724; and the
    caption 46 below it. *)
Theorem slide_layout (host : surface) (update : IndiaUpdate) (index total : nat)
    (commands : list command) :
  slide_commands host update index total = Ok commands ->
  exists (title_lines summary_lines : list jsstring) (source_line : jsstring)
         (footY : Z),
    texts commands
      = [(js "Update " ++ number_to_string (Z.of_nat index + 1) ++ js " of "
          ++ number_to_string (Z.of_nat total), 120, 150)]
        ++ imap (fun i l => (l, 120, 230 + Z.of_nat i * 72)) title_lines
        ++ imap (fun i l => (l, 120, 420 + Z.of_nat i * 44)) summary_lines
        ++ [(source_line, 120, footY); (caption, 120, footY + 46)]
    /\ length title_lines
       = Nat.min (length (Wrap.wrap (measure host title_font) 1040
                            (update_title update))) 3
    /\ length summary_lines
       = Nat.min (length (Wrap.wrap (measure host summary_font) 1040
                            (summary update))) 6
    /\ footY = Z.max (460 + 44 * Z.of_nat (length summary_lines)) 580
    /\ 580 <= footY <= 724.
Proof.
  unfold slide_commands. destruct (getContext host); [| discriminate].
  destruct (wrapped_ok host title_font (update_title update) 120 230
              (inject_Z (CANVAS_WIDTH - 240)) 72 3 ltac:(lia))
    as (title_lines & title_commands & -> & Htitle & Htlen).
  destruct (wrapped_ok host summary_font (summary update) 120 420
              (inject_Z (CANVAS_WIDTH - 240)) 44 6 ltac:(lia))
    as (summary_lines & summary_commands & -> & Hsummary & Hslen).
  destruct (pathname host (url update)) as [path |]; [| discriminate].
  intros Heq.
  apply (f_equal (fun r => match r with Ok c => c | Throw _ => [] end)) in Heq.
  cbv beta iota in Heq. subst commands.
  exists title_lines, summary_lines.
  eexists. exists (Z.max (420 + Z.of_nat (length summary_lines) * 44 + 40)
                         (CANVAS_HEIGHT - 140)).
  split.
  { rewrite !texts_app, Htitle, Hsummary. cbn [texts backdrop omap list_omap app].
    reflexivity. }
  split; [exact Htlen |]. split; [exact Hslen |].
  change (Z.to_nat 6) with 6%nat in Hslen. unfold CANVAS_HEIGHT.
  split; lia.
Qed.

End SlideFacts.

Lemma slide_layout_witness :
  exists commands : list Slide.command,
    Slide.slide_commands Slide.tablet Orchestrator.headline 0 1 = Orchestrator.Ok commands
    /\ exists (title_lines summary_lines : list jsstring) (source_line : jsstring),
         Slide.texts commands
           = [(js "Update 1 of 1", 120, 150)]
             ++ imap (fun i l => (l, 120, 230 + Z.of_nat i * 72)) title_lines
             ++ imap (fun i l => (l, 120, 420 + Z.of_nat i * 44)) summary_lines
             ++ [(source_line, 120, 580); (Slide.caption, 120, 626)]
         /\ length title_lines = 1%nat
         /\ length summary_lines = 2%nat.
Proof.
  assert (Hok : exists commands,
            Slide.slide_commands Slide.tablet Orchestrator.headline 0 1 = Orchestrator.Ok commands)
    by (vm_compute; eexists; reflexivity).
  destruct Hok as [commands Hok]. exists commands. split; [exact Hok |].
  destruct (slide_layout Slide.tablet Orchestrator.headline 0 1 commands Hok)
    as (title_lines & summary_lines & source_line & footY & Htexts & Htl & Hsl
        & HfootY & _).
  assert (Htl' : length title_lines = 1%nat) by (rewrite Htl; vm_compute; reflexivity).
  assert (Hsl' : length summary_lines = 2%nat) by (rewrite Hsl; vm_compute; reflexivity).
  rewrite Hsl' in HfootY. change (Z.max (460 + 44 * Z.of_nat 2) 580) with 580 in HfootY.
  subst footY.
  exists title_lines, summary_lines, source_line.
  split; [exact Htexts |]. split; [exact Htl' | exact Hsl'].
Defined.

(** ** The stages of a run *)

Section RunFacts.

Import Feed Orchestrator Run.

Lemma bind_inv {A B} (m : M A) (k : A -> M B) (s s' : state) (tr : list event)
    (r : result B) :
  bind m k s = (s', tr, r) ->
  (exists s1 tr1 a tr2,
      m s = (s1, tr1, Ok a) /\ k a s1 = (s', tr2, r) /\ tr = tr1 ++ tr2)
  \/ (exists t, m s = (s', tr, Throw t) /\ r = Throw t).
Proof.
  unfold bind. destruct (m s) as [[s1 tr1] [a | t]].
  - destruct (k a s1) as [[s2 tr2] r2] eqn:Ek. intros [= <- <- <-].
    left. exists s1, tr1, a, tr2. auto.
  - intros [= <- <- <-]. right. eauto.
Qed.

Lemma preserves_bind {A B} (I : state -> Prop) (m : M A) (k : A -> M B) :
  preserves I m -> (forall a, preserves I (k a)) -> preserves I (bind m k).
Proof.
  intros Hm Hk s s' tr r Hrun HI. apply bind_inv in Hrun.
  destruct Hrun as [(s1 & tr1 & a & tr2 & H1 & H2 & _) | (t & H1 & _)].
  - exact (Hk a _ _ _ _ H2 (Hm _ _ _ _ H1 HI)).
  - exact (Hm _ _ _ _ H1 HI).
Qed.

Lemma preserves_pure {A} (I : state -> Prop) (m : M A) :
  (forall s, fst (fst (m s)) = s) -> preserves I m.
Proof.
  intros Hm s s' tr r Hrun HI. specialize (Hm s). rewrite Hrun in Hm.
  cbn in Hm. now subst.
Qed.

Lemma preserves_modify (I : state -> Prop) (f : state -> state) :
  (forall s, I s -> I (f s)) -> preserves I (modify f).
Proof. intros Hf s s' tr r [= <- _ _] HI. now apply Hf. Qed.

Lemma never_bind {A B} (p : event -> bool) (m : M A) (k : A -> M B) :
  never p m -> (forall a, never p (k a)) -> never p (bind m k).
Proof.
  intros Hm Hk s s' tr r Hrun. apply bind_inv in Hrun.
  destruct Hrun as [(s1 & tr1 & a & tr2 & H1 & H2 & ->) | (t & H1 & _)].
  - apply Forall_app. split; [exact (Hm _ _ _ _ H1) | exact (Hk a _ _ _ _ H2)].
  - exact (Hm _ _ _ _ H1).
Qed.

Lemma never_silent {A} (p : event -> bool) (m : M A) :
  (forall s, snd (fst (m s)) = []) -> never p m.
Proof.
  intros Hm s s' tr r Hrun. specialize (Hm s). rewrite Hrun in Hm.
  cbn in Hm. subst. constructor.
Qed.

Lemma never_call {A} (p : event -> bool) (e : event) (res : result A) :
  p e = false -> never p (call e res).
Proof. intros He s s' tr r [= _ <- _]. now repeat constructor. Qed.

Lemma never_publish (p : event -> bool) (url : jsstring) :
  p (SetVideoUrl url) = false -> never p (publish url).
Proof.
  intros Hp. unfold publish.
  apply never_bind; [now apply never_call | intros _]. now apply never_silent.
Qed.

Lemma preserves_publish (I : state -> Prop) (url : jsstring) :
  (forall s, I s -> I (setVideoUrl (Some url) s)) -> preserves I (publish url).
Proof.
  intros HI. unfold publish.
  apply preserves_bind; [now apply preserves_pure | intros _].
  now apply preserves_modify.
Qed.

(** One step of the logger. *)
Lemma logger_step (message : jsstring) (rest : list jsstring) (s : state) :
  logger (message :: rest) s
  = logger rest (if isMountedRef s
                 then setLogs (fun prev => last_120 (prev ++ [message])) s
                 else s).
Proof.
  cbn [logger]. unfold bind at 1. cbn [get]. unfold bind at 1.
  destruct (isMountedRef s); cbn [modify ret];
    destruct (logger rest _) as [[s2 tr2] r2]; reflexivity.
Qed.

Lemma logger_silent (messages : list jsstring) (s : state) :
  snd (fst (logger messages s)) = [] /\ snd (logger messages s) = Ok tt.
Proof.
  revert s. induction messages as [| message rest IH]; intros s;
    [split; reflexivity |].
  rewrite logger_step. apply IH.
Qed.

Lemma preserves_logger (I : state -> Prop) (messages : list jsstring) :
  stable I -> preserves I (logger messages).
Proof.
  intros HI. induction messages as [| message rest IH]; intros s s' tr r Hrun Hs.
  - injection Hrun as <- _ _. exact Hs.
  - rewrite logger_step in Hrun. apply (IH _ _ _ _ Hrun).
    destruct (isMountedRef s) eqn:Hm; [| exact Hs].
    now apply (stable_log I HI).
Qed.

Lemma last_120_absorbs {A} (a b : list A) :
  last_120 (last_120 a ++ b) = last_120 (a ++ b).
Proof.
  unfold last_120. rewrite !length_app, length_drop.
  destruct (Nat.le_gt_cases (length a) 120) as [Hle | Hgt].
  - replace (length a - 120)%nat with 0%nat by lia. cbn [drop].
    now rewrite Nat.sub_0_r.
  - replace (length a - (length a - 120) + length b - 120)%nat
      with (length b) by lia.
    replace (length a + length b - 120)%nat
      with ((length a - 120) + length b)%nat by lia.
    rewrite <- drop_drop.
    f_equal. rewrite drop_app_le by lia. reflexivity.
Qed.

Lemma length_last_120 {A} (l : list A) : (length (last_120 l) <= 120)%nat.
Proof. unfold last_120. rewrite length_drop. lia. Qed.

(** The logger over the lines of one call, in terms of its own cut. *)
Lemma logger_window (messages : list jsstring) (s : state) :
  (length (logs s) <= 120)%nat ->
  (isMountedRef s = true ->
   logs (fst (fst (logger messages s))) = last_120 (logs s ++ messages))
  /\ (isMountedRef s = false -> fst (fst (logger messages s)) = s)
  /\ (length (logs (fst (fst (logger messages s)))) <= 120)%nat
  /\ snd (fst (logger messages s)) = []
  /\ snd (logger messages s) = Ok tt
  /\ setLogs (fun _ => logs s) (fst (fst (logger messages s))) = s.
Proof.
  revert s. induction messages as [| message rest IH]; intros s Hlen.
  - cbn [logger ret fst snd]. rewrite app_nil_r.
    split; [intros _; unfold last_120;
            replace (length (logs s) - 120)%nat with 0%nat by lia; reflexivity |].
    split; [reflexivity |]. split; [exact Hlen |].
    split; [reflexivity |]. split; [reflexivity |]. now destruct s.
  - rewrite logger_step. destruct (isMountedRef s) eqn:Hm.
    + set (s1 := setLogs (fun prev => last_120 (prev ++ [message])) s).
      destruct (IH s1) as (Hon & _ & Hbound & Htr & Hok & Hframe);
        [apply length_last_120 |].
      assert (Hm1 : isMountedRef s1 = true) by exact Hm.
      split.
      { intros _. rewrite (Hon Hm1). subst s1. cbn [logs setLogs].
        rewrite last_120_absorbs, <- app_assoc. reflexivity. }
      split; [discriminate |]. split; [exact Hbound |].
      split; [exact Htr |]. split; [exact Hok |].
      apply (f_equal (setLogs (fun _ => logs s))) in Hframe.
      subst s1. destruct s; cbn in *. exact Hframe.
    + destruct (IH s Hlen) as (_ & Hoff & Hbound & Htr & Hok & Hframe).
      split; [discriminate |]. split; [intros _; now apply Hoff |].
      split; [exact Hbound |]. split; [exact Htr |]. split; [exact Hok | exact Hframe].
Qed.

(** X17. The log of the encoder is a window of the last 120 lines. While
    the component is mounted, logging some lines leaves the old log
    followed by the new lines, less as many of the oldest as it takes to
    keep 120: the log grows to 120 lines and stays there, and up to 120
    new lines are all in it, as its last lines. Once the component is not
    mounted the log stays as it is. The logger calls no collaborator,
    cannot throw, and writes nothing but the log. *)
Theorem log_is_a_window (messages : list jsstring) (s : state) :
  (length (logs s) <= 120)%nat ->
  (isMountedRef s = true ->
   logs (fst (fst (logger messages s)))
     = drop (length (logs s) + length messages - 120) (logs s ++ messages)
   /\ length (logs (fst (fst (logger messages s))))
      = Nat.min 120 (length (logs s) + length messages)
   /\ ((length messages <= 120)%nat ->
       drop (length (logs (fst (fst (logger messages s)))) - length messages)
         (logs (fst (fst (logger messages s))))
       = messages))
  /\ (isMountedRef s = false -> fst (fst (logger messages s)) = s)
  /\ (length (logs (fst (fst (logger messages s)))) <= 120)%nat
  /\ snd (fst (logger messages s)) = []
  /\ snd (logger messages s) = Ok tt
  /\ setLogs (fun _ => logs s) (fst (fst (logger messages s))) = s.
Proof.
  intros Hlen.
  destruct (logger_window messages s Hlen) as (Hon & Hoff & Hbound & Htr & Hok & Hframe).
  split; [| repeat split; assumption].
  intros Hm. rewrite (Hon Hm). unfold last_120. rewrite length_app.
  split; [reflexivity |].
  split; [rewrite length_drop, length_app; lia |].
  intros Hfew. rewrite length_drop, length_app, drop_drop.
  replace (length (logs s) + length messages - 120
           + (length (logs s) + length messages
              - (length (logs s) + length messages - 120) - length messages))%nat
    with (length (logs s)) by lia.
  apply drop_app_length.
Qed.

Lemma preserves_ensureFFmpeg (I : state -> Prop) (env : collaborators) :
  stable I -> preserves I (ensureFFmpeg env).
Proof.
  intros HI. unfold ensureFFmpeg.
  apply preserves_bind; [now apply preserves_pure |]. intros s0.
  destruct (ffmpegRef s0); [now apply preserves_pure |].
  apply preserves_bind; [now apply preserves_logger |]. intros _.
  apply preserves_bind; [now apply preserves_pure |]. intros _.
  apply preserves_modify. apply (stable_ffmpegRef I HI).
Qed.

Lemma preserves_render_slides (I : state -> Prop) (env : collaborators) (total : nat)
    (items : list IndiaUpdate) :
  forall index slideNames, preserves I (render_slides env total items index slideNames).
Proof.
  induction items as [| update rest IH]; intros index slideNames;
    [now apply preserves_pure |].
  cbn [render_slides].
  apply preserves_bind; [now apply preserves_pure |]. intros slideData.
  apply preserves_bind; [now apply preserves_pure |]. intros _. apply IH.
Qed.

Lemma preserves_revoke (I : state -> Prop) (url : option jsstring) :
  preserves I (revoke_if_set url).
Proof.
  apply preserves_pure. intros s. unfold revoke_if_set.
  destruct url as [u |]; [destruct (truthy u) |]; reflexivity.
Qed.

(** The [try] block keeps every invariant that the setters keep. *)
Lemma preserves_generation (I : state -> Prop) (env : collaborators) (closure : state) :
  stable I -> preserves I (generation env closure).
Proof.
  intros HI. unfold generation. cbv zeta.
  apply preserves_bind; [now apply preserves_ensureFFmpeg | intros _].
  apply preserves_bind; [apply preserves_render_slides | intros slideNames].
  apply preserves_bind; [now apply preserves_pure | intros _].
  apply preserves_bind.
  { destruct (Wav.generateSilenceWav _); now apply preserves_pure. }
  intros silence.
  apply preserves_bind; [now apply preserves_pure | intros _].
  apply preserves_bind; [now apply preserves_logger | intros _].
  apply preserves_bind; [now apply preserves_pure | intros _].
  apply preserves_bind; [now apply preserves_pure | intros data].
  apply preserves_bind; [now apply preserves_pure | intros url].
  apply preserves_bind; [apply preserves_revoke | intros _].
  apply preserves_bind; [| intros _].
  - apply preserves_publish. intros s. apply (stable_setVideoUrl I HI).
  - apply preserves_modify. intros s. apply (stable_setVideoDuration I HI).
Qed.

(** A request past its guard keeps, from the start of the [try] block
    on, every invariant that the setters keep. *)
Lemma request_keeps (I : state -> Prop) (env : collaborators) (s : state) :
  stable I -> updates s <> [] -> I (started s) -> I (fst (request env s)).
Proof.
  intros HI Hne Hstart. unfold request. rewrite handle_nonempty by exact Hne.
  destruct (generation env s (started s)) as [[s1 tr1] r] eqn:Egen.
  pose proof (preserves_generation I env s HI _ _ _ _ Egen Hstart) as H1.
  assert (Hfinish : forall s0, I s0 -> I (finish s0)).
  { intros s0 H0. unfold finish. destruct (isMountedRef s0) eqn:Hm; [| exact H0].
    now apply (stable_finish I HI). }
  assert (Hend : forall s2 tr2, I s2 ->
            I (fst (if decide (videoUrl s2 = videoUrl s) then (s2, tr2)
                    else match videoUrl_cleanup (videoUrl s) s2 with
                         | (s3, tr3, _) => (s3, tr2 ++ tr3)
                         end))).
  { intros s2 tr2 H2. destruct (decide (videoUrl s2 = videoUrl s)); [exact H2 |].
    rewrite cleanup_result. now apply (stable_isMountedRef I HI). }
  destruct r as [[] | t]; apply Hend, Hfinish; [exact H1 |].
  now apply (stable_setError I HI).
Qed.

(** X18. A request to generate leaves the items, the narration and the
    loading flag as they are, however it ends. *)
Theorem request_keeps_items (env : collaborators) (s : state) :
  updates (fst (request env s)) = updates s
  /\ narration (fst (request env s)) = narration s
  /\ loadingUpdates (fst (request env s)) = loadingUpdates s.
Proof.
  destruct (updates s) as [| update rest] eqn:Hup.
  - destruct (request_cases env s) as [[_ ->] | [[Hne _] | [Hne _]]];
      try congruence.
    cbn. now rewrite Hup.
  - rewrite <- Hup.
    apply (request_keeps
             (fun s' => updates s' = updates s /\ narration s' = narration s
                        /\ loadingUpdates s' = loadingUpdates s)).
    + constructor; intros; assumption.
    + rewrite Hup. discriminate.
    + repeat split.
Qed.

(** X19. The effect that releases the video handle also clears the
    mounted flag, and nothing sets it again: a request that changes the
    video on offer ends with the flag cleared; and a request made with
    the flag cleared, once past its guard, ends with the generating flag
    still set and with no log line, whether it succeeded or failed. *)
Theorem generating_flag_sticks (env : collaborators) (s : state) :
  (videoUrl (fst (request env s)) <> videoUrl s ->
   isMountedRef (fst (request env s)) = false)
  /\ (isMountedRef s = false -> updates s <> [] ->
      isGenerating (fst (request env s)) = true
      /\ logs (fst (request env s)) = []
      /\ isMountedRef (fst (request env s)) = false).
Proof.
  split.
  - unfold request. destruct (handleGenerateVideo env s s) as [[s1 tr1] r1].
    destruct (decide (videoUrl s1 = videoUrl s)) as [Hsame | Hother].
    + cbn [fst]. congruence.
    + rewrite cleanup_result. reflexivity.
  - intros Hoff Hne.
    apply (request_keeps
             (fun s' => isGenerating s' = true /\ logs s' = []
                        /\ isMountedRef s' = false)).
    + constructor; try (intros; assumption).
      * intros s0 (_ & _ & Hm) Hon. congruence.
      * intros s0 (Hg & Hl & Hm). repeat split; assumption.
      * intros s0 message (_ & _ & Hm) Hon. congruence.
    + exact Hne.
    + repeat split. exact Hoff.
Qed.

Lemma logger_only_logs (messages : list jsstring) (s : state) :
  setLogs (fun _ => logs s) (fst (fst (logger messages s))) = s.
Proof.
  revert s. induction messages as [| message rest IH]; intros s;
    [now destruct s |].
  rewrite logger_step. destruct (isMountedRef s); [| apply IH].
  pose proof (IH (setLogs (fun prev => last_120 (prev ++ [message])) s)) as Hframe.
  apply (f_equal (setLogs (fun _ => logs s))) in Hframe.
  destruct s; cbn in *. exact Hframe.
Qed.

Lemma logger_run (messages : list jsstring) (s : state) :
  logger messages s = (fst (fst (logger messages s)), [], Ok tt).
Proof.
  destruct (logger_silent messages s) as [Htr Hok].
  destruct (logger messages s) as [[s1 tr1] r1]. cbn in *. now subst.
Qed.

Lemma never_render_slides (p : event -> bool) (env : collaborators) (total : nat)
    (items : list IndiaUpdate) :
  (forall i, p (RenderSlide i) = false) ->
  (forall name data, p (WriteFile name data) = false) ->
  forall index slideNames, never p (render_slides env total items index slideNames).
Proof.
  intros Hrender Hwrite.
  induction items as [| update rest IH]; intros index slideNames;
    [now apply never_silent |].
  cbn [render_slides].
  apply never_bind; [apply never_call, Hrender |]. intros slideData.
  apply never_bind; [apply never_call, Hwrite |]. intros _. apply IH.
Qed.

Lemma never_revoke (p : event -> bool) (url : option jsstring) :
  (forall u, p (RevokeObjectURL u) = false) -> never p (revoke_if_set url).
Proof.
  intros Hp. unfold revoke_if_set.
  destruct url as [u |]; [destruct (truthy u) |];
    (apply never_call, Hp) || now apply never_silent.
Qed.

Lemma ensure_loaded (env : collaborators) (s : state) :
  ffmpegRef s = true -> ensureFFmpeg env s = (s, [], Ok tt).
Proof. intros Hon. unfold ensureFFmpeg, bind, get. now rewrite Hon. Qed.

Lemma ensure_unloaded (env : collaborators) (s : state) :
  ffmpegRef s = false ->
  ensureFFmpeg env s
  = match snd (load env) with
    | Ok _ => (set_ffmpegRef true (fst (fst (logger (fst (load env)) s))), [Load], Ok tt)
    | Throw t => (fst (fst (logger (fst (load env)) s)), [Load], Throw t)
    end.
Proof.
  intros Hoff. unfold ensureFFmpeg. unfold bind at 1. cbn [get]. rewrite Hoff.
  unfold bind at 1. rewrite logger_run.
  unfold bind, call, modify. destruct (snd (load env)) as [[] | t]; reflexivity.
Qed.

(** The loading of the encoder within the [try] block. *)
Lemma generation_load (env : collaborators) (closure s s' : state)
    (tr : list event) (r : result unit) :
  generation env closure s = (s', tr, r) ->
  (ffmpegRef s = true ->
   Forall (fun e => is_load e = false) tr /\ ffmpegRef s' = true)
  /\ (ffmpegRef s = false ->
      exists rest : list event,
        tr = Load :: rest
        /\ Forall (fun e => is_load e = false) rest
        /\ (snd (load env) = Ok tt -> ffmpegRef s' = true)
        /\ (forall t, snd (load env) = Throw t ->
                      rest = [] /\ ffmpegRef s' = false /\ r = Throw t)).
Proof.
  assert (Hloaded : stable (fun s0 => ffmpegRef s0 = true))
    by (constructor; intros; assumption || reflexivity).
  unfold generation. cbv zeta. intros Hrun.
  apply bind_inv in Hrun.
  destruct Hrun as [(s1 & tr1 & [] & tr2 & Hens & Hrest & ->) | (t & Hens & ->)].
  - match type of Hrest with
    | ?k _ = _ =>
        assert (Hnever : never is_load k);
        [| assert (Hkeep : preserves (fun s0 => ffmpegRef s0 = true) k)]
    end.
    { apply never_bind;
        [apply never_render_slides; intros; reflexivity | intros slideNames].
      apply never_bind; [now apply never_call | intros _].
      apply never_bind.
      { destruct (Wav.generateSilenceWav _); now apply never_silent. }
      intros silence.
      apply never_bind; [now apply never_call | intros _].
      apply never_bind; [apply never_silent; intros s0; apply logger_silent | intros _].
      apply never_bind; [now apply never_call | intros _].
      apply never_bind; [now apply never_call | intros data].
      apply never_bind; [now apply never_call | intros url].
      apply never_bind; [apply never_revoke; intros; reflexivity | intros _].
      apply never_bind; [now apply never_publish | intros _]. now apply never_silent. }
    { apply preserves_bind; [apply preserves_render_slides | intros slideNames].
      apply preserves_bind; [now apply preserves_pure | intros _].
      apply preserves_bind.
      { destruct (Wav.generateSilenceWav _); now apply preserves_pure. }
      intros silence.
      apply preserves_bind; [now apply preserves_pure | intros _].
      apply preserves_bind; [now apply preserves_logger | intros _].
      apply preserves_bind; [now apply preserves_pure | intros _].
      apply preserves_bind; [now apply preserves_pure | intros data].
      apply preserves_bind; [now apply preserves_pure | intros url].
      apply preserves_bind; [apply preserves_revoke | intros _].
      apply preserves_bind; [now apply preserves_publish | intros _].
      now apply preserves_modify. }
    pose proof (Hnever _ _ _ _ Hrest) as Htr2.
    split.
    + intros Hon. rewrite ensure_loaded in Hens by exact Hon.
      injection Hens as <- <-. split; [exact Htr2 |].
      exact (Hkeep _ _ _ _ Hrest Hon).
    + intros Hoff. rewrite ensure_unloaded in Hens by exact Hoff.
      destruct (snd (load env)) as [[] | t] eqn:Hload; [| discriminate].
      injection Hens as <- <-. exists tr2.
      split; [reflexivity |]. split; [exact Htr2 |].
      split; [intros _; exact (Hkeep _ _ _ _ Hrest eq_refl) | discriminate].
  - split.
    + intros Hon. rewrite ensure_loaded in Hens by exact Hon. discriminate.
    + intros Hoff. rewrite ensure_unloaded in Hens by exact Hoff.
      destruct (snd (load env)) as [[] | t'] eqn:Hload; [discriminate |].
      injection Hens as <- <- <-. exists [].
      split; [reflexivity |]. split; [constructor |].
      split; [discriminate |].
      intros t0 [= <-]. split; [reflexivity |]. split; [| reflexivity].
      pose proof (logger_only_logs (fst (load env)) s) as Hframe.
      apply (f_equal ffmpegRef) in Hframe. cbn in Hframe. congruence.
Qed.

Lemma revocations_not_load (url : option jsstring) :
  Forall (fun e => is_load e = false) (revocations url).
Proof. destruct url as [u |]; cbn; [destruct (truthy u) |]; repeat constructor. Qed.

(** X20. The encoder is loaded once and kept. A request made with the
    encoder loaded never loads it again and leaves it loaded. A request
    past its guard without it loads it first, and only once; when the
    loading succeeds the encoder stays loaded whatever fails later, and
    when it fails the request ends there with its error text, so that the
    next request tries again. *)
Theorem encoder_loaded_once (env : collaborators) (s : state) :
  (ffmpegRef s = true ->
   Forall (fun e => is_load e = false) (snd (request env s))
   /\ ffmpegRef (fst (request env s)) = true)
  /\ (ffmpegRef s = false -> updates s <> [] ->
      exists rest : list event,
        snd (request env s) = Load :: rest
        /\ Forall (fun e => is_load e = false) rest
        /\ (snd (load env) = Ok tt -> ffmpegRef (fst (request env s)) = true)
        /\ (forall t, snd (load env) = Throw t ->
                      rest = []
                      /\ ffmpegRef (fst (request env s)) = false
                      /\ error (fst (request env s)) = Some (error_message t))).
Proof.
  destruct (updates s) as [| update items] eqn:Hup.
  { split; [| congruence]. intros Hon.
    destruct (request_cases env s) as [[_ ->] | [[Hne _] | [Hne _]]];
      try congruence.
    split; [constructor | exact Hon]. }
  assert (Hne : updates s <> []) by (rewrite Hup; discriminate).
  unfold request. rewrite handle_nonempty by exact Hne.
  destruct (generation env s (started s)) as [[s1 tr1] r] eqn:Egen.
  destruct (generation_load env s _ _ _ _ Egen) as [Hon Hoff].
  assert (Hfin : forall s0, ffmpegRef (finish s0) = ffmpegRef s0)
    by (intros s0; unfold finish; now destruct (isMountedRef s0)).
  assert (Hshape : forall s2,
            ffmpegRef (fst (if decide (videoUrl s2 = videoUrl s) then (s2, tr1)
                            else match videoUrl_cleanup (videoUrl s) s2 with
                                 | (s3, tr3, _) => (s3, tr1 ++ tr3)
                                 end)) = ffmpegRef s2
            /\ error (fst (if decide (videoUrl s2 = videoUrl s) then (s2, tr1)
                           else match videoUrl_cleanup (videoUrl s) s2 with
                                | (s3, tr3, _) => (s3, tr1 ++ tr3)
                                end)) = error s2
            /\ exists post,
                 snd (if decide (videoUrl s2 = videoUrl s) then (s2, tr1)
                      else match videoUrl_cleanup (videoUrl s) s2 with
                           | (s3, tr3, _) => (s3, tr1 ++ tr3)
                           end) = tr1 ++ post
                 /\ Forall (fun e => is_load e = false) post
                 /\ (videoUrl s2 = videoUrl s -> post = [])).
  { intros s2. destruct (decide (videoUrl s2 = videoUrl s)) as [Hsame | Hother].
    - repeat split. exists []. rewrite app_nil_r. repeat split. constructor.
    - rewrite cleanup_result. repeat split. exists (revocations (videoUrl s)).
      split; [reflexivity |]. split; [apply revocations_not_load | congruence]. }
  split.
  - intros Hloaded. destruct (Hon Hloaded) as [Htr Hkept].
    destruct r as [[] | t].
    + destruct (Hshape (finish s1)) as (Hf & _ & post & -> & Hpost & _).
      rewrite Hf, Hfin. split; [now apply Forall_app | exact Hkept].
    + destruct (Hshape (finish (setError (Some (error_message t)) s1)))
        as (Hf & _ & post & -> & Hpost & _).
      rewrite Hf, Hfin. split; [now apply Forall_app | exact Hkept].
  - intros Hunloaded _. destruct (Hoff Hunloaded) as (rest & -> & Hrest & Hok & Hfail).
    destruct r as [[] | t].
    + destruct (Hshape (finish s1)) as (Hf & _ & post & -> & Hpost & _).
      exists (rest ++ post). split; [reflexivity |].
      split; [now apply Forall_app |].
      rewrite Hf, Hfin. split; [exact Hok |].
      intros t Ht. destruct (Hfail t Ht) as (_ & _ & Hr). discriminate.
    + destruct (Hshape (finish (setError (Some (error_message t)) s1)))
        as (Hf & He & post & -> & Hpost & Hnone).
      exists (rest ++ post). split; [reflexivity |].
      split; [now apply Forall_app |].
      rewrite Hf, He, Hfin. split; [exact Hok |].
      intros t0 Ht0. destruct (Hfail t0 Ht0) as (-> & Hoff' & [= <-]).
      destruct (finish_fields (setError (Some (error_message t)) s1))
        as (Furl & _ & Ferr).
      destruct (settles_generation env s _ _ _ _ Egen) as [(Kurl & _ & _) _].
      rewrite Hnone by (rewrite Furl; exact Kurl).
      split; [reflexivity |]. split; [exact Hoff' | exact Ferr].
Qed.

End RunFacts.

(** ** What the encoder is given *)

Section EncoderInput.

Import Feed Orchestrator Run.

(** The slide loop, when it ends normally: the names it returns, and the
    file it has written for each item. *)
Lemma render_slides_writes (env : collaborators) (total : nat)
    (items : list IndiaUpdate) :
  forall (index : nat) (slideNames : list jsstring) (s s' : state)
         (tr : list event) (names : list jsstring),
    render_slides env total items index slideNames s = (s', tr, Ok names) ->
    names = slideNames ++ List.map slide_name (seq index (length items))
    /\ (forall i item, items !! i = Some item ->
          exists data, renderSlide env item (index + i) total = Ok data
                       /\ In (RenderSlide (index + i)) tr
                       /\ In (WriteFile (slide_name (index + i)) data) tr).
Proof.
  induction items as [| update rest IH]; intros index slideNames s s' tr names Hrun.
  - injection Hrun as <- <- <-. cbn. rewrite app_nil_r.
    split; [reflexivity | intros i item Hi; discriminate Hi].
  - cbn [render_slides] in Hrun.
    apply bind_inv in Hrun.
    destruct Hrun as [(s1 & tr1 & data & tr2 & Hrender & Hrun & ->) | (t & _ & [=])].
    injection Hrender as <- <- Hdata.
    apply bind_inv in Hrun.
    destruct Hrun as [(s2 & tr3 & [] & tr4 & Hwrite & Hrun & ->) | (t & _ & [=])].
    injection Hwrite as <- <- _.
    destruct (IH _ _ _ _ _ _ Hrun) as [-> Hrest].
    split.
    { cbn [length seq List.map]. now rewrite <- app_assoc. }
    intros [| i] item Hi.
    + injection Hi as <-. exists data. rewrite Nat.add_0_r.
      split; [exact Hdata |]. split; [now left | right; now left].
    + destruct (Hrest i item Hi) as (d & Hd & Hr & Hw).
      replace (index + S i)%nat with (S index + i)%nat by lia.
      exists d. split; [exact Hd |].
      split; right; right; assumption.
Qed.

(** What has happened when the [try] block reaches the encoder. *)
Lemma generation_input (env : collaborators) (closure s s' : state)
    (tr : list event) (r : result unit) :
  generation env closure s = (s', tr, r) ->
  Exists (fun e => is_run e = true) tr ->
  exists (pre post : list event) (silence : list Z),
    tr = pre ++ Run encoder_args :: post
    /\ Forall (fun e => is_run e = false) pre
    /\ Forall (fun e => is_run e = false) post
    /\ (forall i item, updates closure !! i = Some item ->
          exists data, renderSlide env item i (length (updates closure)) = Ok data
                       /\ In (WriteFile (slide_name i) data) pre)
    /\ In (WriteFile (js "slides.txt")
             (encode (Manifest.buildConcatScript
                        (List.map slide_name (seq 0 (length (updates closure))))
                        (Planner.perSlideDuration
                           (Z.of_nat (length (updates closure)))))))
          pre
    /\ Wav.generateSilenceWav
         (Planner.finalDuration (Z.of_nat (length (updates closure))))
       = Some silence
    /\ In (WriteFile (js "silence.wav") silence) pre.
Proof.
  unfold generation, Planner.finalDuration. cbv zeta. intros Hrun Hex.
  assert (Hno : forall (t1 : list event),
            Forall (fun e => is_run e = false) t1 ->
            Exists (fun e => is_run e = true) t1 -> False).
  { intros t1 Hall Hsome. apply Exists_exists in Hsome.
    destruct Hsome as (e & Hin & He). rewrite Forall_forall in Hall.
    rewrite (Hall e Hin) in He. discriminate. }
  (* ensureFFmpeg *)
  apply bind_inv in Hrun.
  destruct Hrun as [(s1 & tr1 & [] & tr2 & H1 & Hrun & ->) | (t & H1 & _)]; cycle 1.
  { exfalso. revert Hex. apply Hno.
    assert (Hn : never is_run (ensureFFmpeg env)).
    { unfold ensureFFmpeg. apply never_bind; [now apply never_silent | intros s0].
      destruct (ffmpegRef s0); [now apply never_silent |].
      apply never_bind; [apply never_silent; intros s2; apply logger_silent | intros _].
      apply never_bind; [now apply never_call | intros _]. now apply never_silent. }
    exact (Hn _ _ _ _ H1). }
  assert (Hq1 : Forall (fun e => is_run e = false) tr1).
  { assert (Hn : never is_run (ensureFFmpeg env)).
    { unfold ensureFFmpeg. apply never_bind; [now apply never_silent | intros s0].
      destruct (ffmpegRef s0); [now apply never_silent |].
      apply never_bind; [apply never_silent; intros s2; apply logger_silent | intros _].
      apply never_bind; [now apply never_call | intros _]. now apply never_silent. }
    exact (Hn _ _ _ _ H1). }
  (* the slides *)
  apply bind_inv in Hrun.
  assert (Hslides : never is_run
            (render_slides env (length (updates closure)) (updates closure) 0 []))
    by (apply never_render_slides; intros; reflexivity).
  destruct Hrun as [(s2 & tr3 & names & tr4 & H2 & Hrun & ->) | (t & H2 & _)]; cycle 1.
  { exfalso. revert Hex. apply Hno.
    apply Forall_app. split; [exact Hq1 | exact (Hslides _ _ _ _ H2)]. }
  pose proof (Hslides _ _ _ _ H2) as Hq2.
  destruct (render_slides_writes _ _ _ _ _ _ _ _ _ H2) as [Hnames Hfiles].
  cbn [app] in Hnames. subst names.
  (* the manifest *)
  apply bind_inv in Hrun.
  destruct Hrun as [(s3 & tr5 & [] & tr6 & H3 & Hrun & ->) | (t & H3 & _)]; cycle 1.
  { exfalso. injection H3 as _ <- _. revert Hex. apply Hno.
    repeat (apply Forall_app; split); try assumption. now repeat constructor. }
  injection H3 as <- <- _.
  (* the silence *)
  apply bind_inv in Hrun.
  destruct (Wav.generateSilenceWav _) as [silence |] eqn:Hsilence; cycle 1.
  { exfalso. destruct Hrun as [(? & ? & ? & ? & [=] & _) | (t & H4 & _)].
    injection H4 as _ <- _. revert Hex. apply Hno.
    repeat (apply Forall_app; split); try assumption; now repeat constructor. }
  destruct Hrun as [(s4 & tr7 & buffer & tr8 & H4 & Hrun & ->) | (t & [=] & _)].
  injection H4 as <- <- <-.
  apply bind_inv in Hrun.
  destruct Hrun as [(s5 & tr9 & [] & tr10 & H5 & Hrun & ->) | (t & H5 & _)]; cycle 1.
  { exfalso. injection H5 as _ <- _. revert Hex. apply Hno.
    repeat (apply Forall_app; split); try assumption; now repeat constructor. }
  injection H5 as <- <- _.
  (* the logger, then the encoder *)
  apply bind_inv in Hrun. rewrite logger_run in Hrun.
  destruct Hrun as [(s6 & tr11 & [] & tr12 & H6 & Hrun & ->) | (t & [=] & _)].
  injection H6 as <- <-.
  apply bind_inv in Hrun.
  destruct Hrun as [(s7 & tr13 & [] & tr14 & H7 & Hrun & ->) | (t & H7 & ->)].
  - injection H7 as <- <- _.
    exists (tr1 ++ tr3 ++ [WriteFile (js "slides.txt")
                           (encode (Manifest.buildConcatScript
                              (List.map slide_name (seq 0 (length (updates closure))))
                              (Planner.perSlideDuration
                                 (Z.of_nat (length (updates closure))))))]
            ++ [WriteFile (js "silence.wav") silence]), tr14, silence.
    split; [rewrite <- !app_assoc; reflexivity |].
    split.
    { repeat (apply Forall_app; split); try assumption; now repeat constructor. }
    split.
    { match type of Hrun with
      | ?k _ = _ => assert (Hn : never is_run k)
      end.
      { apply never_bind; [now apply never_call | intros data].
        apply never_bind; [now apply never_call | intros url].
        apply never_bind; [apply never_revoke; intros; reflexivity | intros _].
        apply never_bind; [now apply never_publish | intros _].
        now apply never_silent. }
      exact (Hn _ _ _ _ Hrun). }
    split.
    { intros i item Hi. destruct (Hfiles i item Hi) as (data & Hd & _ & Hw).
      exists data. split; [exact Hd |].
      apply List.in_app_iff. right. apply List.in_app_iff. now left. }
    split.
    { apply List.in_app_iff. right. apply List.in_app_iff. right. now left. }
    split; [reflexivity |].
    apply List.in_app_iff. right. apply List.in_app_iff. right. right. now left.
  - injection H7 as <- <- _.
    exists (tr1 ++ tr3 ++ [WriteFile (js "slides.txt")
                           (encode (Manifest.buildConcatScript
                              (List.map slide_name (seq 0 (length (updates closure))))
                              (Planner.perSlideDuration
                                 (Z.of_nat (length (updates closure))))))]
            ++ [WriteFile (js "silence.wav") silence]), [], silence.
    split; [rewrite <- !app_assoc; reflexivity |].
    split.
    { repeat (apply Forall_app; split); try assumption; now repeat constructor. }
    split; [constructor |].
    split.
    { intros i item Hi. destruct (Hfiles i item Hi) as (data & Hd & _ & Hw).
      exists data. split; [exact Hd |].
      apply List.in_app_iff. right. apply List.in_app_iff. now left. }
    split.
    { apply List.in_app_iff. right. apply List.in_app_iff. right. now left. }
    split; [reflexivity |].
    apply List.in_app_iff. right. apply List.in_app_iff. right. right. now left.
Qed.

(** The silent track of a host that has the memory. *)
Lemma generateSilenceWav_domain (d : Z) :
  (0 <= d /\ 44 + Wav.dataLength d <= 2 ^ 53 - 1 ->
   Wav.generateSilenceWav d
   = Some (Wav.header ((36 + Wav.dataLength d) mod 2 ^ 32)
             (Wav.dataLength d mod 2 ^ 32)
           ++ replicate (Z.to_nat (Wav.dataLength d)) 0))
  /\ (d < 0 \/ 2 ^ 53 - 1 < 44 + Wav.dataLength d ->
      Wav.generateSilenceWav d = None).
Proof.
  assert (HL : Wav.dataLength d = d * 88200)
    by (unfold Wav.dataLength, Wav.sampleRate, Wav.bytesPerSample, Wav.channels; lia).
  split.
  - intros [Hd Hmax]. apply generateSilenceWav_shape; lia.
  - intros Hout. unfold Wav.generateSilenceWav, Wav.new_ArrayBuffer.
    destruct (Z.leb_spec 0 (44 + Wav.dataLength d));
      destruct (Z.leb_spec (44 + Wav.dataLength d) (2 ^ 53 - 1));
      cbn [andb]; try reflexivity.
    lia.
Qed.

(** X21. The silent track, beyond the lengths that fit its header.
    Whenever it is returned the duration is not negative, the track has
    [44 + d*44100*2] bytes, the samples are zero, the rate, channel and
    sample-size fields are those of 44100 Hz mono 16-bit audio, and the
    two length fields hold the lengths modulo 2^32. It is never returned
    for a negative duration, nor for one whose buffer would be longer than
    the [2^53 - 1] bytes that an [ArrayBuffer] can be asked for. *)
Theorem silence_track_whenever_returned (d : Z) :
  (forall buffer : list Z,
     Wav.generateSilenceWav d = Some buffer ->
     0 <= d
     /\ Z.of_nat (length buffer) = 44 + d * 44100 * 2
     /\ drop 44 buffer = replicate (Z.to_nat (d * 44100 * 2)) 0
     /\ Wav.field 4 40 buffer = (d * 44100 * 2) mod 2 ^ 32
     /\ Wav.field 4 4 buffer = (36 + d * 44100 * 2) mod 2 ^ 32
     /\ Wav.field 4 24 buffer = 44100
     /\ Wav.field 4 28 buffer = 88200
     /\ Wav.field 2 22 buffer = 1
     /\ Wav.field 2 32 buffer = 2
     /\ Wav.field 2 34 buffer = 16)
  /\ (d < 0 \/ 2 ^ 53 - 1 < 44 + d * 44100 * 2 ->
      Wav.generateSilenceWav d = None).
Proof.
  assert (HL : Wav.dataLength d = d * 44100 * 2)
    by (unfold Wav.dataLength, Wav.sampleRate, Wav.bytesPerSample, Wav.channels; lia).
  destruct (generateSilenceWav_domain d) as [Hin Hout]. rewrite HL in *.
  split; [| exact Hout].
  intros buffer Hbuffer.
  destruct (Z_lt_le_dec d 0) as [Hneg | Hpos];
    [rewrite Hout in Hbuffer by (now left); discriminate Hbuffer |].
  destruct (Z_lt_le_dec (2 ^ 53 - 1) (44 + d * 44100 * 2)) as [Hbig | Hfit];
    [rewrite Hout in Hbuffer by (now right); discriminate Hbuffer |].
  rewrite Hin in Hbuffer by (split; assumption).
  assert (Hb : buffer
               = Wav.header ((36 + d * 44100 * 2) mod 2 ^ 32) ((d * 44100 * 2) mod 2 ^ 32)
                 ++ replicate (Z.to_nat (d * 44100 * 2)) 0) by congruence.
  rewrite Hb. clear Hb Hbuffer Hin Hout.
  destruct (header_fields ((36 + d * 44100 * 2) mod 2 ^ 32) ((d * 44100 * 2) mod 2 ^ 32)
              (replicate (Z.to_nat (d * 44100 * 2)) 0))
    as (Hlen & Hdrop & _ & Hriff & Hdata & Hch & Hrate & Hbyte & Halign & Hbits).
  rewrite Hlen, Hdrop, Hriff, Hdata, Hch, Hrate, Hbyte, Halign, Hbits.
  rewrite length_replicate.
  rewrite !le_value_le_bytes_4 by (apply Z.mod_pos_bound; lia).
  repeat split; lia.
Qed.

Lemma silence_length (d : Z) (silence : list Z) :
  Wav.generateSilenceWav d = Some silence ->
  0 <= d /\ Z.of_nat (length silence) = 44 + d * 88200.
Proof.
  intros Hs. destruct (generateSilenceWav_domain d) as [Hin Hout].
  assert (HL : Wav.dataLength d = d * 88200)
    by (unfold Wav.dataLength, Wav.sampleRate, Wav.bytesPerSample, Wav.channels; lia).
  destruct (Z_lt_le_dec d 0) as [Hneg | Hpos];
    [rewrite Hout in Hs by (now left); discriminate |].
  destruct (Z_lt_le_dec (2 ^ 53 - 1) (44 + Wav.dataLength d)) as [Hbig | Hfit];
    [rewrite Hout in Hs by (now right); discriminate |].
  rewrite Hin in Hs by (split; assumption).
  assert (Hsil : silence
                 = Wav.header ((36 + Wav.dataLength d) mod 2 ^ 32)
                     (Wav.dataLength d mod 2 ^ 32)
                   ++ replicate (Z.to_nat (Wav.dataLength d)) 0) by congruence.
  rewrite Hsil. clear Hs Hin Hsil.
  split; [exact Hpos |].
  destruct (header_fields ((36 + Wav.dataLength d) mod 2 ^ 32)
              (Wav.dataLength d mod 2 ^ 32)
              (replicate (Z.to_nat (Wav.dataLength d)) 0)) as (Hlen & _).
  rewrite Hlen, length_replicate. lia.
Qed.

(** X22. When a request runs the encoder it runs it once, and the
    encoder then finds its input in place: for each item a slide file,
    named by the item's position, holding what the renderer returned for
    it; the manifest of those names, in order, with the per-slide
    duration of the plan; and a silent track as long as the plan's total. *)
Theorem encoder_input_is_ready (env : collaborators) (s : state) :
  Exists (fun e => is_run e = true) (snd (request env s)) ->
  exists (pre post : list event) (silence : list Z),
    snd (request env s) = pre ++ Run encoder_args :: post
    /\ Forall (fun e => is_run e = false) pre
    /\ Forall (fun e => is_run e = false) post
    /\ (forall i item, updates s !! i = Some item ->
          exists data, renderSlide env item i (length (updates s)) = Ok data
                       /\ In (WriteFile (slide_name i) data) pre)
    /\ In (WriteFile (js "slides.txt")
             (encode (Manifest.buildConcatScript
                        (List.map slide_name (seq 0 (length (updates s))))
                        (Planner.perSlideDuration (Z.of_nat (length (updates s)))))))
          pre
    /\ In (WriteFile (js "silence.wav") silence) pre
    /\ Wav.generateSilenceWav (Planner.totalDuration (Z.of_nat (length (updates s))))
       = Some silence
    /\ Z.of_nat (length silence)
       = 44 + Planner.totalDuration (Z.of_nat (length (updates s))) * 44100 * 2.
Proof.
  intros Hex.
  destruct (updates s) as [| update items] eqn:Hup.
  { exfalso. destruct (request_cases env s) as [[_ Hreq] | [[Hne _] | [Hne _]]];
      try congruence.
    rewrite Hreq in Hex. inversion Hex. }
  assert (Hne : updates s <> []) by (rewrite Hup; discriminate).
  rewrite <- Hup in *.
  assert (Htotal : Planner.totalDuration (Z.of_nat (length (updates s)))
                   = Planner.finalDuration (Z.of_nat (length (updates s)))).
  { apply totalDuration_finalDuration. destruct (updates s); [congruence |].
    cbn [length]. lia. }
  unfold request in *. rewrite handle_nonempty in * by exact Hne.
  destruct (generation env s (started s)) as [[s1 tr1] r] eqn:Egen.
  assert (Htrace : exists s2 extra,
            (let '(s0, tr0, _) :=
               match r with
               | Ok _ => (finish s1, tr1, Ok tt)
               | Throw t => (finish (setError (Some (error_message t)) s1), tr1, Ok tt)
               end in
             if decide (videoUrl s0 = videoUrl s) then (s0, tr0)
             else match videoUrl_cleanup (videoUrl s) s0 with
                  | (s3, tr3, _) => (s3, tr0 ++ tr3)
                  end) = (s2, tr1 ++ extra)
            /\ Forall (fun e => is_run e = false) extra).
  { destruct r as [[] | t];
      match goal with
      | |- context [decide (videoUrl ?s0 = videoUrl s)] =>
          destruct (decide (videoUrl s0 = videoUrl s));
          [exists s0, []; rewrite app_nil_r; split; [reflexivity | constructor]
          | rewrite cleanup_result; eexists _, _; split; [reflexivity |]]
      end;
      (eapply Forall_impl; [apply revocations_revoke | now intros e [-> _]]). }
  destruct Htrace as (s2 & extra & Heq & Hextra).
  destruct r as [[] | t]; rewrite Heq in *; cbn [snd] in *.
  all: assert (Hgen : Exists (fun e => is_run e = true) tr1)
    by (apply Exists_app in Hex; destruct Hex as [Hex | Hex]; [exact Hex |];
        exfalso; apply Exists_exists in Hex; destruct Hex as (e & Hin & He);
        rewrite Forall_forall in Hextra; rewrite (Hextra e Hin) in He; discriminate).
  all: destruct (generation_input env s _ _ _ _ Egen Hgen)
    as (pre & post & silence & -> & Hpre & Hpost & Hfiles & Hmanifest & Hsil & Hwav).
  all: exists pre, (post ++ extra), silence.
  all: rewrite <- app_assoc; split; [reflexivity |].
  all: split; [exact Hpre |]; split; [now apply Forall_app |].
  all: split; [exact Hfiles |]; split; [exact Hmanifest |]; split; [exact Hwav |].
  all: rewrite Htotal; split; [exact Hsil |].
  all: destruct (silence_length _ _ Hsil) as [_ Hlen]; lia.
Qed.

End EncoderInput.

(** ** The release of the previous video *)

Section Release.

Import Feed Orchestrator Run.

(** The calls of a [try] block that ends normally: the loading and the
    slides, then the manifest, the silent track, the encoder, the reading
    of its output and the new handle, then the release of the video the
    handler closed over, and last the publication. *)
Lemma generation_calls (env : collaborators) (closure s s' : state) (tr : list event) :
  generation env closure s = (s', tr, Ok tt) ->
  exists (head : list event) (silence data : list Z) (url : jsstring),
    tr = head
         ++ encoding_calls (length (updates closure)) silence data
         ++ revocations (videoUrl closure) ++ [SetVideoUrl url]
    /\ Forall (fun e => is_revoke e = false /\ is_publish e = false) head
    /\ (forall i item, updates closure !! i = Some item ->
          In (RenderSlide i) head
          /\ exists png, In (WriteFile (slide_name i) png) head)
    /\ Wav.generateSilenceWav
         (Planner.finalDuration (Z.of_nat (length (updates closure))))
       = Some silence
    /\ videoUrl s' = Some url.
Proof.
  unfold generation, Planner.finalDuration. cbv zeta. intros Hrun.
  apply bind_inv in Hrun.
  destruct Hrun as [(s1 & tr1 & [] & tr2 & H1 & Hrun & ->) | (t & _ & [=])].
  destruct (quiet_ensureFFmpeg env _ _ _ _ H1) as [_ Hq1].
  apply bind_inv in Hrun.
  destruct Hrun as [(s2 & tr3 & names & tr4 & H2 & Hrun & ->) | (t & _ & [=])].
  destruct (quiet_render_slides env _ _ _ _ _ _ _ _ H2) as [_ Hq2].
  destruct (render_slides_writes _ _ _ _ _ _ _ _ _ H2) as [Hnames Hfiles].
  cbn [app] in Hnames. subst names.
  apply bind_inv in Hrun.
  destruct Hrun as [(s3 & tr5 & [] & tr6 & H3 & Hrun & ->) | (t & _ & [=])].
  injection H3 as <- <- _.
  apply bind_inv in Hrun.
  destruct (Wav.generateSilenceWav _) as [silence |] eqn:Hsilence; cycle 1.
  { destruct Hrun as [(? & ? & ? & ? & [=] & _) | (t & _ & [=])]. }
  destruct Hrun as [(s4 & tr7 & buffer & tr8 & H4 & Hrun & ->) | (t & _ & [=])].
  injection H4 as <- <- <-.
  apply bind_inv in Hrun.
  destruct Hrun as [(s5 & tr9 & [] & tr10 & H5 & Hrun & ->) | (t & _ & [=])].
  injection H5 as <- <- _.
  apply bind_inv in Hrun. rewrite logger_run in Hrun.
  destruct Hrun as [(s6 & tr11 & [] & tr12 & H6 & Hrun & ->) | (t & _ & [=])].
  injection H6 as <- <-.
  apply bind_inv in Hrun.
  destruct Hrun as [(s7 & tr13 & [] & tr14 & H7 & Hrun & ->) | (t & _ & [=])].
  injection H7 as <- <- _.
  apply bind_inv in Hrun.
  destruct Hrun as [(s8 & tr15 & data & tr16 & H8 & Hrun & ->) | (t & _ & [=])].
  injection H8 as <- <- _.
  apply bind_inv in Hrun.
  destruct Hrun as [(s9 & tr17 & url & tr18 & H9 & Hrun & ->) | (t & _ & [=])].
  injection H9 as <- <- _.
  pose proof (settles_publish closure
                (Planner.perSlideDuration (Z.of_nat (length (updates closure)))
                 * Z.of_nat (length (updates closure))) url _ _ _ _ Hrun) as Hend.
  cbn in Hend. destruct Hend as (pre & url' & -> & Hpre & Hurl' & _ & _).
  assert (Hshape : pre = [] /\ url' = url).
  { revert Hrun. unfold publish, bind, revoke_if_set, revocations, modify, call, ret.
    destruct (videoUrl closure) as [u |]; [destruct (truthy u) |];
      intros [= _ Htr]; destruct pre as [| e pre];
      try (injection Htr as <-; now split);
      try (exfalso; apply Forall_cons in Hpre; destruct Hpre as [[Hr Hp] _];
           injection Htr as <- _; discriminate);
      try (exfalso; apply Forall_cons in Hpre; destruct Hpre as [[Hr Hp] _];
           destruct pre; injection Htr as <-; discriminate). }
  destruct Hshape as [-> ->].
  exists (tr1 ++ tr3), silence, data, url.
  split; [unfold encoding_calls; cbn [app]; rewrite <- !app_assoc; reflexivity |].
  split; [now apply Forall_app |].
  split; [| split; [reflexivity | exact Hurl']].
  intros i item Hi. destruct (Hfiles i item Hi) as (png & _ & Hr & Hw).
  split; [apply List.in_app_iff; now right |].
  exists png. apply List.in_app_iff. now right.
Qed.

(** The first revocation of a list of calls, and any later one. *)
Lemma revoke_split (quiet_part rest pre post : list event) (u0 u : jsstring) :
  Forall (fun e => is_revoke e = false) quiet_part ->
  quiet_part ++ RevokeObjectURL u0 :: rest = pre ++ RevokeObjectURL u :: post ->
  (pre = quiet_part /\ u = u0 /\ post = rest)
  \/ (exists k, pre = quiet_part ++ RevokeObjectURL u0 :: k
                /\ rest = k ++ RevokeObjectURL u :: post).
Proof.
  intros Hq. revert pre. induction Hq as [| e l He _ IH]; intros pre Heq.
  - destruct pre as [| e pre]; cbn [app] in Heq.
    + injection Heq as <- <-. now left.
    + injection Heq as <- ->. right. now exists pre.
  - destruct pre as [| e' pre]; cbn [app] in Heq.
    + injection Heq as -> _. discriminate He.
    + injection Heq as <- Heq. destruct (IH pre Heq) as [(-> & -> & ->) | (k & -> & ->)].
      * now left.
      * right. now exists k.
Qed.

(** Where a revocation can stand among the calls that end in the closing
    ones. *)
Lemma closing_revoke (work pre post : list event) (old : option jsstring)
    (url u : jsstring) :
  Forall (fun e => is_revoke e = false) work ->
  work ++ closing_calls old url = pre ++ RevokeObjectURL u :: post ->
  old = Some u
  /\ ((pre = work
       /\ post = SetVideoUrl url
                 :: (if decide (url = u) then [] else [RevokeObjectURL u]))
      \/ (pre = work ++ [RevokeObjectURL u; SetVideoUrl url]
          /\ post = []
          /\ url <> u)).
Proof.
  intros Hwork. unfold closing_calls, revocations.
  destruct old as [u0 |]; [destruct (truthy u0) |].
  - cbn [app]. intros Heq. apply revoke_split in Heq; [| exact Hwork].
    destruct Heq as [(-> & -> & ->) | (k & -> & Hk)].
    + split; [reflexivity |]. left. split; [reflexivity |].
      destruct (decide (Some url = Some u0)) as [Hsame | Hdiff];
        destruct (decide (url = u0)); congruence.
    + destruct (decide (Some url = Some u0)) as [Hsame | Hdiff].
      * exfalso. destruct k as [| e [| e' k]]; discriminate Hk.
      * destruct k as [| e [| e' k]]; try discriminate Hk.
        -- injection Hk as <- <- <-.
           split; [reflexivity |]. right.
           split; [reflexivity |]. split; [reflexivity | congruence].
        -- exfalso. injection Hk as _ _ Hk. destruct k; discriminate Hk.
  - intros Heq. exfalso.
    assert (Hall : Forall (fun e => is_revoke e = false)
                     (pre ++ RevokeObjectURL u :: post)).
    { rewrite <- Heq. apply Forall_app. split; [exact Hwork |].
      destruct (decide _); now repeat constructor. }
    apply Forall_app in Hall. destruct Hall as [_ Hall].
    apply Forall_cons in Hall. destruct Hall as [Hall _]. discriminate Hall.
  - intros Heq. exfalso.
    assert (Hall : Forall (fun e => is_revoke e = false)
                     (pre ++ RevokeObjectURL u :: post)).
    { rewrite <- Heq. apply Forall_app. split; [exact Hwork |].
      destruct (decide _); now repeat constructor. }
    apply Forall_app in Hall. destruct Hall as [_ Hall].
    apply Forall_cons in Hall. destruct Hall as [Hall _]. discriminate Hall.
Qed.

(** The calls of a request that ends without error. *)
Lemma request_calls (env : collaborators) (s : state) :
  updates s <> [] ->
  (exists message, error (fst (request env s)) = Some message
                   /\ Forall (fun e => is_revoke e = false) (snd (request env s)))
  \/ (exists (head : list event) (silence data : list Z) (url : jsstring),
        snd (request env s)
        = (head ++ encoding_calls (length (updates s)) silence data)
          ++ closing_calls (videoUrl s) url
        /\ error (fst (request env s)) = None
        /\ videoUrl (fst (request env s)) = Some url
        /\ Forall (fun e => is_revoke e = false /\ is_publish e = false) head
        /\ (forall i item, updates s !! i = Some item ->
              In (RenderSlide i) head
              /\ exists png, In (WriteFile (slide_name i) png) head)).
Proof.
  intros Hne. unfold request. rewrite handle_nonempty by exact Hne.
  destruct (generation env s (started s)) as [[s1 tr1] [[] | t]] eqn:Egen.
  - right.
    destruct (generation_calls _ _ _ _ _ Egen)
      as (head & silence & data & url & -> & Hhead & Hslides & _ & Hurl).
    destruct (finish_fields s1) as (Furl & _ & Ferr).
    assert (Herr : error s1 = None).
    { pose proof (settles_generation env s _ _ _ _ Egen) as Hset. cbn in Hset.
      now destruct Hset as (? & ? & _ & _ & _ & _ & ?). }
    exists head, silence, data, url. unfold closing_calls.
    destruct (decide (videoUrl (finish s1) = videoUrl s)) as [Hsame | Hother].
    + destruct (decide (Some url = videoUrl s)) as [_ | Hdiff]; [| congruence].
      cbn [fst snd]. rewrite <- !app_assoc.
      split; [reflexivity |]. split; [congruence |]. split; [congruence |].
      split; [exact Hhead | exact Hslides].
    + rewrite cleanup_result.
      destruct (decide (Some url = videoUrl s)) as [Hsame | _]; [congruence |].
      cbn [fst snd error videoUrl set_isMountedRef]. rewrite <- !app_assoc.
      split; [reflexivity |]. split; [congruence |]. split; [congruence |].
      split; [exact Hhead | exact Hslides].
  - left. exists (error_message t).
    destruct (settles_generation env s _ _ _ _ Egen) as [(Kurl & _ & _) Ftr].
    destruct (finish_fields (setError (Some (error_message t)) s1)) as (Furl & _ & Ferr).
    cbn [videoUrl error setError started setLogs setIsGenerating] in *.
    destruct (decide (videoUrl (finish (setError (Some (error_message t)) s1))
                      = videoUrl s)) as [_ | Hother]; [| congruence].
    cbn [fst snd]. split; [exact Ferr |].
    eapply Forall_impl; [exact Ftr |]. now intros e [? _].
Qed.

(** C10, as the code has it. Whenever a request revokes a handle, the
    handle is that of the video on offer when the request was made, the
    request ends without error, and its calls are these, in this order:
    the slides are rendered and written, one for each item (after the
    encoder is loaded, if it was not); the manifest is written, the silent
    track is written, the encoder is run, its output is read and the handle
    of the new video is created; the old handle is revoked; with the very
    next call the new video is published; and last, unless the new handle
    is the old one, the effect's cleanup revokes the old handle once more.
    The revocation is the first of these two or the second. *)
Theorem video_released_after_encoding (env : collaborators) (s : state)
    (pre post : list event) (u : jsstring) :
  snd (request env s) = pre ++ RevokeObjectURL u :: post ->
  exists (head : list event) (silence data : list Z) (url : jsstring),
    videoUrl s = Some u
    /\ error (fst (request env s)) = None
    /\ videoUrl (fst (request env s)) = Some url
    /\ Forall (fun e => is_revoke e = false /\ is_publish e = false) head
    /\ (forall i item, updates s !! i = Some item ->
          In (RenderSlide i) head
          /\ exists png, In (WriteFile (slide_name i) png) head)
    /\ ((pre = head ++ encoding_calls (length (updates s)) silence data
         /\ post = SetVideoUrl url
                   :: (if decide (url = u) then [] else [RevokeObjectURL u]))
        \/ (pre = (head ++ encoding_calls (length (updates s)) silence data)
                  ++ [RevokeObjectURL u; SetVideoUrl url]
            /\ post = []
            /\ url <> u)).
Proof.
  intros Htr.
  assert (Hquiet : forall tr, Forall (fun e => is_revoke e = false) tr ->
                     tr = pre ++ RevokeObjectURL u :: post -> False).
  { intros tr Hall ->. apply Forall_app in Hall. destruct Hall as [_ Hall].
    apply Forall_cons in Hall. destruct Hall as [Hall _]. discriminate Hall. }
  assert (Hne : updates s <> []).
  { intros Hempty. unfold request in Htr. rewrite handle_empty in Htr by exact Hempty.
    cbn [videoUrl setError] in Htr.
    destruct (decide (videoUrl s = videoUrl s)); [| congruence].
    destruct pre; discriminate Htr. }
  destruct (request_calls env s Hne)
    as [(message & _ & Hall)
       | (head & silence & data & url & Hcalls & Herr & Hurl & Hhead & Hslides)].
  { exfalso. exact (Hquiet _ Hall Htr). }
  rewrite Hcalls in Htr. apply closing_revoke in Htr.
  - destruct Htr as [Hold Hshape].
    exists head, silence, data, url.
    split; [exact Hold |]. split; [exact Herr |]. split; [exact Hurl |].
    split; [exact Hhead |]. split; [exact Hslides | exact Hshape].
  - apply Forall_app. split; [| now repeat constructor].
    eapply Forall_impl; [exact Hhead |]. now intros e [? _].
Qed.

Lemma video_released_after_encoding_witness :
  snd (request studio ready_with_video)
    = second_run_calls
      ++ RevokeObjectURL (js "blob:india-pulse/1")
         :: [SetVideoUrl (js "blob:india-pulse/2");
             RevokeObjectURL (js "blob:india-pulse/1")]
  /\ second_run_calls
     = [RenderSlide 0; WriteFile (slide_name 0) [137; 80; 78; 71; 0]]
       ++ encoding_calls 1 silence_240 [0; 0; 0; 32; 102; 116; 121; 112]
  /\ videoUrl ready_with_video = Some (js "blob:india-pulse/1")
  /\ error (fst (request studio ready_with_video)) = None
  /\ videoUrl (fst (request studio ready_with_video)) = Some (js "blob:india-pulse/2").
Proof.
  assert (Htr : snd (request studio ready_with_video)
                = second_run_calls
                  ++ RevokeObjectURL (js "blob:india-pulse/1")
                     :: [SetVideoUrl (js "blob:india-pulse/2");
                         RevokeObjectURL (js "blob:india-pulse/1")])
    by (rewrite studio_second_run; reflexivity).
  split; [exact Htr |]. split; [reflexivity |].
  destruct (video_released_after_encoding studio ready_with_video _ _ _ Htr)
    as (head & silence & data & url & Hold & Herr & Hurl & _).
  split; [exact Hold |]. split; [exact Herr |].
  rewrite studio_second_run. reflexivity.
Defined.

(** C10, as the specification words it, fails on a second run in the
    studio: the first handle is revoked after the slide was rendered, the
    manifest and the silence were written, the encoder ran and the new
    handle was created, and not before any of them. *)
Lemma video_not_released_before_rendering :
  snd (request studio ready_with_video)
    = second_run_calls
      ++ [RevokeObjectURL (js "blob:india-pulse/1");
          SetVideoUrl (js "blob:india-pulse/2");
          RevokeObjectURL (js "blob:india-pulse/1")]
  /\ Forall (fun e => is_revoke e = false) second_run_calls
  /\ In (RenderSlide 0) second_run_calls
  /\ In (Run encoder_args) second_run_calls
  /\ videoUrl ready_with_video = Some (js "blob:india-pulse/1")
  /\ videoUrl (fst (request studio ready_with_video)) = Some (js "blob:india-pulse/2").
Proof.
  rewrite studio_second_run. cbn [fst snd].
  split; [reflexivity |].
  split; [repeat constructor |].
  split; [now left |].
  split; [do 4 right; now left |].
  split; reflexivity.
Qed.

End Release.

(** ** From the route to the finished video *)

Section Composition.

Import Feed Orchestrator Run Display.

Lemma ceil_div_covers (a b : Z) : 0 < b -> a <= Planner.ceil_div a b * b.
Proof.
  intros Hb. unfold Planner.ceil_div.
  pose proof (Z.mul_div_le (- a) b Hb) as Hdiv. lia.
Qed.

Lemma finalDuration_at_least_minimum (n : Z) :
  1 <= n -> Planner.MIN_VIDEO_DURATION_SECONDS <= Planner.finalDuration n.
Proof.
  intros Hn. unfold Planner.finalDuration, Planner.perSlideDuration.
  pose proof (ceil_div_covers Planner.MIN_VIDEO_DURATION_SECONDS n ltac:(lia)) as Hc.
  set (q := Planner.ceil_div Planner.MIN_VIDEO_DURATION_SECONDS n) in *.
  assert (Hmax : 0 <= (Z.max q Planner.FALLBACK_SLIDE_DURATION - q) * n)
    by (apply Z.mul_nonneg_nonneg; lia).
  lia.
Qed.

(** The plan for the number of items the route can return. *)
Lemma totalDuration_up_to_ten (n : Z) :
  1 <= n <= 10 ->
  Planner.totalDuration n = Z.max 240 (40 * n).
Proof.
  intros Hn.
  assert (Hcases : n = 1 \/ n = 2 \/ n = 3 \/ n = 4 \/ n = 5 \/ n = 6 \/ n = 7
                   \/ n = 8 \/ n = 9 \/ n = 10) by lia.
  repeat (destruct Hcases as [-> | Hcases]; [reflexivity |]).
  subst n. reflexivity.
Qed.

Lemma track_exact (d : Z) :
  0 <= d -> 36 + d * 44100 * 2 < 2 ^ 32 ->
  exists silence : list Z,
    Wav.generateSilenceWav d = Some silence
    /\ Z.of_nat (length silence) = 44 + d * 44100 * 2
    /\ Wav.field 4 40 silence = d * 44100 * 2
    /\ Wav.field 4 4 silence = 36 + d * 44100 * 2.
Proof.
  intros Hd Hfit.
  assert (HL : Wav.dataLength d = d * 44100 * 2)
    by (unfold Wav.dataLength, Wav.sampleRate, Wav.bytesPerSample, Wav.channels; lia).
  assert (H53 : 2 ^ 32 < 2 ^ 53 - 1) by (vm_compute; reflexivity).
  destruct (generateSilenceWav_domain d) as [Hin _].
  rewrite HL in Hin. eexists. split; [apply Hin; lia |].
  destruct (header_fields ((36 + d * 44100 * 2) mod 2 ^ 32) ((d * 44100 * 2) mod 2 ^ 32)
              (replicate (Z.to_nat (d * 44100 * 2)) 0))
    as (Hlen & _ & _ & Hriff & Hdata & _).
  rewrite Hlen, Hriff, Hdata, length_replicate.
  rewrite !le_value_le_bytes_4 by (apply Z.mod_pos_bound; lia).
  rewrite !Z.mod_small by lia.
  repeat split; lia.
Qed.

(** X23. The label of a finished video shows the plan. When a request
    ends without an error text, the duration it stored is the total that
    the page previews for its items; the label under the video spells its
    minutes, of which there are at least four, and its seconds in two
    digits. *)
Theorem finished_label_shows_plan (env : collaborators) (s : state) :
  error (fst (request env s)) = None ->
  exists minutes seconds : jsstring,
    videoDuration (fst (request env s))
      = Some (Planner.totalDuration (Z.of_nat (length (updates s))))
    /\ formatDuration (videoDuration (fst (request env s)))
       = minutes ++ js " min " ++ seconds ++ js " sec"
    /\ decimal_value minutes
       = Some (Planner.totalDuration (Z.of_nat (length (updates s))) / 60)
    /\ decimal_value seconds
       = Some (Planner.totalDuration (Z.of_nat (length (updates s))) mod 60)
    /\ length seconds = 2%nat
    /\ 4 <= Planner.totalDuration (Z.of_nat (length (updates s))) / 60.
Proof.
  intros Herr.
  destruct (request_cases env s)
    as [[_ Hreq] | [(_ & s' & tr & message & Hreq & _ & _ & _ & Hmsg)
                   | (Hne & s' & pre & url & Hreq & _ & _ & _ & _ & _ & _ & Hdur)]];
    rewrite Hreq in *; cbn [fst] in *; try discriminate; try congruence.
  assert (Hn : 1 <= Z.of_nat (length (updates s)))
    by (destruct (updates s); [congruence | cbn [length]; lia]).
  rewrite totalDuration_finalDuration by exact Hn.
  pose proof (finalDuration_at_least_minimum _ Hn) as Hmin.
  unfold Planner.MIN_VIDEO_DURATION_SECONDS in Hmin.
  set (d := Planner.finalDuration (Z.of_nat (length (updates s)))) in *.
  exists (number_to_string (d / 60)), (padStart2 (number_to_string (d mod 60))).
  destruct (seconds_two_digits (d mod 60)) as [Hlen Hval];
    [apply Z.mod_pos_bound; lia |].
  split; [exact Hdur |]. rewrite Hdur. split.
  { unfold formatDuration. destruct (Z.eqb_spec d 0) as [H0 | _]; [lia |].
    cbv zeta. rewrite Z.rem_mod_nonneg by lia. reflexivity. }
  split; [apply decimal_value_number_to_string |].
  split; [exact Hval |]. split; [exact Hlen |].
  apply Z.div_le_lower_bound; lia.
Qed.

(** X24. Every video made of the route's items gets an exact silent
    track. The route returns at most ten items, so the plan's total is
    [max 240 (40 * n)] seconds, between 240 and 400; the track for it is
    allocated, and both length fields of its header hold the true lengths
    without wrapping. *)
Theorem route_video_track_is_exact (posts : list child) (items : list IndiaUpdate) :
  normalize posts = Some items ->
  items <> [] ->
  exists silence : list Z,
    Planner.totalDuration (Z.of_nat (length items))
      = Z.max 240 (40 * Z.of_nat (length items))
    /\ 240 <= Planner.totalDuration (Z.of_nat (length items)) <= 400
    /\ Wav.generateSilenceWav (Planner.totalDuration (Z.of_nat (length items)))
       = Some silence
    /\ Z.of_nat (length silence)
       = 44 + Planner.totalDuration (Z.of_nat (length items)) * 44100 * 2
    /\ Wav.field 4 40 silence
       = Planner.totalDuration (Z.of_nat (length items)) * 44100 * 2
    /\ Wav.field 4 4 silence
       = 36 + Planner.totalDuration (Z.of_nat (length items)) * 44100 * 2.
Proof.
  intros Hitems Hne.
  pose proof (normalize_at_most_ten _ _ Hitems) as Hten.
  assert (Hn : 1 <= Z.of_nat (length items) <= 10)
    by (destruct items; [congruence | cbn [length] in *; lia]).
  pose proof (totalDuration_up_to_ten _ Hn) as Htotal.
  set (total := Planner.totalDuration (Z.of_nat (length items))) in *.
  assert (Hrange : 240 <= total <= 400) by lia.
  destruct (track_exact total) as (silence & Hsil & Hlen & Hdata & Hriff);
    [lia | change (2 ^ 32) with 4294967296; lia |].
  exists silence. repeat split; try assumption; lia.
Qed.

End Composition.

Lemma finished_label_shows_plan_witness :
  Orchestrator.error (fst (Orchestrator.request Orchestrator.studio
                             Orchestrator.ready_with_video)) = None
  /\ exists minutes seconds : jsstring,
       Orchestrator.videoDuration
         (fst (Orchestrator.request Orchestrator.studio Orchestrator.ready_with_video))
       = Some (Planner.totalDuration
                 (Z.of_nat (length (Orchestrator.updates Orchestrator.ready_with_video))))
       /\ Display.formatDuration
            (Orchestrator.videoDuration
               (fst (Orchestrator.request Orchestrator.studio
                       Orchestrator.ready_with_video)))
          = minutes ++ js " min " ++ seconds ++ js " sec"
       /\ Display.decimal_value minutes
          = Some (Planner.totalDuration
                    (Z.of_nat (length (Orchestrator.updates Orchestrator.ready_with_video)))
                  / 60)
       /\ Display.decimal_value seconds
          = Some (Planner.totalDuration
                    (Z.of_nat (length (Orchestrator.updates Orchestrator.ready_with_video)))
                  mod 60)
       /\ length seconds = 2%nat
       /\ 4 <= Planner.totalDuration
                 (Z.of_nat (length (Orchestrator.updates Orchestrator.ready_with_video)))
               / 60.
Proof.
  assert (Herr : Orchestrator.error
                   (fst (Orchestrator.request Orchestrator.studio
                           Orchestrator.ready_with_video)) = None)
    by (rewrite studio_second_run; reflexivity).
  split; [exact Herr |].
  exact (finished_label_shows_plan Orchestrator.studio Orchestrator.ready_with_video Herr).
Defined.

Lemma route_video_track_is_exact_witness :
  exists items silence : list _,
    Feed.normalize Feed.sample_feed = Some items
    /\ length items = 9%nat
    /\ Planner.totalDuration (Z.of_nat (length items)) = 360
    /\ Wav.generateSilenceWav (Planner.totalDuration (Z.of_nat (length items)))
       = Some silence
    /\ Wav.field 4 40 silence
       = Planner.totalDuration (Z.of_nat (length items)) * 44100 * 2.
Proof.
  destruct (Feed.normalize Feed.sample_feed) as [items |] eqn:Hitems;
    [| vm_compute in Hitems; discriminate Hitems].
  assert (Hnine : length items = 9%nat).
  { assert (Hl : option_map (@length _) (Feed.normalize Feed.sample_feed) = Some 9%nat)
      by (vm_compute; reflexivity).
    rewrite Hitems in Hl. cbn [option_map] in Hl. congruence. }
  assert (Hne : items <> []) by (intros ->; discriminate Hnine).
  destruct (route_video_track_is_exact Feed.sample_feed items Hitems Hne)
    as (silence & Htotal & _ & Hsil & _ & Hdata & _).
  exists items, silence. split; [reflexivity |]. split; [exact Hnine |].
  split; [rewrite Htotal, Hnine; reflexivity |]. split; [exact Hsil | exact Hdata].
Defined.

Lemma encoder_input_is_ready_witness :
  Exists (fun e => Orchestrator.is_run e = true)
    (snd (Orchestrator.request Orchestrator.studio Orchestrator.ready_with_video))
  /\ exists (pre post : list Orchestrator.event) (silence : list Z),
       snd (Orchestrator.request Orchestrator.studio Orchestrator.ready_with_video)
         = pre ++ Orchestrator.Run Orchestrator.encoder_args :: post
       /\ In (Orchestrator.WriteFile (js "silence.wav") silence) pre
       /\ Z.of_nat (length silence) = 44 + 240 * 44100 * 2.
Proof.
  assert (Hex : Exists (fun e => Orchestrator.is_run e = true)
                  (snd (Orchestrator.request Orchestrator.studio
                          Orchestrator.ready_with_video))).
  { rewrite studio_second_run. cbn [snd]. apply Exists_app. left.
    unfold Orchestrator.second_run_calls.
    do 4 apply Exists_cons_tl. apply Exists_cons_hd. reflexivity. }
  split; [exact Hex |].
  destruct (encoder_input_is_ready Orchestrator.studio Orchestrator.ready_with_video Hex)
    as (pre & post & silence & Htr & _ & _ & _ & _ & Hwav & _ & Hlen).
  exists pre, post, silence.
  split; [exact Htr |]. split; [exact Hwav |]. exact Hlen.
Defined.

(** Two lines logged into a log that is full: the two oldest go. *)
Lemma log_is_a_window_witness :
  length (Orchestrator.logs
            (Orchestrator.setLogs
               (fun _ => [js "oldest"; js "older"] ++ replicate 118 (js "frame"))
               Orchestrator.idle)) = 120%nat
  /\ Orchestrator.logs
       (fst (fst (Orchestrator.logger [js "frame= 7200"; js "done"]
                    (Orchestrator.setLogs
                       (fun _ => [js "oldest"; js "older"] ++ replicate 118 (js "frame"))
                       Orchestrator.idle))))
     = replicate 118 (js "frame") ++ [js "frame= 7200"; js "done"].
Proof.
  assert (Hfull : length (Orchestrator.logs
                    (Orchestrator.setLogs
                       (fun _ => [js "oldest"; js "older"] ++ replicate 118 (js "frame"))
                       Orchestrator.idle)) = 120%nat) by reflexivity.
  split; [exact Hfull |].
  destruct (log_is_a_window [js "frame= 7200"; js "done"]
              (Orchestrator.setLogs
                 (fun _ => [js "oldest"; js "older"] ++ replicate 118 (js "frame"))
                 Orchestrator.idle))
    as (Hon & _); [rewrite Hfull; lia |].
  destruct (Hon eq_refl) as (Hlogs & _). rewrite Hlogs. reflexivity.
Defined.

(** ** The files of a run, and the page after it *)

Section RunFiles.

Import Feed Orchestrator Run Display Controls.

Lemma encode_ascii (s : jsstring) :
  Forall (fun c => c < 128) s -> encode s = s.
Proof.
  induction 1 as [| c s Hc _ IH]; [reflexivity |].
  cbn [encode]. destruct (Z.ltb_spec c 128); [now rewrite IH | lia].
Qed.

Lemma digits_ascii (u : Decimal.uint) :
  Forall (fun c => c < 128) (js (NilEmpty.string_of_uint u)).
Proof.
  induction u; cbn [NilEmpty.string_of_uint js]; constructor; try assumption;
    reflexivity.
Qed.

Lemma number_ascii (n : Z) : Forall (fun c => c < 128) (number_to_string n).
Proof.
  unfold number_to_string.
  destruct (Z.to_int n) as [u | u]; cbn [NilZero.string_of_int js];
    [| constructor; [reflexivity |]];
    unfold NilZero.string_of_uint;
    (destruct u; [repeat constructor | apply digits_ascii ..]).
Qed.

Lemma join_ascii (sep : jsstring) (parts : list jsstring) :
  Forall (fun c => c < 128) sep ->
  Forall (Forall (fun c => c < 128)) parts ->
  Forall (fun c => c < 128) (join sep parts).
Proof.
  intros Hsep. induction 1 as [| p rest Hp Hrest IH]; [constructor |].
  destruct rest as [| q rest]; [exact Hp |].
  rewrite join_cons_cons. apply Forall_app. split; [exact Hp |].
  apply Forall_app. split; [exact Hsep | exact IH].
Qed.

Lemma literal_ascii (s : string) :
  forallb (fun c => c <? 128) (js s) = true -> Forall (fun c => c < 128) (js s).
Proof.
  intros Hall. apply Forall_forall. intros c Hc.
  rewrite forallb_forall in Hall. apply Z.ltb_lt, Hall.
  now apply list_elem_of_In.
Qed.

Lemma slide_name_ascii (index : nat) : Forall (fun c => c < 128) (slide_name index).
Proof.
  unfold slide_name. apply Forall_app. split; [now apply literal_ascii |].
  apply Forall_app. split; [apply number_ascii | now apply literal_ascii].
Qed.

Lemma buildConcatScript_ascii (slideNames : list jsstring) (durationSeconds : Z) :
  Forall (Forall (fun c => c < 128)) slideNames ->
  Forall (fun c => c < 128) (Manifest.buildConcatScript slideNames durationSeconds).
Proof.
  intros Hnames. unfold Manifest.buildConcatScript. cbv zeta.
  apply Forall_app. split.
  { apply join_ascii; [now repeat constructor |].
    apply Forall_forall. intros entry Hentry.
    apply list_elem_of_In, in_map_iff in Hentry.
    destruct Hentry as (name & <- & Hin).
    apply Forall_app. split; [now apply literal_ascii |].
    apply Forall_app. split.
    { rewrite Forall_forall in Hnames. apply Hnames. now apply list_elem_of_In. }
    apply Forall_app. split; [now apply literal_ascii |].
    apply Forall_app. split; [now repeat constructor |].
    apply Forall_app. split; [now apply literal_ascii | apply number_ascii]. }
  apply Forall_app. split; [now repeat constructor |].
  apply Forall_app. split; [now apply literal_ascii |].
  apply Forall_app. split; [| now apply literal_ascii].
  unfold array_get.
  destruct (Z.of_nat (length slideNames) - 1 <? 0); [now apply literal_ascii |].
  destruct (slideNames !! Z.to_nat (Z.of_nat (length slideNames) - 1)) as [name |] eqn:Hlast;
    [| now apply literal_ascii].
  cbn [template]. rewrite Forall_forall in Hnames. apply Hnames.
  eapply list_elem_of_lookup_2. exact Hlast.
Qed.

(** X25. The files of a run do not clash. Two items never share a slide
    file, since the file names spell the items' positions; and no slide
    file has the name of the manifest, of the silent track or of the
    encoder's output. *)
Theorem slide_files_do_not_clash (i j : nat) :
  (slide_name i = slide_name j <-> i = j)
  /\ decimal_value (take (length (slide_name i) - 10) (drop 6 (slide_name i)))
     = Some (Z.of_nat i)
  /\ slide_name i <> js "slides.txt"
  /\ slide_name i <> js "silence.wav"
  /\ slide_name i <> js "output.mp4".
Proof.
  split; [split; [| now intros ->] |].
  { unfold slide_name. intros Heq.
    apply app_inv_head, app_inv_tail in Heq.
    apply (f_equal decimal_value) in Heq.
    rewrite !decimal_value_number_to_string in Heq.
    injection Heq as Heq. lia. }
  split.
  { unfold slide_name. rewrite !length_app.
    change (length (js "slide-")) with 6%nat.
    change (length (js ".png")) with 4%nat.
    rewrite drop_app_length' by reflexivity.
    replace (6 + (length (number_to_string (Z.of_nat i)) + 4) - 10)%nat
      with (length (number_to_string (Z.of_nat i))) by lia.
    rewrite take_app_length. apply decimal_value_number_to_string. }
  unfold slide_name.
  repeat split; intros Heq; apply (f_equal (fun name => name !! 5%nat)) in Heq;
    cbn in Heq; discriminate Heq.
Qed.

(** X26. The manifest of a run is written as it reads: it holds only
    ASCII characters, slide names and durations included, so that its
    UTF-8 encoding is the text itself, one byte for each character; this
    holds for an empty list of slides too. *)
Theorem manifest_bytes_are_its_characters (itemCount : nat) (durationSeconds : Z) :
  encode (Manifest.buildConcatScript
            (List.map slide_name (seq 0 itemCount)) durationSeconds)
  = Manifest.buildConcatScript (List.map slide_name (seq 0 itemCount)) durationSeconds
  /\ Forall (fun c => c < 128)
       (Manifest.buildConcatScript (List.map slide_name (seq 0 itemCount))
          durationSeconds).
Proof.
  assert (Hascii : Forall (fun c => c < 128)
                     (Manifest.buildConcatScript
                        (List.map slide_name (seq 0 itemCount)) durationSeconds)).
  { apply buildConcatScript_ascii. apply Forall_forall. intros name Hname.
    apply list_elem_of_In, in_map_iff in Hname.
    destruct Hname as (index & <- & _). apply slide_name_ascii. }
  split; [now apply encode_ascii | exact Hascii].
Qed.

Lemma logger_keeps_mounted (messages : list jsstring) (s : state) :
  isMountedRef (fst (fst (logger messages s))) = isMountedRef s.
Proof.
  pose proof (logger_only_logs messages s) as Hframe.
  apply (f_equal isMountedRef) in Hframe. exact Hframe.
Qed.

Lemma mounted_logger (b : bool) (messages : list jsstring) :
  preserves (fun s => isMountedRef s = b) (logger messages).
Proof.
  intros s s' tr r Hrun Hs. pose proof (logger_keeps_mounted messages s) as Hk.
  rewrite Hrun in Hk. cbn in Hk. congruence.
Qed.

(** The [try] block does not touch the mounted flag. *)
Lemma mounted_generation (b : bool) (env : collaborators) (closure : state) :
  preserves (fun s => isMountedRef s = b) (generation env closure).
Proof.
  unfold generation. cbv zeta.
  apply preserves_bind; [| intros _].
  { unfold ensureFFmpeg.
    apply preserves_bind; [now apply preserves_pure |]. intros s0.
    destruct (ffmpegRef s0); [now apply preserves_pure |].
    apply preserves_bind; [apply mounted_logger |]. intros _.
    apply preserves_bind; [now apply preserves_pure |]. intros _.
    apply preserves_modify. now intros s. }
  apply preserves_bind; [apply preserves_render_slides | intros slideNames].
  apply preserves_bind; [now apply preserves_pure | intros _].
  apply preserves_bind.
  { destruct (Wav.generateSilenceWav _); now apply preserves_pure. }
  intros silence.
  apply preserves_bind; [now apply preserves_pure | intros _].
  apply preserves_bind; [apply mounted_logger | intros _].
  apply preserves_bind; [now apply preserves_pure | intros _].
  apply preserves_bind; [now apply preserves_pure | intros data].
  apply preserves_bind; [now apply preserves_pure | intros url].
  apply preserves_bind; [apply preserves_revoke | intros _].
  apply preserves_bind; [apply preserves_publish; now intros s | intros _].
  apply preserves_modify. now intros s.
Qed.

(** X27. The second video locks the page. On a page that is mounted and
    offers no video, a request that ends without an error text leaves the
    generate button enabled but the mounted flag cleared. Whatever the
    next request then does, it ends with both buttons disabled, the
    generate button reading that it is rendering, and an empty log. *)
Theorem second_video_locks_page (env1 env2 : collaborators) (s : state) :
  isMountedRef s = true -> videoUrl s = None ->
  error (fst (request env1 s)) = None ->
  generate_disabled (fst (request env1 s)) = false
  /\ isMountedRef (fst (request env1 s)) = false
  /\ generate_disabled (fst (request env2 (fst (request env1 s)))) = true
  /\ fetch_disabled (fst (request env2 (fst (request env1 s)))) = true
  /\ generate_label (fst (request env2 (fst (request env1 s))))
     = js "Rendering master..."
  /\ logs (fst (request env2 (fst (request env1 s)))) = [].
Proof.
  intros Hon Hnone Herr.
  assert (Hne : updates s <> []).
  { intros Hempty. destruct (request_cases env1 s) as [[_ Hreq] | [[H _] | [H _]]];
      try congruence.
    rewrite Hreq in Herr. discriminate Herr. }
  assert (Hup : updates (fst (request env1 s)) = updates s).
  { apply (request_keeps (fun s' => updates s' = updates s));
      [constructor; intros; assumption | exact Hne | reflexivity]. }
  assert (Hfirst : isGenerating (fst (request env1 s)) = false
                   /\ isMountedRef (fst (request env1 s)) = false).
  { revert Herr. unfold request. rewrite handle_nonempty by exact Hne.
    destruct (generation env1 s (started s)) as [[s1 tr1] r] eqn:Egen.
    pose proof (mounted_generation true env1 s _ _ _ _ Egen Hon) as Hm.
    pose proof (settles_generation env1 s _ _ _ _ Egen) as Hset.
    destruct r as [[] | t].
    - destruct Hset as (pre & url & _ & _ & Hurl & _ & _).
      unfold finish. rewrite Hm.
      destruct (decide (videoUrl (setIsGenerating false s1) = videoUrl s))
        as [Hsame | _].
      + cbn [videoUrl setIsGenerating] in Hsame. congruence.
      + rewrite cleanup_result. intros _. split; reflexivity.
    - unfold finish. cbn [isMountedRef setError]. rewrite Hm.
      destruct (decide _) as [_ | _]; [| rewrite cleanup_result];
        cbn; discriminate. }
  destruct Hfirst as [Hidle Hoff].
  assert (Hsecond : isGenerating (fst (request env2 (fst (request env1 s)))) = true
                    /\ logs (fst (request env2 (fst (request env1 s)))) = []
                    /\ isMountedRef (fst (request env2 (fst (request env1 s)))) = false).
  { apply (request_keeps
             (fun s' => isGenerating s' = true /\ logs s' = []
                        /\ isMountedRef s' = false)).
    - constructor; try (intros; assumption).
      + intros s0 (_ & _ & Hm) Hm'. congruence.
      + intros s0 (Hg & Hl & Hm). repeat split; assumption.
      + intros s0 message (_ & _ & Hm) Hm'. congruence.
    - now rewrite Hup.
    - repeat split. exact Hoff. }
  destruct Hsecond as (Hbusy & Hlogs & _).
  unfold generate_disabled, fetch_disabled, generate_label.
  rewrite Hidle, Hup, Hbusy, orb_true_r. cbn [orb].
  split.
  { destruct (updates s); [congruence | reflexivity]. }
  split; [exact Hoff |]. split; [reflexivity |]. split; [reflexivity |].
  split; [reflexivity | exact Hlogs].
Qed.

End RunFiles.

(** A first request in the studio, on a page that has fetched one story. *)
Lemma studio_first_run_succeeds :
  Orchestrator.error
    (fst (Orchestrator.request Orchestrator.studio
            (Fetch.setUpdates [Orchestrator.headline] Orchestrator.idle))) = None.
Proof.
  assert (Hsilence : Wav.generateSilenceWav 240 = Some Orchestrator.silence_240).
  { rewrite generateSilenceWav_shape by (vm_compute; congruence). reflexivity. }
  unfold Orchestrator.request. rewrite handle_nonempty by discriminate.
  unfold Orchestrator.generation.
  change (Planner.perSlideDuration
            (Z.of_nat (length (Orchestrator.updates
                                 (Fetch.setUpdates [Orchestrator.headline]
                                    Orchestrator.idle)))))
    with 240.
  change (240 * Z.of_nat (length (Orchestrator.updates
                                    (Fetch.setUpdates [Orchestrator.headline]
                                       Orchestrator.idle))))
    with 240.
  cbv zeta. rewrite Hsilence.
  cbn -[Orchestrator.silence_240 Orchestrator.encode Manifest.buildConcatScript
        Orchestrator.encoder_args js].
  reflexivity.
Qed.

Lemma second_video_locks_page_witness :
  Orchestrator.isMountedRef (Fetch.setUpdates [Orchestrator.headline] Orchestrator.idle)
    = true
  /\ Orchestrator.videoUrl (Fetch.setUpdates [Orchestrator.headline] Orchestrator.idle)
     = None
  /\ Controls.generate_disabled
       (fst (Orchestrator.request Orchestrator.studio
               (Fetch.setUpdates [Orchestrator.headline] Orchestrator.idle)))
     = false
  /\ Controls.generate_disabled
       (fst (Orchestrator.request Orchestrator.studio_with_failing_canvas
               (fst (Orchestrator.request Orchestrator.studio
                       (Fetch.setUpdates [Orchestrator.headline] Orchestrator.idle)))))
     = true
  /\ Controls.fetch_disabled
       (fst (Orchestrator.request Orchestrator.studio_with_failing_canvas
               (fst (Orchestrator.request Orchestrator.studio
                       (Fetch.setUpdates [Orchestrator.headline] Orchestrator.idle)))))
     = true.
Proof.
  split; [reflexivity |]. split; [reflexivity |].
  destruct (second_video_locks_page Orchestrator.studio
              Orchestrator.studio_with_failing_canvas
              (Fetch.setUpdates [Orchestrator.headline] Orchestrator.idle)
              eq_refl eq_refl studio_first_run_succeeds)
    as (Henabled & _ & Hgenerate & Hfetch & _).
  split; [exact Henabled |]. split; [exact Hgenerate | exact Hfetch].
Defined.
